(** * MCP tool server: dispatcher, storage layer and event stream

    A shallow embedding of [mcp_server/app.py], [mcp_server/database.py],
    the sample rows of [common/db.py], the task model of [sdk/types.py] and
    the text helpers of [agents/support/main.py], followed by the properties
    of the tool-invocation protocol and of the helpers.

    Conventions of the embedding.
    - A Python value that reaches the server in a JSON body is a [Py.value]:
      None, a bool, an int, a float, a str, a list or a dict; a [dict] is an
      association list in insertion order, read by its first binding.
    - A Python int is a [Z].  An SQLite INTEGER is a [Z] in the signed 64-bit
      range: binding any other int raises OverflowError.  The limit that
      recent interpreters put on the number of digits [int()] and [str()]
      convert (sys.set_int_max_str_digits) is taken to be switched off.
    - A str is the sequence of the bytes of its UTF-8 form; a str that has
      none, one that holds a lone surrogate, is not a value of the model.
      What Python and SQLite do on text that holds a character outside
      ASCII, and how they write a float, is not computed here: it is taken
      from a [Py.Runtime], and every theorem holds for every runtime.
    - An exception is a value of [Py.exn]; code that may raise returns a
      [Py.result].  The SQLite file is a [Database.store]; the process-wide
      state of the server is an [App.world], threaded explicitly. *)

From Stdlib Require Import ZArith List String Ascii Bool Lia.
From Stdlib Require Import Sorting.Sorted Sorting.Permutation.
From Stdlib Require Import DecimalString.
From Stdlib Require DecimalPos.
Import ListNotations.

Open Scope string_scope.
Open Scope Z_scope.

(* ------------------------------------------------------------------ *)
(** ** Python values, coercions and exceptions *)

Module Py.

#[local] Set Warnings "-register-all".

(** A float: a signed zero, a signed infinity, NaN, or the number
    [mantissa * 2 ^ exponent] with its sign. *)
Inductive float : Type :=
| Zero (negative : bool)
| Infinity (negative : bool)
| NaN
| Finite (negative : bool) (mantissa : positive) (exponent : Z).

Inductive value : Type :=
| VNone
| VBool (b : bool)
| VInt (z : Z)
| VFloat (f : float)
| VStr (s : string)
| VList (l : list value)
| VDict (d : list (string * value)).

(** What an SQLite statement can fail with. *)
Inductive sqlite_failure : Type :=
| UnsupportedType      (* a bound parameter is neither None, int, float nor str *)
| ConstraintFailed     (* NOT NULL or FOREIGN KEY *)
| DatabaseFull.        (* no rowid is left for a new row *)

Inductive exn : Type :=
| HTTPException (status_code : Z) (detail : string)
| TypeError
| ValueError
| OverflowError
| AttributeError
| Sqlite3Error (why : sqlite_failure).

Inductive result (A : Type) : Type :=
| Return (a : A)
| Raise (e : exn).

Arguments Return {A} a.
Arguments Raise {A} e.

(** What the interpreter and SQLite do beyond the text and numbers computed
    in this file:
    - [int_unicode] : [int(s)] for a str with a character outside ASCII
      (Unicode digits and whitespace count there); None is ValueError;
    - [repr_unicode] : [repr(s)] for such a str;
    - [repr_float] : [repr(x)], which is also [str(x)], for a float;
    - [strip_unicode], [lower_unicode] : [s.strip()] and [s.lower()] for a
      str with a character outside ASCII;
    - [real_text] : the text SQLite gives a REAL number in a TEXT column. *)
Class Runtime : Type :=
  { int_unicode : string -> option Z;
    repr_unicode : string -> string;
    repr_float : float -> string;
    strip_unicode : string -> string;
    lower_unicode : string -> string;
    real_text : float -> string }.

(** [d.get(k)] : the binding of [k], or None. *)
Fixpoint dict_find (k : string) (d : list (string * value)) : option value :=
  match d with
  | [] => None
  | (k', v) :: d' => if String.eqb k k' then Some v else dict_find k d'
  end.

Definition get (d : list (string * value)) (k : string) : value :=
  match dict_find k d with Some v => v | None => VNone end.

(** [d.get(k, default)] *)
Definition get_default (d : list (string * value)) (k : string) (default : value) : value :=
  match dict_find k d with Some v => v | None => default end.

(** Truth value of an object, as [if x], [not x] and [x or y] test it. *)
Definition truthy (v : value) : bool :=
  match v with
  | VNone => false
  | VBool b => b
  | VInt z => negb (z =? 0)
  | VFloat f => match f with Zero _ => false | _ => true end
  | VStr s => negb (String.eqb s "")
  | VList l => match l with [] => false | _ => true end
  | VDict d => match d with [] => false | _ => true end
  end.

(** [x or y] *)
Definition or_else (x y : value) : value := if truthy x then x else y.

(** Whether every character of the text is an ASCII one. *)
Fixpoint is_ascii (s : string) : bool :=
  match s with
  | EmptyString => true
  | String c s' => (nat_of_ascii c <? 128)%nat && is_ascii s'
  end.

(** *** [int(x)] *)

(** The whitespace [int()] skips around an ASCII literal. *)
Definition is_space (c : ascii) : bool :=
  let n := nat_of_ascii c in
  ((9 <=? n) && (n <=? 13) || (n =? 32))%nat.

Definition is_digit (c : ascii) : bool :=
  let n := nat_of_ascii c in ((48 <=? n) && (n <=? 57))%nat.

Definition digit_value (c : ascii) : Z := Z.of_nat (nat_of_ascii c) - 48.

Fixpoint lstrip (l : list ascii) : list ascii :=
  match l with
  | c :: l' => if is_space c then lstrip l' else l
  | [] => []
  end.

Definition strip (l : list ascii) : list ascii := rev (lstrip (rev (lstrip l))).

(** Decimal digits, single underscores allowed between two digits. *)
Fixpoint digits (acc : Z) (after_digit : bool) (l : list ascii) : option Z :=
  match l with
  | [] => if after_digit then Some acc else None
  | c :: l' =>
      if is_digit c then digits (10 * acc + digit_value c) true l'
      else if Ascii.eqb c "_"%char
           then (if after_digit then digits acc false l' else None)
           else None
  end.

(** An ASCII literal in base ten. *)
Definition ascii_int_literal (s : string) : option Z :=
  match strip (list_ascii_of_string s) with
  | c :: l =>
      if Ascii.eqb c "-"%char then option_map Z.opp (digits 0 false l)
      else if Ascii.eqb c "+"%char then digits 0 false l
      else digits 0 false (c :: l)
  | [] => None
  end.

(** [int(x)] for a float: the number without its fraction. *)
Definition int_of_float (f : float) : result Z :=
  match f with
  | Zero _ => Return 0
  | Infinity _ => Raise OverflowError
  | NaN => Raise ValueError
  | Finite negative m e =>
      let magnitude := Z.shiftl (Z.pos m) e in
      Return (if negative then - magnitude else magnitude)
  end.

(** *** [str(x)] and [repr(x)] *)

Definition decimal (z : Z) : string := NilZero.string_of_int (Z.to_int z).

Definition quote1 : ascii := "'"%char.
Definition quote2 : ascii := ascii_of_nat 34.
Definition backslash : ascii := ascii_of_nat 92.

Fixpoint contains (c : ascii) (s : string) : bool :=
  match s with
  | EmptyString => false
  | String c' s' => Ascii.eqb c c' || contains c s'
  end.

Definition hex_digit (n : nat) : ascii :=
  if (n <? 10)%nat then ascii_of_nat (48 + n) else ascii_of_nat (87 + n).

Definition str1 (c : ascii) : string := String c EmptyString.

Definition escape_char (q c : ascii) : string :=
  let n := nat_of_ascii c in
  if Ascii.eqb c backslash then String backslash (str1 backslash)
  else if Ascii.eqb c q then String backslash (str1 q)
  else if (n =? 9)%nat then String backslash "t"
  else if (n =? 10)%nat then String backslash "n"
  else if (n =? 13)%nat then String backslash "r"
  else if ((n <? 32) || (n =? 127))%nat
       then String backslash (String "x" (String (hex_digit (n / 16)) (str1 (hex_digit (n mod 16)))))
  else str1 c.

Fixpoint escape (q : ascii) (s : string) : string :=
  match s with
  | EmptyString => EmptyString
  | String c s' => escape_char q c ++ escape q s'
  end.

(** [repr(s)] for an ASCII str. *)
Definition ascii_repr_str (s : string) : string :=
  let q := if contains quote1 s && negb (contains quote2 s) then quote2 else quote1 in
  String q (escape q s ++ str1 q).

Fixpoint join (sep : string) (l : list string) : string :=
  match l with
  | [] => ""
  | [x] => x
  | x :: l' => x ++ sep ++ join sep l'
  end.

Section WithRuntime.
Context {rt : Runtime}.

Definition int_literal (s : string) : option Z :=
  if is_ascii s then ascii_int_literal s else int_unicode s.

Definition int (v : value) : result Z :=
  match v with
  | VNone => Raise TypeError
  | VBool b => Return (if b then 1 else 0)
  | VInt z => Return z
  | VFloat f => int_of_float f
  | VStr s => match int_literal s with Some z => Return z | None => Raise ValueError end
  | VList _ => Raise TypeError
  | VDict _ => Raise TypeError
  end.

Definition repr_str (s : string) : string :=
  if is_ascii s then ascii_repr_str s else repr_unicode s.

Fixpoint repr (v : value) : string :=
  match v with
  | VNone => "None"
  | VBool b => if b then "True" else "False"
  | VInt z => decimal z
  | VFloat f => repr_float f
  | VStr s => repr_str s
  | VList l => "[" ++ join ", " (map repr l) ++ "]"
  | VDict d => "{" ++ join ", " (map (fun kv => repr_str (fst kv) ++ ": " ++ repr (snd kv)) d) ++ "}"
  end.

Definition str (v : value) : string :=
  match v with
  | VStr s => s
  | _ => repr v
  end.

End WithRuntime.

(** A runtime to evaluate examples with.  The examples of this file hold
    ASCII text only and write no float out, so none of its fields is
    consulted by them. *)
Definition ascii_only : Runtime :=
  {| int_unicode := fun _ => None;
     repr_unicode := fun s => s;
     repr_float := fun _ => "nan";
     strip_unicode := fun s => s;
     lower_unicode := fun s => s;
     real_text := fun _ => "NaN" |}.

End Py.

(* ------------------------------------------------------------------ *)
(** ** The sqlite3 module: parameters and column affinity *)

Module Sqlite.
Import Py.

Inductive sqlval : Type :=
| Null
| Integer (z : Z)
| Real (f : float)
| Text (s : string).

(** The integers an SQLite INTEGER holds. *)
Definition in_int64 (z : Z) : bool :=
  (-9223372036854775808 <=? z) && (z <=? 9223372036854775807).

(** The largest rowid. *)
Definition max_rowid : Z := 9223372036854775807.

(** A Python object passed for a [?] placeholder.  None, int (bool is an
    int), float and str are adapted; an int outside the 64-bit range raises
    OverflowError and any other object makes [execute] raise.  SQLite keeps
    NaN as NULL. *)
Definition bind (v : value) : result sqlval :=
  match v with
  | VNone => Return Null
  | VBool b => Return (Integer (if b then 1 else 0))
  | VInt z => if in_int64 z then Return (Integer z) else Raise OverflowError
  | VFloat f => Return (match f with NaN => Null | _ => Real f end)
  | VStr s => Return (Text s)
  | VList _ => Raise (Sqlite3Error UnsupportedType)
  | VDict _ => Raise (Sqlite3Error UnsupportedType)
  end.

(** [LIMIT ?] : a negative limit means no limit. *)
Definition limit_rows {A : Type} (n : Z) (rows : list A) : list A :=
  if n <? 0 then rows else firstn (Z.to_nat n) rows.

Section WithRuntime.
Context {rt : Runtime}.

(** A value stored in, or compared with, a column declared TEXT. *)
Definition text_affinity (x : sqlval) : sqlval :=
  match x with
  | Integer z => Text (decimal z)
  | Real f => Text (real_text f)
  | _ => x
  end.

(** Assignment to a TEXT NOT NULL column. *)
Definition store_text (x : sqlval) : result string :=
  match text_affinity x with
  | Text s => Return s
  | _ => Raise (Sqlite3Error ConstraintFailed)
  end.

(** [column = ?] for a TEXT column; a comparison with NULL is not true. *)
Definition text_equals (column : string) (x : sqlval) : bool :=
  match text_affinity x with
  | Text s => String.eqb column s
  | _ => false
  end.

End WithRuntime.

End Sqlite.

(* ------------------------------------------------------------------ *)
(** ** mcp_server/database.py *)

Module Database.
Import Py Sqlite.

(** Modelled from the spec: the schema, which [database_setup] creates and
    which is not among the sources.  The three tables are those of the data
    model, with the columns the queries of this module name and the
    declarations of [common/db.py]: integer primary keys assigned by the
    storage, TEXT NOT NULL payload columns, [created_at] filled with the
    current timestamp, and [customer_id] referencing [customers(id)]. *)
Module Customer.
Record row : Type := mk
  { id : Z; name : string; email : string; status : string; created_at : string }.
End Customer.

Module Ticket.
Record row : Type := mk
  { id : Z; customer_id : Z; issue : string; priority : string;
    status : string; created_at : string }.
End Ticket.

Module Interaction.
Record row : Type := mk
  { id : Z; customer_id : Z; channel : string; notes : string; created_at : string }.
End Interaction.

(** A row of [SELECT id, channel, notes, created_at FROM interactions]. *)
Module History.
Record row : Type := mk
  { id : Z; channel : string; notes : string; created_at : string }.
End History.

(** The database file: the rows of each table in rowid order, and the
    largest ticket id handed out so far (the AUTOINCREMENT counter). *)
Record store : Type := mk_store
  { customers : list Customer.row;
    tickets : list Ticket.row;
    tickets_seq : Z;
    interactions : list Interaction.row }.

Definition get_customer (db : store) (customer_id : Z) : result (option Customer.row) :=
  match bind (VInt customer_id) with
  | Raise e => Raise e
  | Return _ => Return (find (fun r => Customer.id r =? customer_id) (customers db))
  end.

Definition allowed : list string := ["name"; "email"; "status"].

Definition is_allowed (k : string) : bool := existsb (String.eqb k) allowed.

(** [changes.items()] *)
Definition items (changes : value) : result (list (string * value)) :=
  match changes with
  | VDict d => Return d
  | _ => Raise AttributeError
  end.

(** [list(updates.values())] as statement parameters. *)
Fixpoint bind_values (updates : list (string * value)) : result (list (string * sqlval)) :=
  match updates with
  | [] => Return []
  | (k, v) :: rest =>
      match bind v with
      | Raise e => Raise e
      | Return x =>
          match bind_values rest with
          | Raise e => Raise e
          | Return xs => Return ((k, x) :: xs)
          end
      end
  end.

Fixpoint assigned (col : string) (params : list (string * sqlval)) : option sqlval :=
  match params with
  | [] => None
  | (k, x) :: rest => if String.eqb col k then Some x else assigned col rest
  end.

Definition with_customers (db : store) (rows : list Customer.row) : store :=
  mk_store rows (tickets db) (tickets_seq db) (interactions db).

Definition has_customer (db : store) (customer_id : Z) : bool :=
  existsb (fun r => Customer.id r =? customer_id) (customers db).

Section WithRuntime.
Context {rt : Runtime}.

Definition list_customers (db : store) (status : value) (limit : Z)
  : result (list Customer.row) :=
  if truthy status then
    match bind status with
    | Raise e => Raise e
    | Return x =>
        match bind (VInt limit) with
        | Raise e => Raise e
        | Return _ =>
            Return (limit_rows limit
                      (filter (fun r => text_equals (Customer.status r) x) (customers db)))
        end
    end
  else
    match bind (VInt limit) with
    | Raise e => Raise e
    | Return _ => Return (limit_rows limit (customers db))
    end.

(** The new content of column [col] under [SET k1 = ?, k2 = ?, ...]. *)
Definition set_column (params : list (string * sqlval)) (col : string) (old : string)
  : result string :=
  match assigned col params with
  | None => Return old
  | Some x => store_text x
  end.

Definition update_row (params : list (string * sqlval)) (r : Customer.row)
  : result Customer.row :=
  match set_column params "name" (Customer.name r) with
  | Raise e => Raise e
  | Return n =>
      match set_column params "email" (Customer.email r) with
      | Raise e => Raise e
      | Return m =>
          match set_column params "status" (Customer.status r) with
          | Raise e => Raise e
          | Return s =>
              Return (Customer.mk (Customer.id r) n m s (Customer.created_at r))
          end
      end
  end.

(** [UPDATE customers SET ... WHERE id = ?] *)
Fixpoint update_where_id (params : list (string * sqlval)) (customer_id : Z)
    (rows : list Customer.row) : result (list Customer.row) :=
  match rows with
  | [] => Return []
  | r :: rest =>
      match (if Customer.id r =? customer_id then update_row params r else Return r) with
      | Raise e => Raise e
      | Return r' =>
          match update_where_id params customer_id rest with
          | Raise e => Raise e
          | Return rest' => Return (r' :: rest')
          end
      end
  end.

Definition modify_customer (db : store) (customer_id : Z) (changes : value)
  : result (option Customer.row) * store :=
  match items changes with
  | Raise e => (Raise e, db)
  | Return its =>
      let updates := filter (fun kv => is_allowed (fst kv)) its in
      match updates with
      | [] => (get_customer db customer_id, db)
      | _ :: _ =>
          match bind (VInt customer_id) with
          | Raise e => (Raise e, db)
          | Return _ =>
              if negb (existsb (fun r => Customer.id r =? customer_id) (customers db))
              then (Return None, db)
              else
                match bind_values updates with
                | Raise e => (Raise e, db)
                | Return params =>
                    match update_where_id params customer_id (customers db) with
                    | Raise e => (Raise e, db)
                    | Return rows =>
                        let db' := with_customers db rows in
                        (get_customer db' customer_id, db')
                    end
                end
          end
      end
  end.

End WithRuntime.

Definition max_id (rows : list Ticket.row) : Z :=
  fold_right (fun r m => Z.max (Ticket.id r) m) 0 rows.

(** [now] is the CURRENT_TIMESTAMP the INSERT reads.  The INSERT binds its
    parameters, then takes the rowid after the largest the table has had,
    which fails when that one is the largest rowid there is, and at its end
    checks the foreign key. *)
Definition new_ticket (db : store) (now : string) (customer_id : Z) (issue priority : string)
  : result Ticket.row * store :=
  match bind (VInt customer_id) with
  | Raise e => (Raise e, db)
  | Return _ =>
      let last := Z.max (tickets_seq db) (max_id (tickets db)) in
      if max_rowid <=? last
      then (Raise (Sqlite3Error DatabaseFull), db)
      else if negb (existsb (fun r => Customer.id r =? customer_id) (customers db))
      then (Raise (Sqlite3Error ConstraintFailed), db)
      else
        let ticket_id := 1 + last in
        let inserted := Ticket.mk ticket_id customer_id issue priority "open" now in
        let db' := mk_store (customers db) (tickets db ++ [inserted]) ticket_id
                            (interactions db) in
        match find (fun r => Ticket.id r =? ticket_id) (tickets db') with
        | Some row => (Return row, db')
        | None => (Raise TypeError, db')          (* dict(None) *)
        end
  end.

(** [ORDER BY created_at DESC], timestamps compared as text.  Rows with the
    same timestamp keep their table order here; SQLite leaves their order
    open, and nothing below depends on it. *)
Fixpoint insert_desc (x : Interaction.row) (rows : list Interaction.row) : list Interaction.row :=
  match rows with
  | [] => [x]
  | y :: rest =>
      if String.leb (Interaction.created_at y) (Interaction.created_at x)
      then x :: y :: rest
      else y :: insert_desc x rest
  end.

Definition order_by_created_at_desc (rows : list Interaction.row) : list Interaction.row :=
  fold_right insert_desc [] rows.

Definition select_history (r : Interaction.row) : History.row :=
  History.mk (Interaction.id r) (Interaction.channel r) (Interaction.notes r)
             (Interaction.created_at r).

(** The rows of the SELECT of [customer_history], for an id it could bind. *)
Definition history_rows (db : store) (customer_id : Z) : list History.row :=
  map select_history
      (order_by_created_at_desc
         (filter (fun r => Interaction.customer_id r =? customer_id) (interactions db))).

Definition customer_history (db : store) (customer_id : Z) : result (list History.row) :=
  match bind (VInt customer_id) with
  | Raise e => Raise e
  | Return _ => Return (history_rows db customer_id)
  end.

(** Newest first: no row is followed by one with a later timestamp. *)
Definition later_or_same (a b : Interaction.row) : Prop :=
  String.leb (Interaction.created_at b) (Interaction.created_at a) = true.

Definition newest_first (a b : History.row) : Prop :=
  String.leb (History.created_at b) (History.created_at a) = true.

(** Modelled from the spec: the FOREIGN KEY declarations of the schema,
    enforced under [PRAGMA foreign_keys = ON]: every interaction and every
    ticket references a customer of the table. *)
Definition foreign_keys_hold (db : store) : bool :=
  forallb (fun i => has_customer db (Interaction.customer_id i)) (interactions db)
  && forallb (fun t => has_customer db (Ticket.customer_id t)) (tickets db).

(** What SQLite gives the key column of customers: an INTEGER PRIMARY KEY
    is the rowid, a signed 64-bit integer. *)
Definition rowids_in_range (db : store) : bool :=
  forallb (fun r => in_int64 (Customer.id r)) (customers db).

(** Backwards-compatible aliases. *)
Definition fetch_customer := get_customer.
Definition fetch_customers {rt : Runtime} := list_customers.
Definition update_customer_record {rt : Runtime} := modify_customer.
Definition create_ticket_record := new_ticket.
Definition fetch_history := customer_history.

End Database.

(* ------------------------------------------------------------------ *)
(** ** mcp_server/app.py *)

Module App.
Import Py Database.

(** An entry of the SSE queue: a [Dict[str, Any]]. *)
Definition event : Type := list (string * value).

Record ToolInvocation : Type := mk_invocation
  { name : string; arguments : list (string * value) }.

(** *** Tool metadata *)

Record property : Type := mk_property
  { prop_name : string; prop_type : string; prop_default : option value }.

Record tool : Type := mk_tool
  { tool_name : string;
    description : string;
    properties : list property;
    required : list string }.

Definition TOOL_REGISTRY : list tool :=
  [ mk_tool "get_customer" "Retrieve a single customer using its ID."
      [mk_property "customer_id" "integer" None]
      ["customer_id"];
    mk_tool "list_customers" "Return a list of customers, optionally filtered by status."
      [mk_property "status" "string" None; mk_property "limit" "integer" (Some (VInt 20))]
      [];
    mk_tool "update_customer" "Modify customer fields such as name, email, or status."
      [mk_property "customer_id" "integer" None; mk_property "data" "object" None]
      ["customer_id"; "data"];
    mk_tool "create_ticket" "Open a new support ticket for a customer."
      [mk_property "customer_id" "integer" None; mk_property "issue" "string" None;
       mk_property "priority" "string" None]
      ["customer_id"; "issue"; "priority"];
    mk_tool "get_customer_history" "Retrieve the interaction history for a customer."
      [mk_property "customer_id" "integer" None]
      ["customer_id"] ].

Definition list_tools : list tool := TOOL_REGISTRY.

Definition lookup_tool (n : string) : option tool :=
  find (fun t => String.eqb (tool_name t) n) TOOL_REGISTRY.

Definition registered (n : string) : bool :=
  match lookup_tool n with Some _ => true | None => false end.

(** *** Server state *)

(** The database file, the module-level [event_queue], what each open
    [/events/stream] response has sent so far, and the number of storage
    calls handed to [asyncio.to_thread]. *)
Record world : Type := mk_world
  { db : store;
    event_queue : list event;
    streams : list (list value);
    storage_calls : nat }.

(** A handler: it runs on the server state and returns or raises. *)
Definition M (A : Type) : Type := world -> result A * world.

Definition ret {A : Type} (a : A) : M A := fun w => (Return a, w).

Definition raise {A : Type} (e : exn) : M A := fun w => (Raise e, w).

Definition bind {A B : Type} (m : M A) (k : A -> M B) : M B :=
  fun w =>
    match m w with
    | (Return a, w') => k a w'
    | (Raise e, w') => (Raise e, w')
    end.

Notation "x <- m ;; k" := (bind m (fun x => k))
  (at level 61, m at next level, right associativity).
Notation "m ;;; k" := (bind m (fun _ => k))
  (at level 61, right associativity).

(** A pure computation that may raise. *)
Definition lift {A : Type} (r : result A) : M A := fun w => (r, w).

(** [await asyncio.to_thread(f, ...)] for a storage function [f]. *)
Definition to_thread {A : Type} (f : store -> result A * store) : M A :=
  fun w =>
    let '(r, db') := f (db w) in
    (r, mk_world db' (event_queue w) (streams w) (S (storage_calls w))).

(** [await event_queue.put(payload)] on the unbounded queue. *)
Definition enqueue_event (payload : event) : M unit :=
  fun w =>
    (Return tt, mk_world (db w) (event_queue w ++ [payload]) (streams w) (storage_calls w)).

Definition http_not_found {A : Type} (message : string) : M A :=
  raise (HTTPException 404 message).

(** *** /tools/call *)

(** The value under the key [result] of the response body. *)
Inductive payload : Type :=
| OneCustomer (r : Customer.row)
| Customers (l : list Customer.row)
| OneTicket (r : Ticket.row)
| HistoryRows (l : list History.row).

Definition len {A : Type} (l : list A) : value := VInt (Z.of_nat (List.length l)).

Section WithRuntime.
Context {rt : Runtime}.

Definition call_tool (now : string) (request : ToolInvocation) : M payload :=
  let tool := name request in
  let args := arguments request in
  if String.eqb tool "get_customer" then
    customer_id <- lift (int (get args "customer_id")) ;;
    customer <- to_thread (fun d => (fetch_customer d customer_id, d)) ;;
    match customer with
    | None => http_not_found "Customer does not exist"
    | Some customer =>
        enqueue_event [("type", VStr "audit"); ("tool", VStr tool);
                       ("customer_id", VInt (Customer.id customer))] ;;;
        ret (OneCustomer customer)
    end
  else if String.eqb tool "list_customers" then
    let status := get args "status" in
    limit <- lift (int (get_default args "limit" (VInt 20))) ;;
    records <- to_thread (fun d => (fetch_customers d status limit, d)) ;;
    enqueue_event [("type", VStr "audit"); ("tool", VStr tool);
                   ("count", len records)] ;;;
    ret (Customers records)
  else if String.eqb tool "update_customer" then
    cid <- lift (int (get args "customer_id")) ;;
    let patch := or_else (get args "data") (VDict []) in
    updated <- to_thread (fun d => update_customer_record d cid patch) ;;
    match updated with
    | None => http_not_found "Customer not found for update"
    | Some updated =>
        enqueue_event [("type", VStr "update"); ("tool", VStr tool);
                       ("customer_id", VInt (Customer.id updated))] ;;;
        ret (OneCustomer updated)
    end
  else if String.eqb tool "create_ticket" then
    cid <- lift (int (get args "customer_id")) ;;
    let issue := str (get args "issue") in
    let priority := str (get args "priority") in
    ticket <- to_thread (fun d => create_ticket_record d now cid issue priority) ;;
    enqueue_event [("type", VStr "ticket"); ("tool", VStr tool);
                   ("ticket_id", VInt (Ticket.id ticket))] ;;;
    ret (OneTicket ticket)
  else if String.eqb tool "get_customer_history" then
    cid <- lift (int (get args "customer_id")) ;;
    history <- to_thread (fun d => (fetch_history d cid, d)) ;;
    enqueue_event [("type", VStr "history"); ("tool", VStr tool);
                   ("count", len history)] ;;;
    ret (HistoryRows history)
  else
    http_not_found ("Unknown tool: " ++ tool).

(** The status line FastAPI answers with: 200 for a returned body, the
    status of an [HTTPException], 500 for any other exception. *)
Definition status_code_of {A : Type} (r : result A) : Z :=
  match r with
  | Return _ => 200
  | Raise (HTTPException code _) => code
  | Raise _ => 500
  end.

(** *** /events/stream *)

(** What the generator yields for a dequeued event. *)
Definition frame (e : event) : value :=
  VDict [("event", VStr "update"); ("data", VDict e)].

Fixpoint send_on {A : Type} (i : nat) (x : A) (l : list (list A)) : list (list A) :=
  match l, i with
  | [], _ => []
  | s :: rest, O => (s ++ [x])%list :: rest
  | s :: rest, S j => s :: send_on j x rest
  end.

(** What the server does, one step at a time:
    - [Call now request] : a POST to /tools/call runs [call_tool];
    - [Subscribe] : a GET to /events/stream starts a new generator;
    - [Next i] : the generator of stream [i] comes back from
      [await event_queue.get()] with the head of the queue and yields it. *)
Inductive action : Type :=
| Call (now : string) (request : ToolInvocation)
| Subscribe
| Next (i : nat).

Definition step (a : action) (w : world) : option world :=
  match a with
  | Call now request => Some (snd (call_tool now request w))
  | Subscribe =>
      Some (mk_world (db w) (event_queue w) (streams w ++ [[]]) (storage_calls w))
  | Next i =>
      match event_queue w with
      | [] => None                              (* [get()] stays suspended *)
      | e :: q =>
          if (i <? List.length (streams w))%nat
          then Some (mk_world (db w) q (send_on i (frame e) (streams w)) (storage_calls w))
          else None
      end
  end.

Fixpoint run (acts : list action) (w : world) : option world :=
  match acts with
  | [] => Some w
  | a :: rest =>
      match step a w with
      | Some w' => run rest w'
      | None => None
      end
  end.

(** The frames stream [i] has sent. *)
Definition received (i : nat) (w : world) : list value := nth i (streams w) [].

(** The number of frames sent on all streams together. *)
Definition total_sent (w : world) : nat :=
  fold_right (fun s n => (List.length s + n)%nat) 0%nat (streams w).

Definition succeeds (a : action) (w : world) : bool :=
  match a with
  | Call now request =>
      match fst (call_tool now request w) with
      | Return _ => true
      | Raise _ => false
      end
  | _ => false
  end.

(** The events a step puts on the queue. *)
Definition enqueued_by (a : action) (w : world) : list event :=
  match a with
  | Call now request =>
      skipn (List.length (event_queue w)) (event_queue (snd (call_tool now request w)))
  | _ => []
  end.

(** The number of invocations of a run that return. *)
Fixpoint successes (acts : list action) (w : world) : nat :=
  match acts with
  | [] => 0%nat
  | a :: rest =>
      match step a w with
      | Some w' => ((if succeeds a w then 1 else 0) + successes rest w')%nat
      | None => 0%nat
      end
  end.

(** The events a run publishes, in publish order. *)
Fixpoint published (acts : list action) (w : world) : list event :=
  match acts with
  | [] => []
  | a :: rest =>
      match step a w with
      | Some w' => (enqueued_by a w ++ published rest w')%list
      | None => []
      end
  end.

End WithRuntime.

(** [l1] is [l2] with some elements left out, the order kept. *)
Inductive subseq {A : Type} : list A -> list A -> Prop :=
| subseq_nil : subseq [] []
| subseq_skip (x : A) (l1 l2 : list A) : subseq l1 l2 -> subseq l1 (x :: l2)
| subseq_take (x : A) (l1 l2 : list A) : subseq l1 l2 -> subseq (x :: l1) (x :: l2).

End App.

(* ------------------------------------------------------------------ *)
(** ** common/db.py : the sample rows *)

Module Seed.
Import Database.

Definition _SEED_CUSTOMERS : list (string * string * string) :=
  [ ("Ana Customer", "ana@example.com", "active");
    ("Brian Blocked", "brian@example.com", "delinquent");
    ("Cara Care", "cara@example.com", "vip") ].

Definition _SEED_INTERACTIONS : list (Z * string * string) :=
  [ (1, "email", "Welcome email sent");
    (1, "phone", "User reported login issue");
    (2, "chat", "Billing dispute initiated");
    (3, "email", "Requested feature roadmap") ].

Fixpoint insert_customers (next : Z) (now : string) (l : list (string * string * string))
  : list Customer.row :=
  match l with
  | [] => []
  | (n, e, s) :: rest => Customer.mk next n e s now :: insert_customers (next + 1) now rest
  end.

Fixpoint insert_interactions (next : Z) (now : string) (l : list (Z * string * string))
  : list Interaction.row :=
  match l with
  | [] => []
  | (c, ch, n) :: rest => Interaction.mk next c ch n now :: insert_interactions (next + 1) now rest
  end.

(** The tables after the two [executemany] statements of
    [initialize_database] on empty tables, at time [now].  This is a store to
    run examples on, not the outcome of [initialize_database]: that function
    raises AttributeError before it inserts a row, an aiosqlite connection
    having no method [execute_fetchone]. *)
Definition sample_store (now : string) : store :=
  mk_store (insert_customers 1 now _SEED_CUSTOMERS) [] 0
           (insert_interactions 1 now _SEED_INTERACTIONS).

End Seed.

(* ------------------------------------------------------------------ *)
(** ** sdk/types.py : messages and tasks *)

Module Types.

Inductive Role : Type := user | agent.

Record TextPart : Type := mk_part { text : string }.

Module Message.
Record t : Type := mk
  { messageId : string;
    role : Role;
    parts : list TextPart;
    taskId : option string;
    contextId : option string }.
End Message.

Inductive TaskState : Type := running | completed | canceled.

Record TaskStatus : Type := mk_status
  { state : TaskState; message : option Message.t }.

Module Task.
Record t : Type := mk
  { id : string;
    contextId : string;
    history : list Message.t;
    status : TaskStatus }.
End Task.

Module TaskStatusUpdateEvent.
Record t : Type := mk
  { taskId : string;
    contextId : string;
    status : TaskStatus;
    final : bool }.
End TaskStatusUpdateEvent.

Definition Event : Type := TaskStatusUpdateEvent.t.

(** Modelled from the spec: which states are terminal.  The sources declare
    the three states and no function over them. *)
Definition terminal (s : TaskState) : bool :=
  match s with
  | running => false
  | completed => true
  | canceled => true
  end.

(** Modelled from the spec: the transition of a task and the status-update
    event pushed for it.  The caller that drives tasks is not among the
    sources, which only declare the shapes above.  A task in a terminal state
    takes no further status; otherwise the task takes the new status and the
    event carries it, flagged final exactly when the new state is terminal. *)
Definition apply (task : Task.t) (new_status : TaskStatus)
  : option (Task.t * TaskStatusUpdateEvent.t) :=
  if terminal (state (Task.status task)) then None
  else
    Some (Task.mk (Task.id task) (Task.contextId task) (Task.history task) new_status,
          TaskStatusUpdateEvent.mk (Task.id task) (Task.contextId task) new_status
                                   (terminal (state new_status))).

(** Modelled from the spec: a task driven through a sequence of statuses,
    with the events pushed on the way; None when a status arrives after a
    terminal one. *)
Fixpoint drive (task : Task.t) (statuses : list TaskStatus)
  : option (Task.t * list TaskStatusUpdateEvent.t) :=
  match statuses with
  | [] => Some (task, [])
  | s :: rest =>
      match apply task s with
      | None => None
      | Some (task', e) =>
          match drive task' rest with
          | None => None
          | Some (task'', es) => Some (task'', e :: es)
          end
      end
  end.

End Types.

(* ------------------------------------------------------------------ *)
(** ** agents/support/main.py : the text helpers of the support agent *)

Module Support.

(** *** The string methods the helpers use *)

Definition of_list (l : list ascii) : string := string_of_list_ascii l.
Definition to_list (s : string) : list ascii := list_ascii_of_string s.

(** The ASCII characters [str.isspace] holds of: tab to carriage return,
    the four separators 28 to 31, and the space. *)
Definition is_space (c : ascii) : bool :=
  let n := nat_of_ascii c in
  ((9 <=? n) && (n <=? 13) || (28 <=? n) && (n <=? 32))%nat.

Fixpoint lstrip (l : list ascii) : list ascii :=
  match l with
  | c :: l' => if is_space c then lstrip l' else l
  | [] => []
  end.

(** [s.strip()] for an ASCII str. *)
Definition ascii_strip (s : string) : string :=
  of_list (rev (lstrip (rev (lstrip (to_list s))))).

(** [c.lower()] for an ASCII character: the letters A to Z change. *)
Definition lower_char (c : ascii) : ascii :=
  let n := nat_of_ascii c in
  if ((65 <=? n) && (n <=? 90))%nat then ascii_of_nat (n + 32) else c.

(** [s.lower()] for an ASCII str. *)
Fixpoint ascii_lower (s : string) : string :=
  match s with
  | EmptyString => EmptyString
  | String c s' => String (lower_char c) (ascii_lower s')
  end.

Fixpoint startswith (p s : string) : bool :=
  match p, s with
  | EmptyString, _ => true
  | String a p', String b s' => Ascii.eqb a b && startswith p' s'
  | String _ _, EmptyString => false
  end.

Fixpoint drop (n : nat) (s : string) : string :=
  match n, s with
  | O, _ => s
  | S n', String _ s' => drop n' s'
  | S _, EmptyString => EmptyString
  end.

(** [sub in s], for an ASCII [sub]: in UTF-8 an ASCII text occurs in [s]
    as characters exactly where it occurs as bytes. *)
Fixpoint contains (sub s : string) : bool :=
  startswith sub s ||
  match s with
  | EmptyString => false
  | String _ s' => contains sub s'
  end.

(** [s.split(sep, 1)] for an ASCII separator that is not empty: the text alone when
    the separator does not occur, else what precedes and what follows its
    first occurrence. *)
Fixpoint split1 (sep s : string) : list string :=
  if startswith sep s then [EmptyString; drop (String.length sep) s]
  else
    match s with
    | EmptyString => [EmptyString]
    | String c s' =>
        match split1 sep s' with
        | a :: rest => String c a :: rest
        | [] => []
        end
    end.

(** [any(k in text for k in keywords)] *)
Definition any_in (keywords : list string) (text : string) : bool :=
  existsb (fun k => contains k text) keywords.

Definition nonempty (s : string) : bool := negb (String.eqb s "").

Section WithRuntime.
Context {rt : Py.Runtime}.

(** [s.strip()] *)
Definition strip (s : string) : string :=
  if Py.is_ascii s then ascii_strip s else Py.strip_unicode s.

(** [s.lower()] *)
Definition lower (s : string) : string :=
  if Py.is_ascii s then ascii_lower s else Py.lower_unicode s.

(** *** The helpers *)

(** The context and the request; None stands for the IndexError of
    [parts[0]] or [parts[1]]. *)
Definition parse_support_prompt (text : string) : option (string * string) :=
  if contains "Data context:" text then
    let parts := split1 "Data context:" text in
    match nth_error parts 0, nth_error parts 1 with
    | Some p0, Some p1 =>
        let lead := strip p0 in
        let context := strip p1 in
        let request := if nonempty lead then lead else "your request" in
        Some (context, request)
    | _, _ => None
    end
  else
    let cleaned := strip text in
    Some ("", if nonempty cleaned then cleaned else "your request").

Definition generate_suggestions (user_prompt : string) : list string :=
  let lower := lower user_prompt in
  let out :=
    if any_in ["login"; "password"] lower then
      ["Try resetting your password and confirm you can sign in from a trusted browser.";
       "If it still fails, share the exact error message so we can diagnose quickly."]
    else if any_in ["ticket"; "issue"; "problem"] lower then
      ["I can open a support ticket and notify you as soon as there's progress.";
       "Screenshots or timestamps would help us troubleshoot faster."]
    else if any_in ["history"; "follow"; "activity"] lower then
      ["I've reviewed your recent activity and will keep an eye on any new updates.";
       "If something changes on your side, let me know and we can adjust next steps."]
    else
      ["Tell me any specific details you'd like us to verify or double-check.";
       "We can also set up a short follow-up if you need more help."] in
  (out ++ ["If this is urgent, reply here and I’ll jump on it immediately."])%list.

End WithRuntime.

End Support.

(* ------------------------------------------------------------------ *)
(** ** Decimal text *)

(** The characters [str()] writes for the digits of a number. *)
Definition uint_chars (d : Decimal.uint) : list ascii :=
  list_ascii_of_string (NilEmpty.string_of_uint d).

(* ------------------------------------------------------------------ *)
(** ** The vocabulary of the specification *)

Module Spec.

(** The four kinds of event the specification names.  In the sources the
    kind is the string under the key [type] of the queued dict; [tag] gives
    the string that stands for each kind there. *)
Inductive kind : Type := audit | update | ticket_created | history_read.

Definition tag (k : kind) : string :=
  match k with
  | audit => "audit"
  | update => "update"
  | ticket_created => "ticket"
  | history_read => "history"
  end.

(** The kind the specification gives to each tool: audit for the two reads
    of customers, and a kind of its own for the update, the ticket creation
    and the history read. *)
Definition kind_of_tool (n : string) : option kind :=
  if String.eqb n "get_customer" then Some audit
  else if String.eqb n "list_customers" then Some audit
  else if String.eqb n "update_customer" then Some update
  else if String.eqb n "create_ticket" then Some ticket_created
  else if String.eqb n "get_customer_history" then Some history_read
  else None.

(** A field of the customer record after an update with the object [data]:
    the value supplied under [col], as the column stores it, when [data]
    has the key; the old content otherwise. *)
Definition applied {rt : Py.Runtime} (data : list (string * Py.value)) (col : string)
    (old new : string) : Prop :=
  match Py.dict_find col data with
  | Some v => exists x, Sqlite.bind v = Py.Return x /\ Sqlite.store_text x = Py.Return new
  | None => new = old
  end.

End Spec.


(* ================================================================== *)
(** * Properties *)

Import Py Sqlite Database App.

(** ** Running a handler *)

Ltac handler_steps :=
  unfold App.bind, App.lift, App.to_thread, App.enqueue_event, App.ret,
         App.http_not_found, App.raise; simpl.

(** The five names the dispatcher compares with are the registered ones. *)
Lemma registered_iff (n : string) :
  registered n = true <->
  n = "get_customer" \/ n = "list_customers" \/ n = "update_customer" \/
  n = "create_ticket" \/ n = "get_customer_history".
Proof.
  unfold registered, lookup_tool, TOOL_REGISTRY, find, tool_name.
  split.
  - repeat match goal with
           | |- context [String.eqb ?a n] =>
               destruct (String.eqb_spec a n); [subst; tauto |]
           end.
    intros H; discriminate H.
  - intros [H | [H | [H | [H | H]]]]; subst; reflexivity.
Qed.

Lemma unregistered_names (n : string) :
  registered n = false ->
  String.eqb n "get_customer" = false /\ String.eqb n "list_customers" = false /\
  String.eqb n "update_customer" = false /\ String.eqb n "create_ticket" = false /\
  String.eqb n "get_customer_history" = false.
Proof.
  intros H.
  repeat split; apply String.eqb_neq; intros ->; discriminate H.
Qed.

(** Every handler leaves the open streams alone and makes at most one
    storage call. *)
Lemma call_tool_frame {rt : Runtime} (now : string) (request : ToolInvocation) (w : world) :
  streams (snd (call_tool now request w)) = streams w /\
  (storage_calls (snd (call_tool now request w)) <= S (storage_calls w))%nat.
Proof.
  destruct request as [tool args]; unfold call_tool; simpl.
  repeat match goal with
         | |- context [String.eqb tool ?s] => destruct (String.eqb tool s)
         end; handler_steps;
    try (destruct (int _) as [cid | e]; simpl; [| split; [reflexivity | lia]]).
  - destruct (fetch_customer (db w) cid) as [[c |] | e]; simpl;
      split; solve [reflexivity | lia].
  - destruct (fetch_customers (db w) _ cid); simpl; split; solve [reflexivity | lia].
  - destruct (update_customer_record (db w) cid _) as [[[c |] | e] d']; simpl;
      split; solve [reflexivity | lia].
  - destruct (create_ticket_record (db w) now cid _ _) as [[t | e] d']; simpl;
      split; solve [reflexivity | lia].
  - destruct (fetch_history (db w) cid); simpl; split; solve [reflexivity | lia].
  - split; solve [reflexivity | lia].
Qed.

(** ** The dispatcher and the event queue *)

(** What a handler does to the queue. *)
Lemma call_tool_queue {rt : Runtime} (now : string) (request : ToolInvocation) (w : world) :
  match fst (call_tool now request w) with
  | Return _ =>
      exists e : event,
        event_queue (snd (call_tool now request w)) = (event_queue w ++ [e])%list
  | Raise _ =>
      event_queue (snd (call_tool now request w)) = event_queue w
  end.
Proof.
  destruct request as [tool args]; unfold call_tool; simpl.
  repeat match goal with
         | |- context [String.eqb tool ?s] => destruct (String.eqb tool s)
         end; handler_steps;
    try (destruct (int _) as [cid | e]; simpl; [| reflexivity]).
  - destruct (fetch_customer (db w) cid) as [[c |] | e]; simpl; [eexists | |]; reflexivity.
  - destruct (fetch_customers (db w) _ cid); simpl; [eexists |]; reflexivity.
  - destruct (update_customer_record (db w) cid _) as [[[c |] | e] d']; simpl;
      [eexists | |]; reflexivity.
  - destruct (create_ticket_record (db w) now cid _ _) as [[t | e] d']; simpl;
      [eexists |]; reflexivity.
  - destruct (fetch_history (db w) cid); simpl; [eexists |]; reflexivity.
  - reflexivity.
Qed.

(** C1: an invocation that returns has put exactly one event at the back of
    the queue by the time its result exists, and an invocation that raises,
    whatever the exception (unknown tool, failed coercion, missing customer,
    storage error), leaves the queue as it was.  Nothing is sent on a stream
    by the invocation itself. *)
Theorem call_tool_one_event_iff_success {rt : Runtime}
    (now : string) (request : ToolInvocation) (w : world) :
  match fst (call_tool now request w) with
  | Return _ =>
      exists e : event,
        event_queue (snd (call_tool now request w)) = (event_queue w ++ [e])%list /\
        streams (snd (call_tool now request w)) = streams w
  | Raise _ =>
      event_queue (snd (call_tool now request w)) = event_queue w /\
      streams (snd (call_tool now request w)) = streams w
  end.
Proof.
  pose proof (call_tool_queue now request w) as H.
  pose proof (proj1 (call_tool_frame now request w)) as Hs.
  destruct (fst (call_tool now request w)) as [r | e].
  - destruct H as [ev H]. exists ev. split; assumption.
  - split; assumption.
Qed.

(** C7: a name that is not registered raises the 404 of [http_not_found]
    with the unknown-tool message; nothing was tried before and nothing is
    tried again, the server state is the one the request found. *)
Theorem unknown_tool_is_not_found {rt : Runtime}
    (now : string) (request : ToolInvocation) (w : world) :
  registered (name request) = false ->
  call_tool now request w
    = (Raise (HTTPException 404 ("Unknown tool: " ++ name request)), w) /\
  status_code_of (fst (call_tool now request w)) = 404.
Proof.
  intros H. apply unregistered_names in H.
  destruct H as (H1 & H2 & H3 & H4 & H5).
  assert (E : call_tool now request w
              = (Raise (HTTPException 404 ("Unknown tool: " ++ name request)), w)).
  { unfold call_tool. rewrite H1, H2, H3, H4, H5. reflexivity. }
  split; [exact E | rewrite E; reflexivity].
Qed.

Lemma unknown_tool_is_not_found_witness :
  call_tool (rt := ascii_only) "2024-05-01 10:00:00"
            (mk_invocation "delete_customer" [("customer_id", VInt 1)])
            (mk_world (Seed.sample_store "2024-01-01 00:00:00") [] [] 0)
  = (Raise (HTTPException 404 "Unknown tool: delete_customer"),
     mk_world (Seed.sample_store "2024-01-01 00:00:00") [] [] 0).
Proof.
  exact (proj1 (unknown_tool_is_not_found (rt := ascii_only) "2024-05-01 10:00:00"
                  (mk_invocation "delete_customer" [("customer_id", VInt 1)])
                  (mk_world (Seed.sample_store "2024-01-01 00:00:00") [] [] 0)
                  eq_refl)).
Defined.

(** C8: the event an invocation publishes carries, under [type], the tag of
    one of the four kinds (audit, update, ticket, history), and which one
    is fixed by the tool alone: audit for get_customer and list_customers,
    update for update_customer, the ticket kind for create_ticket and the
    history kind for get_customer_history.  The event also names the tool. *)
Theorem event_kind_determined_by_tool {rt : Runtime}
    (now : string) (request : ToolInvocation) (w : world) :
  match fst (call_tool now request w) with
  | Return _ =>
      exists (e : event) (k : Spec.kind),
        event_queue (snd (call_tool now request w)) = (event_queue w ++ [e])%list /\
        Spec.kind_of_tool (name request) = Some k /\
        dict_find "type" e = Some (VStr (Spec.tag k)) /\
        dict_find "tool" e = Some (VStr (name request)) /\
        In (Spec.tag k) ["audit"; "update"; "ticket"; "history"]
  | Raise _ => True
  end.
Proof.
  destruct request as [tool args]; unfold call_tool, Spec.kind_of_tool; simpl.
  repeat match goal with
         | |- context [String.eqb tool ?s] => destruct (String.eqb tool s)
         end; handler_steps;
    try (destruct (int _) as [cid | e]; simpl; [| exact I]).
  - destruct (fetch_customer (db w) cid) as [[c |] | e]; simpl; try exact I.
    eexists; exists Spec.audit; simpl; intuition.
  - destruct (fetch_customers (db w) _ cid); simpl; [| exact I].
    eexists; exists Spec.audit; simpl; intuition.
  - destruct (update_customer_record (db w) cid _) as [[[c |] | e] d']; simpl;
      try exact I.
    eexists; exists Spec.update; simpl; intuition.
  - destruct (create_ticket_record (db w) now cid _ _) as [[t | e] d']; simpl;
      [| exact I].
    eexists; exists Spec.ticket_created; simpl; intuition.
  - destruct (fetch_history (db w) cid); simpl; [| exact I].
    eexists; exists Spec.history_read; simpl; intuition.
  - exact I.
Qed.

(** ** Tickets *)

Lemma max_id_bound (rows : list Ticket.row) (r : Ticket.row) :
  In r rows -> Ticket.id r <= max_id rows.
Proof.
  induction rows as [| x rows IH]; [intros [] |].
  change (max_id (x :: rows)) with (Z.max (Ticket.id x) (max_id rows)).
  intros [-> | H]; [clear IH | specialize (IH H)]; lia.
Qed.

Lemma find_inserted (rows : list Ticket.row) (x : Ticket.row) :
  (forall r, In r rows -> Ticket.id r <> Ticket.id x) ->
  find (fun r => Ticket.id r =? Ticket.id x) (rows ++ [x]) = Some x.
Proof.
  induction rows as [| y rows IH]; simpl; intros H.
  - now rewrite Z.eqb_refl.
  - destruct (Z.eqb_spec (Ticket.id y) (Ticket.id x)) as [E | _].
    + exfalso. apply (H y); auto.
    + apply IH. intros r Hr. apply H. now right.
Qed.

(** Binding an int: the 64-bit range decides. *)
Lemma bind_int (z : Z) :
  Sqlite.bind (VInt z) = if in_int64 z then Return (Integer z) else Raise OverflowError.
Proof. reflexivity. Qed.

Lemma bind_int_in_range (z : Z) :
  in_int64 z = true -> Sqlite.bind (VInt z) = Return (Integer z).
Proof. intros H. now rewrite bind_int, H. Qed.

Lemma bind_int_out_of_range (z : Z) :
  in_int64 z = false -> Sqlite.bind (VInt z) = Raise OverflowError.
Proof. intros H. now rewrite bind_int, H. Qed.

(** An id SQLite cannot hold makes every storage function raise
    OverflowError before anything is read or written. *)
Lemma new_ticket_out_of_range (d : store) (now : string) (cid : Z) (issue priority : string) :
  in_int64 cid = false ->
  new_ticket d now cid issue priority = (Raise OverflowError, d).
Proof.
  intros H. unfold new_ticket. now rewrite (bind_int_out_of_range _ H).
Qed.

(** A table whose counter has reached the largest rowid takes no ticket. *)
Lemma new_ticket_full (d : store) (now : string) (cid : Z) (issue priority : string) :
  in_int64 cid = true ->
  max_rowid <= Z.max (tickets_seq d) (max_id (tickets d)) ->
  new_ticket d now cid issue priority = (Raise (Sqlite3Error DatabaseFull), d).
Proof.
  intros Hr Hlast. unfold new_ticket. rewrite (bind_int_in_range _ Hr). cbv zeta.
  now rewrite (proj2 (Z.leb_le _ _) Hlast).
Qed.

(** The INSERT of [new_ticket] followed by its SELECT: the row read back is
    the row written, under an id no earlier ticket has. *)
Lemma new_ticket_returns (d : store) (now : string) (cid : Z) (issue priority : string) :
  in_int64 cid = true ->
  Z.max (tickets_seq d) (max_id (tickets d)) < max_rowid ->
  existsb (fun r => Customer.id r =? cid) (customers d) = true ->
  let t := Ticket.mk (1 + Z.max (tickets_seq d) (max_id (tickets d)))
                     cid issue priority "open" now in
  new_ticket d now cid issue priority
    = (Return t, mk_store (customers d) (tickets d ++ [t]) (Ticket.id t) (interactions d)) /\
  ~ In (Ticket.id t) (map Ticket.id (tickets d)).
Proof.
  intros Hr Hlast Hc t.
  assert (Hfresh : forall r, In r (tickets d) -> Ticket.id r <> Ticket.id t).
  { intros r Hr'. apply max_id_bound in Hr'. subst t; cbn [Ticket.id]. lia. }
  split.
  - unfold new_ticket. rewrite (bind_int_in_range _ Hr). cbv zeta.
    rewrite (proj2 (Z.leb_gt _ _) Hlast), Hc. cbn [negb tickets].
    change (Ticket.mk (1 + Z.max (tickets_seq d) (max_id (tickets d)))
                      cid issue priority "open" now) with t.
    change (1 + Z.max (tickets_seq d) (max_id (tickets d))) with (Ticket.id t).
    now rewrite (find_inserted _ _ Hfresh).
  - rewrite in_map_iff. intros (r & E & Hr'). exact (Hfresh r Hr' E).
Qed.

(** A ticket for an id that has no customer row is refused by the foreign
    key. *)
Lemma new_ticket_no_customer (d : store) (now : string) (cid : Z) (issue priority : string) :
  in_int64 cid = true ->
  Z.max (tickets_seq d) (max_id (tickets d)) < max_rowid ->
  existsb (fun r => Customer.id r =? cid) (customers d) = false ->
  new_ticket d now cid issue priority = (Raise (Sqlite3Error ConstraintFailed), d).
Proof.
  intros Hr Hlast Hc. unfold new_ticket. rewrite (bind_int_in_range _ Hr). cbv zeta.
  now rewrite (proj2 (Z.leb_gt _ _) Hlast), Hc.
Qed.

Lemma dict_find_other (k k' : string) (v : value) (d : list (string * value)) :
  k <> k' -> dict_find k ((k', v) :: d) = dict_find k d.
Proof.
  intros H. simpl. now rewrite (proj2 (String.eqb_neq k k') H).
Qed.

(** C5: a create_ticket invocation that returns yields a ticket whose status
    is open, whatever the arguments held (a status argument included, which
    changes nothing); the ticket is the row the storage created: it is the
    one row added to the table, under an id the storage assigned and no
    earlier ticket has, with the timestamp of the insertion and the coerced
    customer id, issue and priority. *)
Theorem create_ticket_returns_open_row {rt : Runtime}
    (now : string) (args : list (string * value)) (w w' : world) (r : payload) :
  call_tool now (mk_invocation "create_ticket" args) w = (Return r, w') ->
  (exists t : Ticket.row,
      r = OneTicket t /\
      Ticket.status t = "open" /\
      tickets (db w') = (tickets (db w) ++ [t])%list /\
      Ticket.id t = 1 + Z.max (tickets_seq (db w)) (max_id (tickets (db w))) /\
      ~ In (Ticket.id t) (map Ticket.id (tickets (db w))) /\
      Ticket.created_at t = now /\
      int (get args "customer_id") = Return (Ticket.customer_id t) /\
      Ticket.issue t = str (get args "issue") /\
      Ticket.priority t = str (get args "priority")) /\
  (forall v : value,
      call_tool now (mk_invocation "create_ticket" (("status", v) :: args)) w
      = call_tool now (mk_invocation "create_ticket" args) w).
Proof.
  intros H. split.
  - unfold call_tool in H; simpl in H. revert H. handler_steps.
    destruct (int (get args "customer_id")) as [cid | e]; simpl; [| discriminate].
    unfold create_ticket_record.
    destruct (in_int64 cid) eqn:Hr;
      [| rewrite (new_ticket_out_of_range _ _ _ _ _ Hr); simpl; discriminate].
    destruct (Z.le_gt_cases max_rowid
                (Z.max (tickets_seq (db w)) (max_id (tickets (db w))))) as [Hfull | Hlast];
      [rewrite (new_ticket_full _ _ _ _ _ Hr Hfull); simpl; discriminate |].
    destruct (existsb (fun r0 => Customer.id r0 =? cid) (customers (db w))) eqn:Hc.
    + destruct (new_ticket_returns (db w) now cid (str (get args "issue"))
                  (str (get args "priority")) Hr Hlast Hc) as [E Hfresh].
      rewrite E. simpl. intros [= <- <-]. simpl.
      eexists; repeat split; try reflexivity. exact Hfresh.
    + rewrite (new_ticket_no_customer _ _ _ _ _ Hr Hlast Hc). simpl. discriminate.
  - intros v. unfold call_tool, get.
    cbn [name arguments].
    rewrite !dict_find_other by discriminate. reflexivity.
Qed.

Lemma create_ticket_returns_open_row_witness :
  let now := "2024-05-01 10:00:00" in
  let w := mk_world (Seed.sample_store "2024-01-01 00:00:00") [] [] 0 in
  let args := [("customer_id", VInt 1); ("issue", VStr "billing");
               ("priority", VStr "high"); ("status", VStr "closed")] in
  let t := Ticket.mk 1 1 "billing" "high" "open" now in
  let w' := mk_world (mk_store (customers (db w)) [t] 1 (interactions (db w)))
                     [[("type", VStr "ticket"); ("tool", VStr "create_ticket");
                       ("ticket_id", VInt 1)]] [] 1 in
  call_tool (rt := ascii_only) now (mk_invocation "create_ticket" args) w
    = (Return (OneTicket t), w') /\
  exists t' : Ticket.row, OneTicket t = OneTicket t' /\ Ticket.status t' = "open".
Proof.
  intros now w args t w'.
  assert (H : call_tool (rt := ascii_only) now (mk_invocation "create_ticket" args) w
              = (Return (OneTicket t), w'))
    by reflexivity.
  split; [exact H |].
  destruct (proj1 (create_ticket_returns_open_row (rt := ascii_only)
                     now args w w' (OneTicket t) H))
    as (t' & E & Hopen & _).
  exists t'. split; assumption.
Defined.

(** ** Interaction history *)

Lemma insert_desc_perm (x : Interaction.row) (rows : list Interaction.row) :
  Permutation (insert_desc x rows) (x :: rows).
Proof.
  induction rows as [| y rows IH]; simpl; [reflexivity |].
  destruct (String.leb _ _); [reflexivity |].
  rewrite IH. apply perm_swap.
Qed.

Lemma order_by_perm (rows : list Interaction.row) :
  Permutation (order_by_created_at_desc rows) rows.
Proof.
  induction rows as [| x rows IH]; simpl; [reflexivity |].
  rewrite insert_desc_perm. now constructor.
Qed.

Lemma insert_desc_sorted (x : Interaction.row) (rows : list Interaction.row) :
  Sorted later_or_same rows -> Sorted later_or_same (insert_desc x rows).
Proof.
  induction rows as [| y rows IH]; simpl; intros Hs.
  - repeat constructor.
  - destruct (String.leb (Interaction.created_at y) (Interaction.created_at x)) eqn:E.
    + constructor; [assumption |]. constructor. exact E.
    + assert (Hyx : later_or_same y x).
      { unfold later_or_same.
        destruct (String.leb_total (Interaction.created_at x) (Interaction.created_at y))
          as [H | H]; [exact H | congruence]. }
      inversion Hs as [| ? ? Hs' Hhd]; subst.
      constructor; [apply IH; assumption |].
      destruct rows as [| z rows]; simpl.
      * constructor. exact Hyx.
      * destruct (String.leb (Interaction.created_at z) (Interaction.created_at x));
          constructor; [exact Hyx |].
        inversion Hhd; assumption.
Qed.

Lemma order_by_sorted (rows : list Interaction.row) :
  Sorted later_or_same (order_by_created_at_desc rows).
Proof.
  induction rows as [| x rows IH]; simpl; [constructor |].
  now apply insert_desc_sorted.
Qed.

Lemma select_history_sorted (rows : list Interaction.row) :
  Sorted later_or_same rows -> Sorted newest_first (map select_history rows).
Proof.
  induction 1 as [| x rows Hs IH Hhd]; simpl; constructor; [assumption |].
  destruct Hhd; simpl; constructor; assumption.
Qed.

(** The rows of the SELECT: the customer's interactions, each once, newest
    first. *)
Lemma history_rows_spec (d : store) (cid : Z) :
  Permutation (history_rows d cid)
              (map select_history
                   (filter (fun r => Interaction.customer_id r =? cid) (interactions d))) /\
  Sorted newest_first (history_rows d cid).
Proof.
  unfold history_rows. split.
  - apply Permutation_map, order_by_perm.
  - apply select_history_sorted, order_by_sorted.
Qed.

(** [customer_history] returns these rows for an id SQLite can hold, and
    raises OverflowError for any other. *)
Lemma customer_history_in_range (d : store) (cid : Z) :
  in_int64 cid = true -> customer_history d cid = Return (history_rows d cid).
Proof.
  intros H. unfold customer_history. now rewrite (bind_int_in_range _ H).
Qed.

Lemma customer_history_out_of_range (d : store) (cid : Z) :
  in_int64 cid = false -> customer_history d cid = Raise OverflowError.
Proof.
  intros H. unfold customer_history. now rewrite (bind_int_out_of_range _ H).
Qed.

(** The same for [get_customer]. *)
Lemma get_customer_in_range (d : store) (cid : Z) :
  in_int64 cid = true ->
  get_customer d cid = Return (find (fun r => Customer.id r =? cid) (customers d)).
Proof.
  intros H. unfold get_customer. now rewrite (bind_int_in_range _ H).
Qed.

Lemma get_customer_out_of_range (d : store) (cid : Z) :
  in_int64 cid = false -> get_customer d cid = Raise OverflowError.
Proof.
  intros H. unfold get_customer. now rewrite (bind_int_out_of_range _ H).
Qed.

(** A lookup that returns, with a row or without, was for an id SQLite can
    hold. *)
Lemma get_customer_returns (d : store) (cid : Z) (r : option Customer.row) :
  get_customer d cid = Return r ->
  in_int64 cid = true /\ r = find (fun x => Customer.id x =? cid) (customers d).
Proof.
  unfold get_customer. rewrite bind_int.
  destruct (in_int64 cid); [| discriminate].
  intros [= <-]. split; reflexivity.
Qed.

Lemma get_customer_raises (d : store) (cid : Z) (e : exn) :
  get_customer d cid = Raise e -> in_int64 cid = false /\ e = OverflowError.
Proof.
  unfold get_customer. rewrite bind_int.
  destruct (in_int64 cid); [discriminate |].
  intros [= <-]. split; reflexivity.
Qed.

Lemma get_history_runs {rt : Runtime}
    (now : string) (args : list (string * value)) (w : world) (cid : Z) :
  int (get args "customer_id") = Return cid ->
  in_int64 cid = true ->
  call_tool now (mk_invocation "get_customer_history" args) w
  = (Return (HistoryRows (history_rows (db w) cid)),
     mk_world (db w)
              (event_queue w ++
                 [[("type", VStr "history"); ("tool", VStr "get_customer_history");
                   ("count", len (history_rows (db w) cid))]])
              (streams w) (S (storage_calls w))).
Proof.
  intros H Hr. unfold call_tool; simpl. handler_steps. rewrite H. simpl.
  unfold fetch_history. rewrite (customer_history_in_range _ _ Hr). reflexivity.
Qed.

Lemma get_history_out_of_range {rt : Runtime}
    (now : string) (args : list (string * value)) (w : world) (cid : Z) :
  int (get args "customer_id") = Return cid ->
  in_int64 cid = false ->
  call_tool now (mk_invocation "get_customer_history" args) w
  = (Raise OverflowError,
     mk_world (db w) (event_queue w) (streams w) (S (storage_calls w))).
Proof.
  intros H Hr. unfold call_tool; simpl. handler_steps. rewrite H. simpl.
  unfold fetch_history. rewrite (customer_history_out_of_range _ _ Hr). reflexivity.
Qed.

(** C6: a get_customer_history invocation for an existing customer returns
    the interactions of the customer, all of them and nothing else, ordered
    newest first; when the customer has no interaction the invocation still
    returns, and the result is the empty list.  The premise is that the
    lookup of the customer returns: [r] is the row of an existing customer,
    and the statement holds as well when the lookup finds no row. *)
Theorem history_newest_first {rt : Runtime}
    (now : string) (args : list (string * value)) (w : world) (cid : Z)
    (r : option Customer.row) :
  int (get args "customer_id") = Return cid ->
  get_customer (db w) cid = Return r ->
  exists h : list History.row,
    fst (call_tool now (mk_invocation "get_customer_history" args) w) = Return (HistoryRows h) /\
    Permutation h
      (map select_history
           (filter (fun r => Interaction.customer_id r =? cid) (interactions (db w)))) /\
    Sorted newest_first h /\
    (filter (fun r => Interaction.customer_id r =? cid) (interactions (db w)) = [] -> h = []).
Proof.
  intros H Hc. apply get_customer_returns in Hc. destruct Hc as [Hr _].
  exists (history_rows (db w) cid).
  rewrite (get_history_runs now args w cid H Hr).
  destruct (history_rows_spec (db w) cid) as [Hp Hs].
  repeat split; try assumption.
  intros E. unfold history_rows. now rewrite E.
Qed.

Lemma history_newest_first_witness :
  let ana := Customer.mk 1 "Ana Customer" "ana@example.com" "active" "2024-01-01 00:00:00" in
  let d := mk_store
             [ana;
              Customer.mk 2 "Brian Blocked" "brian@example.com" "delinquent" "2024-01-01 00:00:00"]
             [] 0
             [Interaction.mk 1 1 "email" "Welcome email sent" "2024-01-01 09:00:00";
              Interaction.mk 2 2 "chat" "Billing dispute initiated" "2024-01-02 12:00:00";
              Interaction.mk 3 1 "phone" "User reported login issue" "2024-01-03 08:30:00"] in
  let w := mk_world d [] [] 0 in
  let args := [("customer_id", VStr "1")] in
  int (rt := ascii_only) (get args "customer_id") = Return 1 /\
  get_customer (db w) 1 = Return (Some ana) /\
  fst (call_tool (rt := ascii_only) "2024-05-01 10:00:00"
         (mk_invocation "get_customer_history" args) w)
  = Return (HistoryRows
              [History.mk 3 "phone" "User reported login issue" "2024-01-03 08:30:00";
               History.mk 1 "email" "Welcome email sent" "2024-01-01 09:00:00"]) /\
  exists h : list History.row,
    fst (call_tool (rt := ascii_only) "2024-05-01 10:00:00"
           (mk_invocation "get_customer_history" args) w)
    = Return (HistoryRows h) /\
    Sorted newest_first h.
Proof.
  intros ana d w args.
  split; [reflexivity |]. split; [reflexivity |]. split; [reflexivity |].
  destruct (history_newest_first (rt := ascii_only) "2024-05-01 10:00:00" args w 1 (Some ana)
              eq_refl eq_refl)
    as (h & E & _ & Hs & _).
  exists h. split; assumption.
Defined.

(** ** Referential integrity *)

Lemma find_none_has_customer (d : store) (cid : Z) :
  get_customer d cid = Return None -> has_customer d cid = false.
Proof.
  intros H. apply get_customer_returns in H. destruct H as [_ H].
  unfold has_customer.
  induction (customers d) as [| r rows IH]; simpl in *; [reflexivity |].
  destruct (Customer.id r =? cid); [discriminate | exact (IH H)].
Qed.

Lemma find_some_has_customer (d : store) (cid : Z) (c : Customer.row) :
  get_customer d cid = Return (Some c) -> has_customer d cid = true /\ Customer.id c = cid.
Proof.
  intros H. apply get_customer_returns in H. destruct H as [_ H].
  unfold has_customer.
  induction (customers d) as [| r rows IH]; simpl in *; [discriminate |].
  destruct (Z.eqb_spec (Customer.id r) cid) as [E | _].
  - injection H as <-. auto.
  - exact (IH H).
Qed.





(** ** Updating a customer *)

Lemma dict_find_filter_allowed (col : string) (d : list (string * value)) :
  is_allowed col = true ->
  dict_find col (filter (fun kv => is_allowed (fst kv)) d) = dict_find col d.
Proof.
  intros Hc. induction d as [| [k v] d IH]; simpl; [reflexivity |].
  destruct (is_allowed k) eqn:Hk; simpl.
  - now rewrite IH.
  - destruct (String.eqb_spec col k) as [-> | _]; [congruence | exact IH].
Qed.

Lemma bind_values_assigned (col : string) (updates : list (string * value))
    (params : list (string * sqlval)) :
  bind_values updates = Return params ->
  match dict_find col updates with
  | Some v => exists x, Sqlite.bind v = Return x /\ assigned col params = Some x
  | None => assigned col params = None
  end.
Proof.
  revert params. induction updates as [| [k v] updates IH]; simpl; intros params.
  - intros [= <-]. reflexivity.
  - destruct (Sqlite.bind v) as [x | e] eqn:Hb; [| discriminate].
    destruct (bind_values updates) as [xs | e]; [| discriminate].
    intros [= <-]. simpl.
    destruct (String.eqb col k).
    + exists x. auto.
    + apply IH. reflexivity.
Qed.

Lemma set_column_applied {rt : Runtime} (updates : list (string * value)) (params : list (string * sqlval))
    (col old new : string) :
  bind_values updates = Return params ->
  set_column params col old = Return new ->
  Spec.applied updates col old new.
Proof.
  intros Hb Hs. unfold Spec.applied, set_column in *.
  pose proof (bind_values_assigned col updates params Hb) as H.
  destruct (dict_find col updates) as [v |].
  - destruct H as (x & Hx & Ha). rewrite Ha in Hs. exists x. auto.
  - rewrite H in Hs. now injection Hs as <-.
Qed.

Lemma update_row_applied {rt : Runtime} (updates : list (string * value)) (params : list (string * sqlval))
    (c c' : Customer.row) :
  bind_values updates = Return params ->
  update_row params c = Return c' ->
  Customer.id c' = Customer.id c /\
  Customer.created_at c' = Customer.created_at c /\
  Spec.applied updates "name" (Customer.name c) (Customer.name c') /\
  Spec.applied updates "email" (Customer.email c) (Customer.email c') /\
  Spec.applied updates "status" (Customer.status c) (Customer.status c').
Proof.
  intros Hb. unfold update_row.
  destruct (set_column params "name" _) as [n |] eqn:Hn; [| discriminate].
  destruct (set_column params "email" _) as [m |] eqn:Hm; [| discriminate].
  destruct (set_column params "status" _) as [st |] eqn:Hst; [| discriminate].
  intros [= <-]. simpl.
  repeat split; eauto using set_column_applied.
Qed.

Lemma update_where_id_ids {rt : Runtime} (params : list (string * sqlval)) (cid : Z)
    (rows rows' : list Customer.row) :
  update_where_id params cid rows = Return rows' ->
  map Customer.id rows' = map Customer.id rows.
Proof.
  revert rows'. induction rows as [| r rows IH]; simpl; intros rows'.
  - intros [= <-]. reflexivity.
  - destruct (Customer.id r =? cid).
    + destruct (update_row params r) as [r' |] eqn:Hr; [| discriminate].
      destruct (update_where_id params cid rows) as [rest |]; [| discriminate].
      intros [= <-]. simpl. rewrite (IH rest eq_refl).
      unfold update_row in Hr.
      destruct (set_column params "name" _); [| discriminate].
      destruct (set_column params "email" _); [| discriminate].
      destruct (set_column params "status" _); [| discriminate].
      injection Hr as <-. reflexivity.
    + destruct (update_where_id params cid rows) as [rest |]; [| discriminate].
      intros [= <-]. simpl. now rewrite (IH rest eq_refl).
Qed.

Lemma update_where_id_find {rt : Runtime} (params : list (string * sqlval)) (cid : Z)
    (rows rows' : list Customer.row) (c : Customer.row) :
  update_where_id params cid rows = Return rows' ->
  find (fun r => Customer.id r =? cid) rows = Some c ->
  exists c', update_row params c = Return c' /\
             find (fun r => Customer.id r =? cid) rows' = Some c'.
Proof.
  revert rows'. induction rows as [| r rows IH]; simpl; intros rows'; [discriminate |].
  destruct (Z.eqb_spec (Customer.id r) cid) as [E | N].
  - destruct (update_row params r) as [r' |] eqn:Hr; [| discriminate].
    destruct (update_where_id params cid rows) as [rest |]; [| discriminate].
    intros [= <-] [= <-]. exists r'. split; [assumption |]. simpl.
    unfold update_row in Hr.
    destruct (set_column params "name" _); [| discriminate].
    destruct (set_column params "email" _); [| discriminate].
    destruct (set_column params "status" _); [| discriminate].
    injection Hr as <-. simpl. now rewrite E, Z.eqb_refl.
  - destruct (update_where_id params cid rows) as [rest |]; [| discriminate].
    intros [= <-] Hf. destruct (IH rest eq_refl Hf) as (c' & H1 & H2).
    exists c'. split; [assumption |]. simpl.
    now rewrite (proj2 (Z.eqb_neq _ _) N).
Qed.

Lemma update_where_id_others {rt : Runtime} (params : list (string * sqlval)) (cid other : Z)
    (rows rows' : list Customer.row) :
  update_where_id params cid rows = Return rows' ->
  other <> cid ->
  find (fun r => Customer.id r =? other) rows' = find (fun r => Customer.id r =? other) rows.
Proof.
  intros H N. revert rows' H.
  induction rows as [| r rows IH]; simpl; intros rows'.
  - intros [= <-]. reflexivity.
  - destruct (Z.eqb_spec (Customer.id r) cid) as [E | _].
    + destruct (update_row params r) as [r' |] eqn:Hr; [| discriminate].
      destruct (update_where_id params cid rows) as [rest |]; [| discriminate].
      intros [= <-]. simpl.
      assert (Hid : Customer.id r' = Customer.id r).
      { unfold update_row in Hr.
        destruct (set_column params "name" _); [| discriminate].
        destruct (set_column params "email" _); [| discriminate].
        destruct (set_column params "status" _); [| discriminate].
        injection Hr as <-. reflexivity. }
      rewrite Hid, E.
      destruct (Z.eqb_spec cid other) as [E' | _]; [congruence |].
      now apply IH.
    + destruct (update_where_id params cid rows) as [rest |]; [| discriminate].
      intros [= <-]. simpl. now rewrite (IH rest eq_refl).
Qed.

Lemma applied_filter_allowed {rt : Runtime} (d : list (string * value)) (col old new : string) :
  is_allowed col = true ->
  Spec.applied (filter (fun kv => is_allowed (fst kv)) d) col old new ->
  Spec.applied d col old new.
Proof.
  intros Hc. unfold Spec.applied. now rewrite (dict_find_filter_allowed col d Hc).
Qed.

Lemma modify_customer_absent {rt : Runtime} (d : store) (cid : Z) (data : list (string * value)) :
  get_customer d cid = Return None ->
  modify_customer d cid (VDict data) = (Return None, d).
Proof.
  intros H. unfold modify_customer; simpl.
  destruct (filter _ data); [now rewrite H |].
  pose proof (find_none_has_customer _ _ H) as Hno.
  apply get_customer_returns in H. destruct H as [Hr _].
  rewrite Hr. unfold has_customer in Hno. now rewrite Hno.
Qed.

(** An id SQLite cannot hold: the first statement that binds it raises. *)
Lemma modify_customer_out_of_range {rt : Runtime}
    (d : store) (cid : Z) (data : list (string * value)) :
  in_int64 cid = false ->
  modify_customer d cid (VDict data) = (Raise OverflowError, d).
Proof.
  intros H. unfold modify_customer; cbn [items].
  destruct (filter _ data).
  - now rewrite (get_customer_out_of_range _ _ H).
  - now rewrite (bind_int_out_of_range _ H).
Qed.

(** What [modify_customer] does for a customer of the table. *)
Lemma modify_customer_present {rt : Runtime} (d : store) (cid : Z) (data : list (string * value))
    (c : Customer.row) :
  get_customer d cid = Return (Some c) ->
  match modify_customer d cid (VDict data) with
  | (Return (Some c'), d') =>
      get_customer d' cid = Return (Some c') /\
      (forall other, other <> cid -> get_customer d' other = get_customer d other) /\
      map Customer.id (customers d') = map Customer.id (customers d) /\
      tickets d' = tickets d /\ tickets_seq d' = tickets_seq d /\
      interactions d' = interactions d /\
      Customer.id c' = Customer.id c /\
      Customer.created_at c' = Customer.created_at c /\
      Spec.applied data "name" (Customer.name c) (Customer.name c') /\
      Spec.applied data "email" (Customer.email c) (Customer.email c') /\
      Spec.applied data "status" (Customer.status c) (Customer.status c') /\
      (filter (fun kv => is_allowed (fst kv)) data = [] -> c' = c /\ d' = d)
  | (Return None, _) => False
  | (Raise _, d') => d' = d /\ filter (fun kv => is_allowed (fst kv)) data <> []
  end.
Proof.
  intros Hc.
  destruct (get_customer_returns _ _ _ Hc) as [Hr Hfind0]. symmetry in Hfind0.
  unfold modify_customer; cbn [items].
  destruct (filter (fun kv => is_allowed (fst kv)) data) as [| kv updates] eqn:Hf.
  - rewrite Hc.
    assert (Hnone : forall col, is_allowed col = true -> dict_find col data = None).
    { intros col Hcol. rewrite <- (dict_find_filter_allowed col data Hcol), Hf.
      reflexivity. }
    unfold Spec.applied. rewrite !Hnone by reflexivity.
    repeat split; reflexivity.
  - rewrite (bind_int_in_range _ Hr).
    destruct (find_some_has_customer d cid c Hc) as [Hex _].
    unfold has_customer in Hex. rewrite Hex. cbn [negb].
    destruct (bind_values (kv :: updates)) as [params | e] eqn:Hb;
      [| split; [reflexivity | discriminate]].
    destruct (update_where_id params cid (customers d)) as [rows | e] eqn:Hu;
      [| split; [reflexivity | discriminate]].
    destruct (update_where_id_find params cid _ rows c Hu Hfind0) as (c' & Hrow & Hfind).
    cbv zeta.
    rewrite (get_customer_in_range (with_customers d rows) cid Hr).
    cbn [with_customers customers]. rewrite Hfind.
    destruct (update_row_applied _ params c c' Hb Hrow) as (H1 & H2 & H3 & H4 & H5).
    rewrite <- Hf in H3, H4, H5.
    repeat split; try assumption; try reflexivity.
    + intros other Hother. unfold get_customer; cbn [with_customers customers].
      now rewrite (update_where_id_others params cid other _ rows Hu Hother).
    + exact (update_where_id_ids params cid _ rows Hu).
    + now apply applied_filter_allowed.
    + now apply applied_filter_allowed.
    + now apply applied_filter_allowed.
    + discriminate.
    + discriminate.
Qed.

Lemma modify_customer_drops_unknown {rt : Runtime} (d : store) (cid : Z)
    (data data' : list (string * value)) :
  filter (fun kv => is_allowed (fst kv)) data' = filter (fun kv => is_allowed (fst kv)) data ->
  modify_customer d cid (VDict data') = modify_customer d cid (VDict data).
Proof.
  intros H. unfold modify_customer; simpl. now rewrite H.
Qed.

(** The update handler, once its two arguments are read. *)
Lemma update_customer_runs {rt : Runtime}
    (now : string) (args : list (string * value)) (w : world)
    (cid : Z) (patch : value) :
  int (get args "customer_id") = Return cid ->
  or_else (get args "data") (VDict []) = patch ->
  call_tool now (mk_invocation "update_customer" args) w
  = match modify_customer (db w) cid patch with
    | (Return (Some u), d') =>
        (Return (OneCustomer u),
         mk_world d'
                  (event_queue w ++
                     [[("type", VStr "update"); ("tool", VStr "update_customer");
                       ("customer_id", VInt (Customer.id u))]])
                  (streams w) (S (storage_calls w)))
    | (Return None, d') =>
        (Raise (HTTPException 404 "Customer not found for update"),
         mk_world d' (event_queue w) (streams w) (S (storage_calls w)))
    | (Raise e, d') =>
        (Raise e, mk_world d' (event_queue w) (streams w) (S (storage_calls w)))
    end.
Proof.
  intros Hint Hpatch. unfold call_tool; simpl. handler_steps.
  rewrite Hint, Hpatch. simpl. unfold update_customer_record.
  destruct (modify_customer (db w) cid patch) as [[[u |] | e] d']; reflexivity.
Qed.

(** C4: an update_customer invocation whose data is an object (or is left
    out).  When the lookup finds no customer under the id, it fails with the
    404 of a missing customer and changes nothing; when SQLite cannot hold
    the id, it fails with OverflowError instead and changes nothing.  When
    it returns, the record returned is the stored record of that customer,
    with the same id and creation time, and each of name, email and status
    holds the value supplied for it when data has the key and the old
    content otherwise; the other customers are untouched.  Any key of data
    that is not one of the three is dropped: two data objects with the same
    three fields give the same outcome.  When data has none of the three,
    the invocation returns the record of an existing customer as it was, and
    the database is unchanged. *)
Theorem update_customer_applies_known_fields {rt : Runtime}
    (now : string) (args : list (string * value)) (w : world)
    (cid : Z) (data : list (string * value)) :
  int (get args "customer_id") = Return cid ->
  or_else (get args "data") (VDict []) = VDict data ->
  let outcome := call_tool now (mk_invocation "update_customer" args) w in
  (get_customer (db w) cid = Return None ->
     outcome = (Raise (HTTPException 404 "Customer not found for update"),
                mk_world (db w) (event_queue w) (streams w) (S (storage_calls w)))) /\
  (in_int64 cid = false ->
     outcome = (Raise OverflowError,
                mk_world (db w) (event_queue w) (streams w) (S (storage_calls w)))) /\
  (forall r : payload, fst outcome = Return r ->
     exists c c' : Customer.row,
       get_customer (db w) cid = Return (Some c) /\
       r = OneCustomer c' /\
       get_customer (db (snd outcome)) cid = Return (Some c') /\
       Customer.id c' = Customer.id c /\
       Customer.created_at c' = Customer.created_at c /\
       Spec.applied data "name" (Customer.name c) (Customer.name c') /\
       Spec.applied data "email" (Customer.email c) (Customer.email c') /\
       Spec.applied data "status" (Customer.status c) (Customer.status c') /\
       (forall other, other <> cid ->
          get_customer (db (snd outcome)) other = get_customer (db w) other)) /\
  (forall (args' : list (string * value)) (data' : list (string * value)),
     int (get args' "customer_id") = Return cid ->
     or_else (get args' "data") (VDict []) = VDict data' ->
     filter (fun kv => is_allowed (fst kv)) data' = filter (fun kv => is_allowed (fst kv)) data ->
     call_tool now (mk_invocation "update_customer" args') w = outcome) /\
  (forall c : Customer.row,
     get_customer (db w) cid = Return (Some c) ->
     filter (fun kv => is_allowed (fst kv)) data = [] ->
     fst outcome = Return (OneCustomer c) /\ db (snd outcome) = db w).
Proof.
  intros Hint Hdata outcome.
  assert (Hrun := update_customer_runs now args w cid (VDict data) Hint Hdata).
  fold outcome in Hrun.
  repeat split.
  - intros Habs. rewrite Hrun, (modify_customer_absent _ _ _ Habs). reflexivity.
  - intros Hout. rewrite Hrun, (modify_customer_out_of_range _ _ _ Hout). reflexivity.
  - intros r Hr. rewrite Hrun in *.
    destruct (get_customer (db w) cid) as [[c |] | e] eqn:Hc.
    + pose proof (modify_customer_present (db w) cid data c Hc) as Hp.
      destruct (modify_customer (db w) cid (VDict data)) as [[[c' |] | e] d'];
        simpl in *; try discriminate; try contradiction.
      injection Hr as <-.
      destruct Hp as (H1 & H2 & _ & _ & _ & _ & H3 & H4 & H5 & H6 & H7 & _).
      exists c, c'. repeat split; assumption.
    + rewrite (modify_customer_absent _ _ _ Hc) in Hr. discriminate.
    + apply get_customer_raises in Hc. destruct Hc as [Hout _].
      rewrite (modify_customer_out_of_range _ _ _ Hout) in Hr. discriminate.
  - intros args' data' Hint' Hdata' Hsame.
    rewrite (update_customer_runs now args' w cid (VDict data') Hint' Hdata'), Hrun.
    now rewrite (modify_customer_drops_unknown (db w) cid data data' Hsame).
  - pose proof (modify_customer_present (db w) cid data c H) as Hp.
    rewrite Hrun.
    destruct (modify_customer (db w) cid (VDict data)) as [[[c' |] | e] d'];
      simpl in *; try contradiction.
    + destruct Hp as (_ & _ & _ & _ & _ & _ & _ & _ & _ & _ & _ & Hsame).
      destruct (Hsame H0) as [-> _]. reflexivity.
    + destruct Hp as [_ Hne]. contradiction.
  - pose proof (modify_customer_present (db w) cid data c H) as Hp.
    rewrite Hrun.
    destruct (modify_customer (db w) cid (VDict data)) as [[[c' |] | e] d'];
      simpl in *; try contradiction.
    + destruct Hp as (_ & _ & _ & _ & _ & _ & _ & _ & _ & _ & _ & Hsame).
      destruct (Hsame H0) as [_ ->]. reflexivity.
    + destruct Hp as [_ Hne]. contradiction.
Qed.

Lemma update_customer_applies_known_fields_witness :
  let w := mk_world (Seed.sample_store "2024-01-01 00:00:00") [] [] 0 in
  let args := [("customer_id", VStr "1");
               ("data", VDict [("name", VStr "Ana Maria"); ("vip", VBool true);
                               ("status", VInt 7)])] in
  let c' := Customer.mk 1 "Ana Maria" "ana@example.com" "7" "2024-01-01 00:00:00" in
  fst (call_tool (rt := ascii_only) "2024-05-01 10:00:00"
         (mk_invocation "update_customer" args) w)
  = Return (OneCustomer c') /\
  exists c c'' : Customer.row,
    get_customer (db w) 1 = Return (Some c) /\ OneCustomer c' = OneCustomer c'' /\
    Spec.applied (rt := ascii_only)
                 [("name", VStr "Ana Maria"); ("vip", VBool true); ("status", VInt 7)]
                 "email" (Customer.email c) (Customer.email c'').
Proof.
  intros w args c'.
  assert (E : fst (call_tool (rt := ascii_only) "2024-05-01 10:00:00"
                     (mk_invocation "update_customer" args) w)
              = Return (OneCustomer c')) by reflexivity.
  split; [exact E |].
  destruct (update_customer_applies_known_fields (rt := ascii_only)
              "2024-05-01 10:00:00" args w 1
              [("name", VStr "Ana Maria"); ("vip", VBool true); ("status", VInt 7)]
              eq_refl eq_refl) as (_ & _ & Happlied & _).
  destruct (Happlied (OneCustomer c') E) as (c & c'' & H1 & H2 & _ & _ & _ & _ & H3 & _).
  exists c, c''. repeat split; assumption.
Defined.

(** C4, the id SQLite cannot hold: no customer has the id 2^63, and the
    update does not fail with the 404 of a missing customer: the first
    statement cannot bind the id and raises OverflowError, answered with
    status 500. *)
Lemma update_of_unbindable_customer :
  let w := mk_world (Seed.sample_store "2024-01-01 00:00:00") [] [] 0 in
  let args := [("customer_id", VInt 9223372036854775808);
               ("data", VDict [("name", VStr "Ana Maria")])] in
  has_customer (db w) 9223372036854775808 = false /\
  fst (call_tool (rt := ascii_only) "2024-05-01 10:00:00"
         (mk_invocation "update_customer" args) w) = Raise OverflowError /\
  status_code_of (fst (call_tool (rt := ascii_only) "2024-05-01 10:00:00"
                         (mk_invocation "update_customer" args) w)) = 500 /\
  status_code_of (fst (call_tool (rt := ascii_only) "2024-05-01 10:00:00"
                         (mk_invocation "update_customer" args) w)) <> 404.
Proof.
  intros w args. repeat split; try reflexivity. discriminate.
Qed.

(** ** The foreign keys are kept by every handler *)

Lemma has_customer_ids (d d' : store) (x : Z) :
  map Customer.id (customers d') = map Customer.id (customers d) ->
  has_customer d' x = has_customer d x.
Proof.
  unfold has_customer. intros H.
  assert (G : forall rows, existsb (fun r => Customer.id r =? x) rows
                           = existsb (fun i => i =? x) (map Customer.id rows)).
  { induction rows as [| r rows IH]; simpl; [reflexivity | now rewrite IH]. }
  now rewrite !G, H.
Qed.

Lemma foreign_keys_same_tables (d d' : store) :
  map Customer.id (customers d') = map Customer.id (customers d) ->
  tickets d' = tickets d ->
  interactions d' = interactions d ->
  foreign_keys_hold d = true -> foreign_keys_hold d' = true.
Proof.
  intros Hc Ht Hi. unfold foreign_keys_hold. rewrite Ht, Hi.
  rewrite !andb_true_iff, !forallb_forall.
  intros [H1 H2]. split; intros x Hx; rewrite (has_customer_ids d d' _ Hc); auto.
Qed.

Lemma modify_customer_keeps_foreign_keys {rt : Runtime} (d : store) (cid : Z) (patch : value) :
  foreign_keys_hold d = true ->
  foreign_keys_hold (snd (modify_customer d cid patch)) = true.
Proof.
  intros H. unfold modify_customer.
  destruct (items patch) as [its | e]; [| exact H].
  destruct (filter _ its); [exact H |].
  destruct (Sqlite.bind (VInt cid)); [| exact H].
  destruct (negb _); [exact H |].
  destruct (bind_values _) as [params | e]; [| exact H].
  destruct (update_where_id params cid (customers d)) as [rows | e] eqn:Hu; [| exact H].
  simpl. apply (foreign_keys_same_tables d); try reflexivity; [| exact H].
  exact (update_where_id_ids params cid _ rows Hu).
Qed.

Lemma new_ticket_keeps_foreign_keys (d : store) (now : string) (cid : Z)
    (issue priority : string) :
  foreign_keys_hold d = true ->
  foreign_keys_hold (snd (new_ticket d now cid issue priority)) = true.
Proof.
  intros H.
  destruct (in_int64 cid) eqn:Hr;
    [| now rewrite (new_ticket_out_of_range _ _ _ _ _ Hr)].
  destruct (Z.le_gt_cases max_rowid (Z.max (tickets_seq d) (max_id (tickets d))))
    as [Hfull | Hlast];
    [now rewrite (new_ticket_full _ _ _ _ _ Hr Hfull) |].
  destruct (existsb (fun r => Customer.id r =? cid) (customers d)) eqn:Hc.
  - rewrite (proj1 (new_ticket_returns d now cid issue priority Hr Hlast Hc)). simpl.
    unfold foreign_keys_hold in *. simpl.
    apply andb_true_iff in H. destruct H as [H1 H2].
    rewrite forallb_app. simpl.
    unfold has_customer in *. simpl. now rewrite H1, H2, Hc.
  - now rewrite (new_ticket_no_customer _ _ _ _ _ Hr Hlast Hc).
Qed.

Lemma call_tool_keeps_foreign_keys {rt : Runtime}
    (now : string) (request : ToolInvocation) (w : world) :
  foreign_keys_hold (db w) = true ->
  foreign_keys_hold (db (snd (call_tool now request w))) = true.
Proof.
  intros H.
  destruct request as [tool args]; unfold call_tool; simpl.
  repeat match goal with
         | |- context [String.eqb tool ?s] => destruct (String.eqb tool s)
         end; handler_steps;
    try (destruct (int _) as [cid | e]; simpl; [| exact H]).
  - destruct (fetch_customer (db w) cid) as [[c |] | e]; exact H.
  - destruct (fetch_customers (db w) _ cid); exact H.
  - pose proof (modify_customer_keeps_foreign_keys (db w) cid
                  (or_else (get args "data") (VDict [])) H) as K.
    unfold update_customer_record.
    destruct (modify_customer (db w) cid _) as [[[c |] | e] d']; exact K.
  - pose proof (new_ticket_keeps_foreign_keys (db w) now cid
                  (str (get args "issue")) (str (get args "priority")) H) as K.
    unfold create_ticket_record.
    destruct (new_ticket (db w) now cid _ _) as [[t | e] d']; exact K.
  - destruct (fetch_history (db w) cid); exact H.
  - exact H.
Qed.

Lemma sample_store_has_foreign_keys (now : string) :
  foreign_keys_hold (Seed.sample_store now) = true.
Proof. reflexivity. Qed.

(** ** Arguments *)

(** What [int()] can raise: TypeError for None, a list or a dict, ValueError
    for a str that is no literal and for NaN, OverflowError for an
    infinity. *)
Lemma int_raises {rt : Runtime} (v : value) (e : exn) :
  int v = Raise e -> e = TypeError \/ e = ValueError \/ e = OverflowError.
Proof.
  destruct v as [| b | z | f | s | l | d]; simpl; try discriminate;
    try (intros [= <-]; auto).
  - destruct f; simpl; try discriminate; intros [= <-]; auto.
  - destruct (int_literal s); [discriminate | intros [= <-]; auto].
Qed.



(** A handler that cannot coerce the id it was given stops there. *)
Lemma customer_id_not_coercible {rt : Runtime}
    (now : string) (n : string) (args : list (string * value))
    (w : world) (e : exn) :
  In n ["get_customer"; "update_customer"; "create_ticket"; "get_customer_history"] ->
  int (get args "customer_id") = Raise e ->
  call_tool now (mk_invocation n args) w = (Raise e, w).
Proof.
  intros Hn He.
  simpl in Hn. destruct Hn as [<- | [<- | [<- | [<- | []]]]];
    unfold call_tool; simpl; handler_steps; now rewrite He.
Qed.

Lemma limit_not_coercible {rt : Runtime}
    (now : string) (args : list (string * value)) (w : world) (e : exn) :
  int (get_default args "limit" (VInt 20)) = Raise e ->
  call_tool now (mk_invocation "list_customers" args) w = (Raise e, w).
Proof.
  intros He. unfold call_tool; simpl; handler_steps. now rewrite He.
Qed.





(** ** The event stream *)

Lemma enqueued_by_call {rt : Runtime} (now : string) (request : ToolInvocation) (w : world) :
  event_queue (snd (call_tool now request w))
  = (event_queue w ++ enqueued_by (Call now request) w)%list /\
  List.length (enqueued_by (Call now request) w)
  = (if succeeds (Call now request) w then 1 else 0)%nat.
Proof.
  pose proof (call_tool_queue now request w) as H.
  unfold enqueued_by, succeeds.
  destruct (fst (call_tool now request w)).
  - destruct H as [e ->].
    rewrite skipn_app, skipn_all, Nat.sub_diag. simpl. auto.
  - rewrite H, skipn_all. rewrite app_nil_r. auto.
Qed.

Lemma published_length {rt : Runtime} (acts : list action) (w : world) :
  List.length (published acts w) = successes acts w.
Proof.
  revert w. induction acts as [| a acts IH]; intros w; simpl; [reflexivity |].
  destruct (step a w) as [w' |]; [| reflexivity].
  rewrite length_app, IH. f_equal.
  destruct a as [now request | | i]; try reflexivity.
  apply enqueued_by_call.
Qed.

Lemma total_sent_app (l1 l2 : list (list value)) :
  fold_right (fun s n => (List.length s + n)%nat) 0%nat (l1 ++ l2)
  = (fold_right (fun s n => (List.length s + n)%nat) 0%nat l1
     + fold_right (fun s n => (List.length s + n)%nat) 0%nat l2)%nat.
Proof. induction l1 as [| s l1 IH]; simpl; [reflexivity | rewrite IH; lia]. Qed.

Lemma total_sent_send_on (i : nat) (x : value) (l : list (list value)) :
  (i < List.length l)%nat ->
  fold_right (fun s n => (List.length s + n)%nat) 0%nat (send_on i x l)
  = S (fold_right (fun s n => (List.length s + n)%nat) 0%nat l).
Proof.
  revert i. induction l as [| s l IH]; intros i Hi; simpl in *; [lia |].
  destruct i as [| j]; simpl.
  - rewrite length_app. simpl. lia.
  - rewrite IH by lia. lia.
Qed.

(** One step neither duplicates nor loses an event. *)
Lemma step_conserves {rt : Runtime} (a : action) (w w' : world) :
  step a w = Some w' ->
  (total_sent w' + List.length (event_queue w')
   = total_sent w + List.length (event_queue w) + (if succeeds a w then 1 else 0))%nat.
Proof.
  destruct a as [now request | | i]; simpl.
  - intros [= <-].
    destruct (enqueued_by_call now request w) as [Hq Hl].
    rewrite Hq, length_app, Hl.
    unfold total_sent. rewrite (proj1 (call_tool_frame now request w)).
    unfold succeeds. lia.
  - intros [= <-]. unfold total_sent; simpl. rewrite total_sent_app. simpl. lia.
  - destruct (event_queue w) as [| e q]; [discriminate |].
    destruct (Nat.ltb_spec i (List.length (streams w))) as [Hi | _]; [| discriminate].
    intros [= <-]. unfold total_sent; simpl.
    rewrite (total_sent_send_on i (frame e) (streams w) Hi). lia.
Qed.

Lemma run_conserves {rt : Runtime} (acts : list action) (w w' : world) :
  run acts w = Some w' ->
  (total_sent w' + List.length (event_queue w')
   = total_sent w + List.length (event_queue w) + successes acts w)%nat.
Proof.
  revert w. induction acts as [| a acts IH]; intros w; simpl.
  - intros [= <-]. lia.
  - destruct (step a w) as [w1 |] eqn:Hs; [| discriminate].
    intros Hr. rewrite (IH w1 Hr), (step_conserves a w w1 Hs). lia.
Qed.

Lemma received_after_subscribe (i : nat) (l : list (list value)) :
  nth i (l ++ [[]]) [] = nth i l [].
Proof.
  revert i. induction l as [| s l IH]; intros [| j]; simpl; try reflexivity.
  - now destruct j.
  - apply IH.
Qed.

Lemma received_after_send (i j : nat) (x : value) (l : list (list value)) :
  (j < List.length l)%nat ->
  nth i (send_on j x l) [] = if (i =? j)%nat then (nth i l [] ++ [x])%list else nth i l [].
Proof.
  revert i j. induction l as [| s l IH]; intros i j Hj; simpl in *; [lia |].
  destruct j as [| j]; destruct i as [| i]; simpl; try reflexivity.
  apply IH. lia.
Qed.

Lemma subseq_nil_l {A : Type} (l : list A) : subseq [] l.
Proof. induction l; constructor; assumption. Qed.

(** The events queued at the start followed by those the run publishes are
    sent in that order: a prefix [D] of them has left the queue, and what
    each stream has newly sent is a part of [D], in the order of [D]. *)
Lemma run_delivers_in_order {rt : Runtime} (acts : list action) (w w' : world) :
  run acts w = Some w' ->
  exists D : list event,
    (event_queue w ++ published acts w)%list = (D ++ event_queue w')%list /\
    forall i, exists sub : list event,
      received i w' = (received i w ++ map frame sub)%list /\ subseq sub D.
Proof.
  revert w. induction acts as [| a acts IH]; intros w; simpl.
  - intros [= <-]. exists []. split; [now rewrite app_nil_r |].
    intros i. exists []. simpl. rewrite app_nil_r. split; [reflexivity | constructor].
  - destruct (step a w) as [w1 |] eqn:Hs; [| discriminate].
    intros Hr. destruct (IH w1 Hr) as (D1 & HD & Hsub).
    destruct a as [now request | | j]; simpl in Hs.
    + injection Hs as <-.
      exists D1. split.
      * rewrite app_assoc, <- (proj1 (enqueued_by_call now request w)). exact HD.
      * intros i. destruct (Hsub i) as (sub & H1 & H2). exists sub.
        unfold received in *.
        rewrite (proj1 (call_tool_frame now request w)) in H1. auto.
    + injection Hs as <-. simpl in HD.
      exists D1. split; [exact HD |].
      intros i. destruct (Hsub i) as (sub & H1 & H2). exists sub.
      unfold received in *. simpl in H1.
      rewrite received_after_subscribe in H1. auto.
    + destruct (event_queue w) as [| e q] eqn:Hq; [discriminate |].
      destruct (Nat.ltb_spec j (List.length (streams w))) as [Hj | _]; [| discriminate].
      injection Hs as <-. simpl in HD.
      exists (e :: D1). split; [simpl; now rewrite HD |].
      intros i. destruct (Hsub i) as (sub & H1 & H2).
      unfold received in *. simpl in H1.
      rewrite (received_after_send i j (frame e) (streams w) Hj) in H1.
      destruct (i =? j)%nat.
      * exists (e :: sub). split; [| now constructor].
        rewrite H1, <- app_assoc. reflexivity.
      * exists sub. split; [exact H1 | now constructor].
Qed.

(** C2, as the code has it: delivery is point to point through the one
    shared queue.  Along every run of the server, an event that is queued at
    the start or published by an invocation is sent on at most one of the
    open streams: the frames sent on all streams together and the events
    still queued are, in number, the frames sent and events queued at the
    start plus the invocations that returned.  The events leave the queue in
    publish order, and what a stream sends is a part of them in that order,
    each framed as an update. *)
Theorem events_reach_one_stream {rt : Runtime} (acts : list action) (w w' : world) :
  run acts w = Some w' ->
  (total_sent w' + List.length (event_queue w')
   = total_sent w + List.length (event_queue w) + successes acts w)%nat /\
  exists D : list event,
    (event_queue w ++ published acts w)%list = (D ++ event_queue w')%list /\
    total_sent w' = (total_sent w + List.length D)%nat /\
    forall i, exists sub : list event,
      received i w' = (received i w ++ map frame sub)%list /\ subseq sub D.
Proof.
  intros Hr.
  pose proof (run_conserves acts w w' Hr) as Hc.
  destruct (run_delivers_in_order acts w w' Hr) as (D & HD & Hsub).
  split; [exact Hc |].
  exists D. repeat split; try assumption.
  apply (f_equal (@List.length event)) in HD.
  rewrite !length_app, published_length in HD. lia.
Qed.

(** With nothing queued and no invocation returning, no stream sends. *)
Lemma nothing_to_send {rt : Runtime} (acts : list action) (w w' : world) :
  event_queue w = [] ->
  successes acts w = 0%nat ->
  run acts w = Some w' ->
  event_queue w' = [] /\ forall i, received i w' = received i w.
Proof.
  revert w. induction acts as [| a acts IH]; intros w Hq Hn; simpl.
  - intros [= <-]. auto.
  - simpl in Hn. destruct (step a w) as [w1 |] eqn:Hs; [| discriminate].
    intros Hr.
    assert (Hfail : succeeds a w = false) by (destruct (succeeds a w); [discriminate | reflexivity]).
    rewrite Hfail in Hn. simpl in Hn.
    assert (H1 : event_queue w1 = [] /\ forall i, received i w1 = received i w).
    { destruct a as [now request | | j]; simpl in Hs.
      - injection Hs as <-.
        pose proof (call_tool_queue now request w) as He.
        unfold succeeds in Hfail.
        destruct (fst (call_tool now request w)); [discriminate |].
        split; [congruence |].
        intros i. unfold received. now rewrite (proj1 (call_tool_frame now request w)).
      - injection Hs as <-. split; [assumption |].
        intros i. unfold received; simpl. apply received_after_subscribe.
      - rewrite Hq in Hs. discriminate. }
    destruct H1 as [Hq1 Hsame].
    destruct (IH w1 Hq1 Hn Hr) as [Hq' Hrec].
    split; [assumption |]. intros i. now rewrite Hrec, Hsame.
Qed.

Lemma events_reach_one_stream_witness :
  let w0 := mk_world (Seed.sample_store "2024-01-01 00:00:00") [] [] 0 in
  let call := Call "2024-05-01 10:00:00"
                   (mk_invocation "get_customer" [("customer_id", VInt 1)]) in
  let e := [("type", VStr "audit"); ("tool", VStr "get_customer"); ("customer_id", VInt 1)] in
  let w1 := mk_world (db w0) [e] [[frame e]; []] 2 in
  run (rt := ascii_only) [Subscribe; Subscribe; call; call; Next 0%nat] w0 = Some w1 /\
  (total_sent w1 + List.length (event_queue w1) = 0 + 0 + 2)%nat.
Proof.
  intros w0 call e w1.
  assert (H : run (rt := ascii_only) [Subscribe; Subscribe; call; call; Next 0%nat] w0 = Some w1)
    by reflexivity.
  split; [exact H |].
  exact (proj1 (events_reach_one_stream (rt := ascii_only) _ w0 w1 H)).
Defined.

(** C2, as the claim has it, fails.  Two streams are open when one
    invocation returns; the first stream sends the event, and the second,
    open since before the invocation, has sent nothing and sends nothing in
    any continuation in which no further invocation returns.  And a stream
    opened after an invocation has returned sends the event that
    invocation left on the queue. *)
Lemma second_stream_never_receives :
  let w0 := mk_world (Seed.sample_store "2024-01-01 00:00:00") [] [] 0 in
  let call := Call "2024-05-01 10:00:00"
                   (mk_invocation "get_customer" [("customer_id", VInt 1)]) in
  let e := [("type", VStr "audit"); ("tool", VStr "get_customer"); ("customer_id", VInt 1)] in
  (exists w1 : world,
      run (rt := ascii_only) [Subscribe; Subscribe; call; Next 0%nat] w0 = Some w1 /\
      successes (rt := ascii_only) [Subscribe; Subscribe; call; Next 0%nat] w0 = 1%nat /\
      received 0 w1 = [frame e] /\
      received 1 w1 = [] /\
      forall (acts : list action) (w2 : world),
        successes (rt := ascii_only) acts w1 = 0%nat ->
        run (rt := ascii_only) acts w1 = Some w2 -> received 1 w2 = []) /\
  (exists w2 : world,
      run (rt := ascii_only) [call; Subscribe; Next 0%nat] w0 = Some w2 /\
      received 0 w2 = [frame e]).
Proof.
  intros w0 call e. split.
  - exists (mk_world (db w0) [] [[frame e]; []] 1).
    split; [reflexivity |].
    split; [reflexivity |]. split; [reflexivity |]. split; [reflexivity |].
    intros acts w2 Hn Hr.
    destruct (nothing_to_send (rt := ascii_only) acts (mk_world (db w0) [] [[frame e]; []] 1) w2
                eq_refl Hn Hr) as [_ Hsame].
    rewrite Hsame. reflexivity.
  - exists (mk_world (db w0) [] [[frame e]] 1). split; reflexivity.
Qed.

Lemma run_keeps_foreign_keys {rt : Runtime} (acts : list action) (w w' : world) :
  foreign_keys_hold (db w) = true ->
  run acts w = Some w' ->
  foreign_keys_hold (db w') = true.
Proof.
  revert w. induction acts as [| a acts IH]; intros w Hfk; simpl.
  - now intros [= <-].
  - destruct (step a w) as [w1 |] eqn:Hs; [| discriminate].
    apply IH.
    destruct a as [now request | | j]; simpl in Hs.
    + injection Hs as <-. now apply call_tool_keeps_foreign_keys.
    + now injection Hs as <-.
    + destruct (event_queue w); [discriminate |].
      destruct (_ <? _)%nat; [| discriminate].
      now injection Hs as <-.
Qed.

(** ** Tasks *)

Lemma apply_event (task task' : Types.Task.t) (s : Types.TaskStatus)
    (e : Types.TaskStatusUpdateEvent.t) :
  Types.apply task s = Some (task', e) ->
  Types.terminal (Types.state (Types.Task.status task)) = false /\
  Types.Task.id task' = Types.Task.id task /\
  Types.Task.status task' = s /\
  Types.TaskStatusUpdateEvent.taskId e = Types.Task.id task /\
  Types.TaskStatusUpdateEvent.status e = s /\
  Types.TaskStatusUpdateEvent.final e = Types.terminal (Types.state s).
Proof.
  unfold Types.apply.
  destruct (Types.terminal (Types.state (Types.Task.status task))); [discriminate |].
  intros [= <- <-]. simpl. repeat split; reflexivity.
Qed.

(** C9: every status-update event produced for a task, along any sequence of
    statuses the task is driven through, is flagged final exactly when the
    state it carries is completed or canceled: no event is final with the
    state running, and none carries a terminal state without being final. *)
Theorem final_iff_terminal (task task' : Types.Task.t) (statuses : list Types.TaskStatus)
    (events : list Types.TaskStatusUpdateEvent.t) :
  Types.drive task statuses = Some (task', events) ->
  Forall (fun e =>
            let s := Types.state (Types.TaskStatusUpdateEvent.status e) in
            (Types.TaskStatusUpdateEvent.final e = true <->
             s = Types.completed \/ s = Types.canceled) /\
            ~ (Types.TaskStatusUpdateEvent.final e = true /\ s = Types.running) /\
            ~ (Types.TaskStatusUpdateEvent.final e = false /\
               (s = Types.completed \/ s = Types.canceled)))
         events.
Proof.
  revert task events. induction statuses as [| s rest IH]; intros task events; simpl.
  - intros [= _ <-]. constructor.
  - destruct (Types.apply task s) as [[task1 e] |] eqn:Ha; [| discriminate].
    destruct (Types.drive task1 rest) as [[task2 es] |] eqn:Hd; [| discriminate].
    intros [= <- <-]. constructor; [| exact (IH task1 es Hd)].
    destruct (apply_event task task1 s e Ha) as (_ & _ & _ & _ & Hs & Hf).
    rewrite Hs, Hf. simpl.
    destruct (Types.state s); simpl; repeat split;
      solve [ auto | discriminate
            | intros [H | H]; discriminate H
            | intros [H1 H2]; try discriminate H1; try discriminate H2;
              destruct H2 as [H2 | H2]; discriminate H2 ].
Qed.

Lemma final_iff_terminal_witness :
  let task := Types.Task.mk "t1" "c1" [] (Types.mk_status Types.running None) in
  let s1 := Types.mk_status Types.running None in
  let s2 := Types.mk_status Types.completed None in
  Types.drive task [s1; s2]
  = Some (Types.Task.mk "t1" "c1" [] s2,
          [Types.TaskStatusUpdateEvent.mk "t1" "c1" s1 false;
           Types.TaskStatusUpdateEvent.mk "t1" "c1" s2 true]) /\
  Forall (fun e =>
            Types.TaskStatusUpdateEvent.final e = true <->
            Types.state (Types.TaskStatusUpdateEvent.status e) = Types.completed \/
            Types.state (Types.TaskStatusUpdateEvent.status e) = Types.canceled)
         [Types.TaskStatusUpdateEvent.mk "t1" "c1" s1 false;
          Types.TaskStatusUpdateEvent.mk "t1" "c1" s2 true].
Proof.
  intros task s1 s2. split; [reflexivity |].
  pose proof (final_iff_terminal task _ [s1; s2] _ eq_refl) as H.
  eapply Forall_impl; [| exact H]. intros e He. exact (proj1 He).
Defined.

(** The declared shape alone does not tie the flag to the state: the model
    class takes any boolean with any status. *)
Lemma event_shape_leaves_final_free (s : Types.TaskState) (b : bool) :
  exists e : Types.Event,
    Types.state (Types.TaskStatusUpdateEvent.status e) = s /\
    Types.TaskStatusUpdateEvent.final e = b.
Proof.
  exists (Types.TaskStatusUpdateEvent.mk "t" "c" (Types.mk_status s None) b).
  split; reflexivity.
Qed.

(** A status that arrives after a terminal one is rejected, so the list of
    statuses a task can be driven through has at most its last one terminal. *)
Lemma no_status_after_terminal (task : Types.Task.t) (s : Types.TaskStatus)
    (rest : list Types.TaskStatus) :
  Types.terminal (Types.state s) = true ->
  rest <> [] ->
  Types.drive task (s :: rest) = None.
Proof.
  intros Ht Hne. simpl.
  destruct (Types.apply task s) as [[task1 e] |] eqn:Ha; [| reflexivity].
  destruct (apply_event task task1 s e Ha) as (_ & _ & Hst & _).
  destruct rest as [| s' rest]; [contradiction |]. simpl.
  unfold Types.apply at 1. rewrite Hst, Ht. reflexivity.
Qed.

(** ** Coercions on sample values *)

Example int_examples :
  let int := Py.int (rt := ascii_only) in
  int (VStr " 12 ") = Return 12 /\
  int (VStr "-1_000") = Return (-1000) /\
  int (VStr "1__0") = Raise ValueError /\
  int (VStr "") = Raise ValueError /\
  int (VStr "007") = Return 7 /\
  int (VStr "abc") = Raise ValueError /\
  int (VStr (String (ascii_of_nat 28) "12")) = Raise ValueError /\
  int VNone = Raise TypeError /\
  int (VBool true) = Return 1 /\
  int (VFloat (Finite false 15 (-3))) = Return 1 /\        (* 1.875 *)
  int (VFloat (Finite true 15 (-3))) = Return (-1) /\
  int (VFloat (Finite false 5 2)) = Return 20 /\
  int (VFloat (Infinity true)) = Raise OverflowError /\
  int (VFloat NaN) = Raise ValueError.
Proof. repeat split; reflexivity. Qed.

Example str_examples :
  let str := Py.str (rt := ascii_only) in
  str VNone = "None" /\
  str (VInt (-42)) = "-42" /\
  str (VInt 0) = "0" /\
  str (VList [VInt 1; VStr "a"]) = "[1, 'a']" /\
  str (VDict [("k", VBool true)]) = "{'k': True}" /\
  str (VList [VStr "it's"]) = String "[" (String quote2 ("it's" ++ String quote2 "]")).
Proof. repeat split; reflexivity. Qed.

(** The scenario of a known customer: the record and one audit event. *)
Example get_customer_scenario :
  call_tool (rt := ascii_only) "2024-05-01 10:00:00" (mk_invocation "get_customer" [("customer_id", VInt 1)])
            (mk_world (Seed.sample_store "2024-01-01 00:00:00") [] [] 0)
  = (Return (OneCustomer
               (Customer.mk 1 "Ana Customer" "ana@example.com" "active" "2024-01-01 00:00:00")),
     mk_world (Seed.sample_store "2024-01-01 00:00:00")
              [[("type", VStr "audit"); ("tool", VStr "get_customer"); ("customer_id", VInt 1)]]
              [] 1).
Proof. reflexivity. Qed.

(** The scenario of an unknown customer: a 404 and no event. *)
Example get_customer_missing_scenario :
  call_tool (rt := ascii_only) "2024-05-01 10:00:00" (mk_invocation "get_customer" [("customer_id", VInt 9999)])
            (mk_world (Seed.sample_store "2024-01-01 00:00:00") [] [] 0)
  = (Raise (HTTPException 404 "Customer does not exist"),
     mk_world (Seed.sample_store "2024-01-01 00:00:00") [] [] 1).
Proof. reflexivity. Qed.

(* ================================================================== *)
(** * Further properties of the storage layer and the dispatcher *)

(** ** What each handler comes to, once its integer argument is read *)

Lemma tool_cases (tool : string) :
  tool = "get_customer" \/ tool = "list_customers" \/ tool = "update_customer" \/
  tool = "create_ticket" \/ tool = "get_customer_history" \/ registered tool = false.
Proof.
  destruct (registered tool) eqn:E; [| tauto].
  apply registered_iff in E. tauto.
Qed.

Lemma unregistered_runs {rt : Runtime}
    (now : string) (tool : string) (args : list (string * value)) (w : world) :
  registered tool = false ->
  call_tool now (mk_invocation tool args) w
  = (Raise (HTTPException 404 ("Unknown tool: " ++ tool)), w).
Proof.
  intros H. apply unregistered_names in H. destruct H as (H1 & H2 & H3 & H4 & H5).
  unfold call_tool; cbn [name arguments]. now rewrite H1, H2, H3, H4, H5.
Qed.

Lemma get_customer_runs {rt : Runtime}
    (now : string) (args : list (string * value)) (w : world) (cid : Z) :
  int (get args "customer_id") = Return cid ->
  call_tool now (mk_invocation "get_customer" args) w
  = match get_customer (db w) cid with
    | Return (Some c) =>
        (Return (OneCustomer c),
         mk_world (db w)
                  (event_queue w ++
                     [[("type", VStr "audit"); ("tool", VStr "get_customer");
                       ("customer_id", VInt (Customer.id c))]])
                  (streams w) (S (storage_calls w)))
    | Return None =>
        (Raise (HTTPException 404 "Customer does not exist"),
         mk_world (db w) (event_queue w) (streams w) (S (storage_calls w)))
    | Raise e =>
        (Raise e, mk_world (db w) (event_queue w) (streams w) (S (storage_calls w)))
    end.
Proof.
  intros H. unfold call_tool; simpl. handler_steps. rewrite H. simpl.
  unfold fetch_customer. destruct (get_customer (db w) cid) as [[c |] | e]; reflexivity.
Qed.

Lemma list_customers_runs {rt : Runtime}
    (now : string) (args : list (string * value)) (w : world) (lim : Z) :
  int (get_default args "limit" (VInt 20)) = Return lim ->
  call_tool now (mk_invocation "list_customers" args) w
  = match list_customers (db w) (get args "status") lim with
    | Return l =>
        (Return (Customers l),
         mk_world (db w)
                  (event_queue w ++
                     [[("type", VStr "audit"); ("tool", VStr "list_customers");
                       ("count", len l)]])
                  (streams w) (S (storage_calls w)))
    | Raise e =>
        (Raise e, mk_world (db w) (event_queue w) (streams w) (S (storage_calls w)))
    end.
Proof.
  intros H. unfold call_tool; simpl. handler_steps. rewrite H. simpl.
  unfold fetch_customers. destruct (list_customers (db w) _ lim); reflexivity.
Qed.

Lemma create_ticket_runs {rt : Runtime}
    (now : string) (args : list (string * value)) (w : world) (cid : Z) :
  int (get args "customer_id") = Return cid ->
  call_tool now (mk_invocation "create_ticket" args) w
  = match new_ticket (db w) now cid (str (get args "issue")) (str (get args "priority")) with
    | (Return t, d') =>
        (Return (OneTicket t),
         mk_world d'
                  (event_queue w ++
                     [[("type", VStr "ticket"); ("tool", VStr "create_ticket");
                       ("ticket_id", VInt (Ticket.id t))]])
                  (streams w) (S (storage_calls w)))
    | (Raise e, d') =>
        (Raise e, mk_world d' (event_queue w) (streams w) (S (storage_calls w)))
    end.
Proof.
  intros H. unfold call_tool; simpl. handler_steps. rewrite H. simpl.
  unfold create_ticket_record.
  destruct (new_ticket (db w) now cid _ _) as [[t | e] d']; reflexivity.
Qed.

Lemma get_customer_history_runs {rt : Runtime}
    (now : string) (args : list (string * value)) (w : world) (cid : Z) :
  int (get args "customer_id") = Return cid ->
  call_tool now (mk_invocation "get_customer_history" args) w
  = match customer_history (db w) cid with
    | Return h =>
        (Return (HistoryRows h),
         mk_world (db w)
                  (event_queue w ++
                     [[("type", VStr "history"); ("tool", VStr "get_customer_history");
                       ("count", len h)]])
                  (streams w) (S (storage_calls w)))
    | Raise e =>
        (Raise e, mk_world (db w) (event_queue w) (streams w) (S (storage_calls w)))
    end.
Proof.
  intros H. unfold call_tool; simpl. handler_steps. rewrite H. simpl.
  unfold fetch_history. destruct (customer_history (db w) cid); reflexivity.
Qed.

(** ** What the two writers do to the tables *)

Lemma has_customer_find (d : store) (cid : Z) :
  in_int64 cid = true ->
  has_customer d cid = false -> get_customer d cid = Return None.
Proof.
  intros Hr. rewrite (get_customer_in_range _ _ Hr). unfold has_customer.
  induction (customers d) as [| r rows IH]; simpl; [reflexivity |].
  destruct (Customer.id r =? cid); [discriminate | exact IH].
Qed.

Lemma update_where_id_created {rt : Runtime} (params : list (string * sqlval)) (cid : Z)
    (rows rows' : list Customer.row) :
  update_where_id params cid rows = Return rows' ->
  map Customer.created_at rows' = map Customer.created_at rows.
Proof.
  revert rows'. induction rows as [| r rows IH]; simpl; intros rows'.
  - intros [= <-]. reflexivity.
  - destruct (Customer.id r =? cid).
    + destruct (update_row params r) as [r' |] eqn:Hr; [| discriminate].
      destruct (update_where_id params cid rows) as [rest |]; [| discriminate].
      intros [= <-]. simpl. rewrite (IH rest eq_refl).
      unfold update_row in Hr.
      destruct (set_column params "name" _); [| discriminate].
      destruct (set_column params "email" _); [| discriminate].
      destruct (set_column params "status" _); [| discriminate].
      injection Hr as <-. reflexivity.
    + destruct (update_where_id params cid rows) as [rest |]; [| discriminate].
      intros [= <-]. simpl. now rewrite (IH rest eq_refl).
Qed.

(** Every outcome of [modify_customer], for any object passed as changes. *)
Lemma modify_customer_outcomes {rt : Runtime} (d : store) (cid : Z) (patch : value) :
  match modify_customer d cid patch with
  | (Return (Some c'), d') =>
      Customer.id c' = cid /\
      get_customer d' cid = Return (Some c') /\
      has_customer d cid = true /\
      map Customer.id (customers d') = map Customer.id (customers d) /\
      map Customer.created_at (customers d') = map Customer.created_at (customers d) /\
      tickets d' = tickets d /\ tickets_seq d' = tickets_seq d /\
      interactions d' = interactions d
  | (Return None, d') => d' = d /\ get_customer d cid = Return None
  | (Raise _, d') => d' = d
  end.
Proof.
  unfold modify_customer.
  destruct (items patch) as [its | e]; [| reflexivity].
  destruct (filter (fun kv => is_allowed (fst kv)) its) as [| kv updates].
  - destruct (get_customer d cid) as [[c |] | e] eqn:Hc; [| auto | reflexivity].
    destruct (find_some_has_customer d cid c Hc) as [Hex Hid].
    repeat split; auto.
  - destruct (in_int64 cid) eqn:Hr;
      [rewrite (bind_int_in_range _ Hr) | now rewrite (bind_int_out_of_range _ Hr)].
    destruct (existsb (fun r => Customer.id r =? cid) (customers d)) eqn:Hex; cbn [negb].
    + destruct (bind_values (kv :: updates)) as [params | e]; [| reflexivity].
      destruct (update_where_id params cid (customers d)) as [rows | e] eqn:Hu;
        [| reflexivity].
      cbv zeta.
      destruct (find (fun r => Customer.id r =? cid) (customers d)) as [c |] eqn:Hc.
      * destruct (update_where_id_find params cid _ rows c Hu Hc) as (c' & _ & Hfind).
        assert (Hget : get_customer (with_customers d rows) cid = Return (Some c')).
        { rewrite (get_customer_in_range _ _ Hr). cbn [with_customers customers].
          now rewrite Hfind. }
        rewrite Hget.
        destruct (find_some_has_customer _ cid c' Hget) as [_ Hid].
        repeat split; try assumption; try reflexivity.
        -- exact (update_where_id_ids params cid _ rows Hu).
        -- exact (update_where_id_created params cid _ rows Hu).
      * assert (Hnone : get_customer d cid = Return None)
          by (rewrite (get_customer_in_range _ _ Hr); now rewrite Hc).
        apply find_none_has_customer in Hnone. unfold has_customer in Hnone. congruence.
    + split; [reflexivity |]. now apply has_customer_find.
Qed.

(** Every outcome of [new_ticket]. *)
Lemma new_ticket_outcomes (d : store) (now : string) (cid : Z) (issue priority : string) :
  match new_ticket d now cid issue priority with
  | (Return t, d') =>
      in_int64 cid = true /\
      has_customer d cid = true /\
      t = Ticket.mk (1 + Z.max (tickets_seq d) (max_id (tickets d)))
                    cid issue priority "open" now /\
      d' = mk_store (customers d) (tickets d ++ [t]) (Ticket.id t) (interactions d)
  | (Raise e, d') =>
      d' = d /\
      (e = OverflowError /\ in_int64 cid = false \/
       e = Sqlite3Error DatabaseFull /\ in_int64 cid = true /\
         max_rowid <= Z.max (tickets_seq d) (max_id (tickets d)) \/
       e = Sqlite3Error ConstraintFailed /\ in_int64 cid = true /\
         Z.max (tickets_seq d) (max_id (tickets d)) < max_rowid /\
         has_customer d cid = false)
  end.
Proof.
  destruct (in_int64 cid) eqn:Hr;
    [| rewrite (new_ticket_out_of_range _ _ _ _ _ Hr); auto].
  destruct (Z.le_gt_cases max_rowid (Z.max (tickets_seq d) (max_id (tickets d))))
    as [Hfull | Hlast].
  - rewrite (new_ticket_full _ _ _ _ _ Hr Hfull).
    split; [reflexivity |]. right. left. auto.
  - destruct (existsb (fun r => Customer.id r =? cid) (customers d)) eqn:Hc.
    + rewrite (proj1 (new_ticket_returns d now cid issue priority Hr Hlast Hc)). auto.
    + rewrite (new_ticket_no_customer _ _ _ _ _ Hr Hlast Hc).
      split; [reflexivity |]. right. right. auto.
Qed.

(** One invocation, seen from the tables: customers keep their ids and
    creation times, interactions are not written, at most one ticket is
    appended, and a failure changes nothing. *)
Lemma call_tool_db_effect {rt : Runtime} (now : string) (request : ToolInvocation) (w : world) :
  map Customer.id (customers (db (snd (call_tool now request w))))
  = map Customer.id (customers (db w)) /\
  map Customer.created_at (customers (db (snd (call_tool now request w))))
  = map Customer.created_at (customers (db w)) /\
  interactions (db (snd (call_tool now request w))) = interactions (db w) /\
  (exists added : list Ticket.row,
      tickets (db (snd (call_tool now request w))) = (tickets (db w) ++ added)%list /\
      (List.length added <= 1)%nat /\
      Forall (fun t => Ticket.status t = "open" /\
                       has_customer (db w) (Ticket.customer_id t) = true /\
                       forall r, In r (tickets (db w)) -> Ticket.id r < Ticket.id t)
             added) /\
  (forall e, fst (call_tool now request w) = Raise e ->
             db (snd (call_tool now request w)) = db w).
Proof.
  assert (Same : forall r w', call_tool now request w = (r, w') -> db w' = db w ->
            map Customer.id (customers (db w')) = map Customer.id (customers (db w)) /\
            map Customer.created_at (customers (db w'))
            = map Customer.created_at (customers (db w)) /\
            interactions (db w') = interactions (db w) /\
            (exists added : list Ticket.row,
                tickets (db w') = (tickets (db w) ++ added)%list /\
                (List.length added <= 1)%nat /\
                Forall (fun t => Ticket.status t = "open" /\
                                 has_customer (db w) (Ticket.customer_id t) = true /\
                                 forall r, In r (tickets (db w)) -> Ticket.id r < Ticket.id t)
                       added) /\
            (forall e, r = Raise e -> db w' = db w)).
  { intros r w' _ E. rewrite E. repeat split; auto.
    exists []. rewrite app_nil_r. repeat split; auto. }
  destruct request as [tool args].
  destruct (tool_cases tool) as [-> | [-> | [-> | [-> | [-> | Hun]]]]].
  - destruct (int (get args "customer_id")) as [cid | e] eqn:Hi.
    + pose proof (get_customer_runs now args w cid Hi) as Hr.
      destruct (get_customer (db w) cid) as [[c |] | e];
        rewrite Hr in *; eapply Same; eauto.
    + pose proof (customer_id_not_coercible now "get_customer" args w e
                    (or_introl eq_refl) Hi) as Hr.
      rewrite Hr in *. eapply Same; eauto.
  - destruct (int (get_default args "limit" (VInt 20))) as [lim | e] eqn:Hi.
    + pose proof (list_customers_runs now args w lim Hi) as Hr.
      destruct (list_customers (db w) _ lim); rewrite Hr in *; eapply Same; eauto.
    + pose proof (limit_not_coercible now args w e Hi) as Hr.
      rewrite Hr in *. eapply Same; eauto.
  - destruct (int (get args "customer_id")) as [cid | e] eqn:Hi.
    + pose proof (update_customer_runs now args w cid _ Hi eq_refl) as Hr.
      pose proof (modify_customer_outcomes (db w) cid
                    (or_else (get args "data") (VDict []))) as Ho.
      destruct (modify_customer (db w) cid _) as [[[c |] | e] d'].
      * rewrite Hr in *. cbn [fst snd db].
        destruct Ho as (_ & _ & _ & H1 & H2 & H3 & _ & H4).
        repeat split; try assumption; [| discriminate].
        exists []. rewrite app_nil_r. repeat split; auto.
      * destruct Ho as [-> _]. rewrite Hr in *. eapply Same; eauto.
      * subst d'. rewrite Hr in *. eapply Same; eauto.
    + pose proof (customer_id_not_coercible now "update_customer" args w e
                    (or_intror (or_introl eq_refl)) Hi) as Hr.
      rewrite Hr in *. eapply Same; eauto.
  - destruct (int (get args "customer_id")) as [cid | e] eqn:Hi.
    + pose proof (create_ticket_runs now args w cid Hi) as Hr.
      pose proof (new_ticket_outcomes (db w) now cid (str (get args "issue"))
                    (str (get args "priority"))) as Ho.
      destruct (new_ticket (db w) now cid _ _) as [[t | e] d'].
      * rewrite Hr in *. cbn [fst snd db].
        destruct Ho as (_ & Hc & Ht & ->). cbn [customers tickets interactions].
        repeat split; try reflexivity; [| discriminate].
        exists [t]. repeat split; auto.
        constructor; [| constructor].
        subst t. cbn [Ticket.status Ticket.customer_id Ticket.id].
        repeat split; auto.
        intros r Hin. apply max_id_bound in Hin. lia.
      * destruct Ho as (-> & _). rewrite Hr in *. eapply Same; eauto.
    + pose proof (customer_id_not_coercible now "create_ticket" args w e
                    (or_intror (or_intror (or_introl eq_refl))) Hi) as Hr.
      rewrite Hr in *. eapply Same; eauto.
  - destruct (int (get args "customer_id")) as [cid | e] eqn:Hi.
    + pose proof (get_customer_history_runs now args w cid Hi) as Hr.
      destruct (customer_history (db w) cid); rewrite Hr in *; eapply Same; eauto.
    + pose proof (customer_id_not_coercible now "get_customer_history" args w e
                    (or_intror (or_intror (or_intror (or_introl eq_refl)))) Hi) as Hr.
      rewrite Hr in *. eapply Same; eauto.
  - pose proof (unregistered_runs now tool args w Hun) as Hr.
    rewrite Hr in *. eapply Same; eauto.
Qed.

(** ** Failures and reads *)

(** X1: an invocation that fails, for whatever reason and whatever the tool,
    leaves the database, the event queue and the streams exactly as it
    found them. *)
Theorem failed_invocation_changes_nothing {rt : Runtime}
    (now : string) (request : ToolInvocation) (w : world) (e : exn) :
  fst (call_tool now request w) = Raise e ->
  db (snd (call_tool now request w)) = db w /\
  event_queue (snd (call_tool now request w)) = event_queue w /\
  streams (snd (call_tool now request w)) = streams w.
Proof.
  intros H.
  destruct (call_tool_db_effect now request w) as (_ & _ & _ & _ & Hdb).
  pose proof (call_tool_queue now request w) as Hq. rewrite H in Hq.
  repeat split; [exact (Hdb e H) | exact Hq | exact (proj1 (call_tool_frame now request w))].
Qed.

Lemma failed_invocation_changes_nothing_witness :
  let w := mk_world (Seed.sample_store "2024-01-01 00:00:00") [] [] 0 in
  let request := mk_invocation "update_customer"
                   [("customer_id", VInt 1);
                    ("data", VDict [("name", VStr "Ana Maria"); ("email", VNone)])] in
  fst (call_tool (rt := ascii_only) "2024-05-01 10:00:00" request w)
  = Raise (Sqlite3Error ConstraintFailed) /\
  db (snd (call_tool (rt := ascii_only) "2024-05-01 10:00:00" request w)) = db w.
Proof.
  intros w request.
  assert (H : fst (call_tool (rt := ascii_only) "2024-05-01 10:00:00" request w)
              = Raise (Sqlite3Error ConstraintFailed)) by reflexivity.
  split; [exact H |].
  exact (proj1 (failed_invocation_changes_nothing (rt := ascii_only)
                  "2024-05-01 10:00:00" request w _ H)).
Defined.

(** X2: get_customer, list_customers and get_customer_history never write:
    whatever the arguments and whether they return or raise, the database
    after the invocation is the database before it. *)
Theorem read_tools_never_write {rt : Runtime}
    (now : string) (args : list (string * value)) (w : world) :
  db (snd (call_tool now (mk_invocation "get_customer" args) w)) = db w /\
  db (snd (call_tool now (mk_invocation "list_customers" args) w)) = db w /\
  db (snd (call_tool now (mk_invocation "get_customer_history" args) w)) = db w.
Proof.
  repeat split; unfold call_tool; simpl; handler_steps.
  - destruct (int _) as [cid | e]; simpl; [| reflexivity].
    destruct (fetch_customer (db w) cid) as [[c |] | e]; reflexivity.
  - destruct (int _) as [lim | e]; simpl; [| reflexivity].
    destruct (fetch_customers (db w) _ lim); reflexivity.
  - destruct (int _) as [cid | e]; simpl; [| reflexivity].
    destruct (fetch_history (db w) cid); reflexivity.
Qed.

(** What the storage functions can raise. *)
Lemma customer_history_raises (d : store) (cid : Z) (e : exn) :
  customer_history d cid = Raise e -> in_int64 cid = false /\ e = OverflowError.
Proof.
  unfold customer_history. rewrite bind_int.
  destruct (in_int64 cid); [discriminate |].
  intros [= <-]. split; reflexivity.
Qed.

Lemma bind_raises (v : value) (e : exn) :
  Sqlite.bind v = Raise e -> e = Sqlite3Error UnsupportedType \/ e = OverflowError.
Proof.
  destruct v as [| b | z | f | s | l | d]; simpl; try discriminate;
    try (intros [= <-]; auto).
  destruct (in_int64 z); [discriminate | intros [= <-]; auto].
Qed.

Lemma list_customers_raises {rt : Runtime} (d : store) (status : value) (lim : Z) (e : exn) :
  list_customers d status lim = Raise e ->
  e = Sqlite3Error UnsupportedType \/ e = OverflowError.
Proof.
  unfold list_customers. destruct (truthy status).
  - destruct (Sqlite.bind status) as [x | e1] eqn:Hb.
    + destruct (Sqlite.bind (VInt lim)) as [y | e2] eqn:Hl; [discriminate |].
      intros [= <-]. exact (bind_raises _ _ Hl).
    + intros [= <-]. exact (bind_raises _ _ Hb).
  - destruct (Sqlite.bind (VInt lim)) as [y | e2] eqn:Hl; [discriminate |].
    intros [= <-]. exact (bind_raises _ _ Hl).
Qed.

Lemma bind_values_raises (updates : list (string * value)) (e : exn) :
  bind_values updates = Raise e -> e = Sqlite3Error UnsupportedType \/ e = OverflowError.
Proof.
  induction updates as [| [k v] updates IH]; simpl; [discriminate |].
  destruct (Sqlite.bind v) as [x | e1] eqn:Hb.
  - destruct (bind_values updates); [discriminate |].
    intros [= <-]. now apply IH.
  - intros [= <-]. exact (bind_raises _ _ Hb).
Qed.

Lemma update_row_raises {rt : Runtime} (params : list (string * sqlval)) (r : Customer.row)
    (e : exn) :
  update_row params r = Raise e -> e = Sqlite3Error ConstraintFailed.
Proof.
  assert (H : forall col old, set_column params col old = Raise e ->
                              e = Sqlite3Error ConstraintFailed).
  { intros col old. unfold set_column, store_text.
    destruct (assigned col params) as [x |]; [| discriminate].
    destruct (text_affinity x); try discriminate; now intros [= <-]. }
  unfold update_row.
  destruct (set_column params "name" _) eqn:E1; [| intros [= <-]; eauto].
  destruct (set_column params "email" _) eqn:E2; [| intros [= <-]; eauto].
  destruct (set_column params "status" _) eqn:E3; [discriminate | intros [= <-]; eauto].
Qed.

Lemma update_where_id_raises {rt : Runtime} (params : list (string * sqlval)) (cid : Z)
    (rows : list Customer.row) (e : exn) :
  update_where_id params cid rows = Raise e -> e = Sqlite3Error ConstraintFailed.
Proof.
  induction rows as [| r rows IH]; simpl; [discriminate |].
  destruct (Customer.id r =? cid).
  - destruct (update_row params r) eqn:Hr.
    + destruct (update_where_id params cid rows); [discriminate |].
      intros [= <-]. now apply IH.
    + intros [= <-]. eapply update_row_raises; eauto.
  - destruct (update_where_id params cid rows); [discriminate |].
    intros [= <-]. now apply IH.
Qed.

(** What [modify_customer] can raise: the AttributeError of [.items()] on an
    object that has none, the OverflowError of an int SQLite cannot hold
    (the id, or a value to store), or an error of the UPDATE statement. *)
Lemma modify_customer_raises {rt : Runtime} (d : store) (cid : Z) (patch : value) (e : exn) :
  fst (modify_customer d cid patch) = Raise e ->
  (e = AttributeError /\ forall data, patch <> VDict data) \/
  (exists data, patch = VDict data /\
     (e = OverflowError \/
      exists why, e = Sqlite3Error why /\ has_customer d cid = true)).
Proof.
  unfold modify_customer.
  destruct patch as [| b | z | f | s | l | data]; simpl;
    try (intros [= <-]; left; split; [reflexivity | discriminate]).
  intros H. right. exists data. split; [reflexivity |]. revert H.
  destruct (filter _ data).
  - cbn [fst]. intros H. apply get_customer_raises in H. destruct H as [_ ->]. auto.
  - destruct (in_int64 cid); [| cbn [fst]; intros [= <-]; auto].
    unfold has_customer.
    destruct (existsb _ (customers d)) eqn:Hex; cbn [negb]; [| discriminate].
    destruct (bind_values _) as [params | e1] eqn:Hb; simpl.
    + destruct (update_where_id params cid (customers d)) as [rows | e2] eqn:Hu; simpl.
      * intros H. apply get_customer_raises in H. destruct H as [_ ->]. auto.
      * intros [= <-]. right. exists ConstraintFailed.
        rewrite (update_where_id_raises _ _ _ _ Hu). auto.
    + intros [= <-]. destruct (bind_values_raises _ _ Hb) as [-> | ->]; eauto.
Qed.

(** X3: the dispatcher answers 404 in three situations and no other: the
    tool is not registered, get_customer finds no customer with the
    requested id, or update_customer finds none.  Every HTTPException it
    raises has status 404, and for the two customer tools it means that the
    lookup of the id, once coerced, returned no row of the customers
    table. *)
Theorem not_found_only_when_absent {rt : Runtime}
    (now : string) (request : ToolInvocation) (w : world) (code : Z) (detail : string) :
  fst (call_tool now request w) = Raise (HTTPException code detail) ->
  code = 404 /\
  ((registered (name request) = false /\ detail = "Unknown tool: " ++ name request) \/
   (exists cid : Z,
       int (get (arguments request) "customer_id") = Return cid /\
       get_customer (db w) cid = Return None /\
       ((name request = "get_customer" /\ detail = "Customer does not exist") \/
        (name request = "update_customer" /\ detail = "Customer not found for update")))).
Proof.
  destruct request as [tool args]. cbn [name arguments].
  destruct (tool_cases tool) as [-> | [-> | [-> | [-> | [-> | Hun]]]]].
  - destruct (int (get args "customer_id")) as [cid | e] eqn:Hi.
    + rewrite (get_customer_runs now args w cid Hi).
      destruct (get_customer (db w) cid) as [[c |] | e] eqn:Hc; simpl; [discriminate | |].
      * intros [= <- <-]. split; [reflexivity |]. right. exists cid. auto.
      * intros [= ->]. apply get_customer_raises in Hc. destruct Hc as [_ Hc]. discriminate.
    + rewrite (customer_id_not_coercible now _ args w e (or_introl eq_refl) Hi). simpl.
      intros [= ->]. destruct (int_raises _ _ Hi) as [? | [? | ?]]; discriminate.
  - destruct (int (get_default args "limit" (VInt 20))) as [lim | e] eqn:Hi.
    + rewrite (list_customers_runs now args w lim Hi).
      destruct (list_customers (db w) _ lim) eqn:Hl; simpl; [discriminate |].
      intros [= ->]. apply list_customers_raises in Hl. destruct Hl; discriminate.
    + rewrite (limit_not_coercible now args w e Hi). simpl.
      intros [= ->]. destruct (int_raises _ _ Hi) as [? | [? | ?]]; discriminate.
  - destruct (int (get args "customer_id")) as [cid | e] eqn:Hi.
    + rewrite (update_customer_runs now args w cid _ Hi eq_refl).
      pose proof (modify_customer_outcomes (db w) cid
                    (or_else (get args "data") (VDict []))) as Ho.
      pose proof (modify_customer_raises (db w) cid
                    (or_else (get args "data") (VDict []))) as Hr.
      destruct (modify_customer (db w) cid _) as [[[c |] | e] d']; simpl;
        [discriminate | |].
      * intros [= <- <-]. split; [reflexivity |]. right. exists cid.
        destruct Ho as [_ Hc]. auto.
      * intros [= ->].
        destruct (Hr _ eq_refl) as [[? _] | (? & _ & [? | (? & ? & _)])]; discriminate.
    + rewrite (customer_id_not_coercible now _ args w e
                 (or_intror (or_introl eq_refl)) Hi). simpl.
      intros [= ->]. destruct (int_raises _ _ Hi) as [? | [? | ?]]; discriminate.
  - destruct (int (get args "customer_id")) as [cid | e] eqn:Hi.
    + rewrite (create_ticket_runs now args w cid Hi).
      pose proof (new_ticket_outcomes (db w) now cid (str (get args "issue"))
                    (str (get args "priority"))) as Ho.
      destruct (new_ticket (db w) now cid _ _) as [[t | e] d']; simpl; [discriminate |].
      intros [= ->]. destruct Ho as (_ & [[Ho _] | [[Ho _] | [Ho _]]]); discriminate.
    + rewrite (customer_id_not_coercible now _ args w e
                 (or_intror (or_intror (or_introl eq_refl))) Hi). simpl.
      intros [= ->]. destruct (int_raises _ _ Hi) as [? | [? | ?]]; discriminate.
  - destruct (int (get args "customer_id")) as [cid | e] eqn:Hi.
    + rewrite (get_customer_history_runs now args w cid Hi).
      destruct (customer_history (db w) cid) eqn:Hh; simpl; [discriminate |].
      intros [= ->]. apply customer_history_raises in Hh. destruct Hh as [_ Hh]. discriminate.
    + rewrite (customer_id_not_coercible now _ args w e
                 (or_intror (or_intror (or_intror (or_introl eq_refl)))) Hi). simpl.
      intros [= ->]. destruct (int_raises _ _ Hi) as [? | [? | ?]]; discriminate.
  - rewrite (unregistered_runs now tool args w Hun). simpl.
    intros [= <- <-]. auto.
Qed.

Lemma not_found_only_when_absent_witness :
  let w := mk_world (Seed.sample_store "2024-01-01 00:00:00") [] [] 0 in
  let request := mk_invocation "update_customer"
                   [("customer_id", VStr "42"); ("data", VDict [("name", VStr "Zed")])] in
  fst (call_tool (rt := ascii_only) "2024-05-01 10:00:00" request w)
  = Raise (HTTPException 404 "Customer not found for update") /\
  exists cid : Z,
    int (rt := ascii_only) (get (arguments request) "customer_id") = Return cid /\
    get_customer (db w) cid = Return None.
Proof.
  intros w request.
  assert (H : fst (call_tool (rt := ascii_only) "2024-05-01 10:00:00" request w)
              = Raise (HTTPException 404 "Customer not found for update")) by reflexivity.
  split; [exact H |].
  destruct (not_found_only_when_absent (rt := ascii_only) "2024-05-01 10:00:00" request w _ _ H)
    as (_ & [[Hreg _] | (cid & Hi & Hc & _)]).
  - discriminate Hreg.
  - exists cid. split; assumption.
Defined.

(** ** Results and the events that report them *)

(** X4: the event of a successful invocation reports its result: it carries
    the id of the customer returned, the id of the ticket created, or the
    number of rows in the list returned. *)
Theorem event_reports_result {rt : Runtime}
    (now : string) (request : ToolInvocation) (w : world) :
  match fst (call_tool now request w) with
  | Return r =>
      exists e : event,
        event_queue (snd (call_tool now request w)) = (event_queue w ++ [e])%list /\
        match r with
        | OneCustomer c => dict_find "customer_id" e = Some (VInt (Customer.id c))
        | Customers l => dict_find "count" e = Some (VInt (Z.of_nat (List.length l)))
        | OneTicket t => dict_find "ticket_id" e = Some (VInt (Ticket.id t))
        | HistoryRows l => dict_find "count" e = Some (VInt (Z.of_nat (List.length l)))
        end
  | Raise _ => True
  end.
Proof.
  destruct request as [tool args]; unfold call_tool; simpl.
  repeat match goal with
         | |- context [String.eqb tool ?s] => destruct (String.eqb tool s)
         end; handler_steps;
    try (destruct (int _) as [cid | e]; simpl; [| exact I]).
  - destruct (fetch_customer (db w) cid) as [[c |] | e]; simpl; try exact I.
    eexists; split; reflexivity.
  - destruct (fetch_customers (db w) _ cid); simpl; [| exact I].
    eexists; split; reflexivity.
  - destruct (update_customer_record (db w) cid _) as [[[c |] | e] d']; simpl;
      try exact I.
    eexists; split; reflexivity.
  - destruct (create_ticket_record (db w) now cid _ _) as [[t | e] d']; simpl;
      [| exact I].
    eexists; split; reflexivity.
  - destruct (fetch_history (db w) cid); simpl; [| exact I].
    eexists; split; reflexivity.
  - exact I.
Qed.

(** X5: a get_customer or update_customer invocation that returns, returns
    the record stored under the requested id: the id of the record is the
    customer_id argument as [int()] reads it, and the record is the one the
    table holds for that id after the invocation. *)
Theorem returned_customer_is_the_requested_one {rt : Runtime}
    (now : string) (tool : string) (args : list (string * value)) (w : world) (r : payload) :
  tool = "get_customer" \/ tool = "update_customer" ->
  fst (call_tool now (mk_invocation tool args) w) = Return r ->
  exists (cid : Z) (c : Customer.row),
    int (get args "customer_id") = Return cid /\
    r = OneCustomer c /\
    Customer.id c = cid /\
    get_customer (db (snd (call_tool now (mk_invocation tool args) w))) cid = Return (Some c).
Proof.
  intros [-> | ->].
  - destruct (int (get args "customer_id")) as [cid | e] eqn:Hi.
    + rewrite (get_customer_runs now args w cid Hi).
      destruct (get_customer (db w) cid) as [[c |] | e] eqn:Hc; simpl; try discriminate.
      intros [= <-]. exists cid, c.
      destruct (find_some_has_customer _ _ _ Hc) as [_ Hid]. auto.
    + rewrite (customer_id_not_coercible now _ args w e (or_introl eq_refl) Hi).
      discriminate.
  - destruct (int (get args "customer_id")) as [cid | e] eqn:Hi.
    + rewrite (update_customer_runs now args w cid _ Hi eq_refl).
      pose proof (modify_customer_outcomes (db w) cid
                    (or_else (get args "data") (VDict []))) as Ho.
      destruct (modify_customer (db w) cid _) as [[[c |] | e] d']; simpl;
        try discriminate.
      intros [= <-]. exists cid, c.
      destruct Ho as (H1 & H2 & _). auto.
    + rewrite (customer_id_not_coercible now _ args w e
                 (or_intror (or_introl eq_refl)) Hi).
      discriminate.
Qed.

Lemma returned_customer_is_the_requested_one_witness :
  let w := mk_world (Seed.sample_store "2024-01-01 00:00:00") [] [] 0 in
  let args := [("customer_id", VStr " 2 "); ("data", VDict [("status", VStr "active")])] in
  let c := Customer.mk 2 "Brian Blocked" "brian@example.com" "active" "2024-01-01 00:00:00" in
  fst (call_tool (rt := ascii_only) "2024-05-01 10:00:00"
         (mk_invocation "update_customer" args) w)
  = Return (OneCustomer c) /\
  exists (cid : Z) (c' : Customer.row),
    int (rt := ascii_only) (get args "customer_id") = Return cid /\
    OneCustomer c = OneCustomer c' /\
    Customer.id c' = cid.
Proof.
  intros w args c.
  assert (H : fst (call_tool (rt := ascii_only) "2024-05-01 10:00:00"
                     (mk_invocation "update_customer" args) w)
              = Return (OneCustomer c)) by reflexivity.
  split; [exact H |].
  destruct (returned_customer_is_the_requested_one (rt := ascii_only)
              "2024-05-01 10:00:00" "update_customer"
              args w (OneCustomer c) (or_intror eq_refl) H) as (cid & c' & H1 & H2 & H3 & _).
  exists cid, c'. repeat split; assumption.
Defined.

(** X6: create_ticket for an id that no customer has does not answer 404:
    the INSERT fails, the invocation is answered with status 500, no ticket
    is created and no event is published.  The INSERT fails with
    OverflowError when SQLite cannot hold the id, else for want of a rowid
    when the ticket counter has reached the largest one, else on the foreign
    key. *)
Theorem create_ticket_for_absent_customer {rt : Runtime}
    (now : string) (args : list (string * value)) (w : world) (cid : Z) :
  int (get args "customer_id") = Return cid ->
  has_customer (db w) cid = false ->
  exists e : exn,
    call_tool now (mk_invocation "create_ticket" args) w
    = (Raise e, mk_world (db w) (event_queue w) (streams w) (S (storage_calls w))) /\
    status_code_of (fst (call_tool now (mk_invocation "create_ticket" args) w)) = 500 /\
    e = if negb (in_int64 cid) then OverflowError
        else if max_rowid <=? Z.max (tickets_seq (db w)) (max_id (tickets (db w)))
             then Sqlite3Error DatabaseFull
             else Sqlite3Error ConstraintFailed.
Proof.
  intros Hi Hno. rewrite (create_ticket_runs now args w cid Hi).
  unfold has_customer in Hno.
  destruct (in_int64 cid) eqn:Hr; cbn [negb].
  - destruct (Z.leb_spec max_rowid (Z.max (tickets_seq (db w)) (max_id (tickets (db w)))))
      as [Hfull | Hlast].
    + rewrite (new_ticket_full _ _ _ _ _ Hr Hfull). eexists. repeat split.
    + rewrite (new_ticket_no_customer _ _ _ _ _ Hr Hlast Hno). eexists. repeat split.
  - rewrite (new_ticket_out_of_range _ _ _ _ _ Hr). eexists. repeat split.
Qed.

Lemma create_ticket_for_absent_customer_witness :
  let w := mk_world (Seed.sample_store "2024-01-01 00:00:00") [] [] 0 in
  let args := [("customer_id", VInt 9999); ("issue", VStr "billing");
               ("priority", VStr "high")] in
  has_customer (db w) 9999 = false /\
  call_tool (rt := ascii_only) "2024-05-01 10:00:00" (mk_invocation "create_ticket" args) w
  = (Raise (Sqlite3Error ConstraintFailed), mk_world (db w) [] [] 1).
Proof.
  intros w args. split; [reflexivity |].
  destruct (create_ticket_for_absent_customer (rt := ascii_only)
              "2024-05-01 10:00:00" args w 9999 eq_refl eq_refl) as (e & H & _ & He).
  rewrite H. now rewrite He.
Defined.

(** X7: the data argument of update_customer when it is not an object.  A
    value that counts as false (null, false, 0, 0.0, the empty string, an
    empty list) is replaced by the empty object, so the invocation behaves
    as with no data: it looks the customer up and returns the record
    unchanged, answers 404 when there is none, or fails with the
    OverflowError of the lookup when SQLite cannot hold the id.  Any other
    value that is not an object fails with the AttributeError of [.items()],
    status 500, before the customer is looked up, so also for an id that
    does not exist. *)
Theorem update_customer_data_not_an_object {rt : Runtime}
    (now : string) (args : list (string * value)) (w : world) (cid : Z) :
  int (get args "customer_id") = Return cid ->
  (forall data, get args "data" <> VDict data) ->
  (truthy (get args "data") = false ->
   call_tool now (mk_invocation "update_customer" args) w
   = match get_customer (db w) cid with
     | Return (Some c) =>
         (Return (OneCustomer c),
          mk_world (db w)
                   (event_queue w ++
                      [[("type", VStr "update"); ("tool", VStr "update_customer");
                        ("customer_id", VInt (Customer.id c))]])
                   (streams w) (S (storage_calls w)))
     | Return None =>
         (Raise (HTTPException 404 "Customer not found for update"),
          mk_world (db w) (event_queue w) (streams w) (S (storage_calls w)))
     | Raise e =>
         (Raise e, mk_world (db w) (event_queue w) (streams w) (S (storage_calls w)))
     end /\
   (forall e, get_customer (db w) cid = Raise e -> e = OverflowError)) /\
  (truthy (get args "data") = true ->
   call_tool now (mk_invocation "update_customer" args) w
   = (Raise AttributeError,
      mk_world (db w) (event_queue w) (streams w) (S (storage_calls w))) /\
   status_code_of (fst (call_tool now (mk_invocation "update_customer" args) w)) = 500).
Proof.
  intros Hi Hnot. split; intros Ht.
  - rewrite (update_customer_runs now args w cid (VDict []) Hi)
      by (unfold or_else; now rewrite Ht).
    unfold modify_customer; simpl. split.
    + destruct (get_customer (db w) cid) as [[c |] | e]; reflexivity.
    + intros e He. exact (proj2 (get_customer_raises _ _ _ He)).
  - rewrite (update_customer_runs now args w cid (get args "data") Hi)
      by (unfold or_else; now rewrite Ht).
    unfold modify_customer.
    destruct (get args "data") as [| b | z | f | s | l | data]; simpl;
      try (split; reflexivity).
    exfalso. exact (Hnot data eq_refl).
Qed.

Lemma update_customer_data_not_an_object_witness :
  let w := mk_world (Seed.sample_store "2024-01-01 00:00:00") [] [] 0 in
  let args := [("customer_id", VInt 9999); ("data", VStr "name=Zed")] in
  call_tool (rt := ascii_only) "2024-05-01 10:00:00" (mk_invocation "update_customer" args) w
  = (Raise AttributeError, mk_world (db w) [] [] 1).
Proof.
  intros w args.
  refine (proj1 (proj2 (update_customer_data_not_an_object (rt := ascii_only)
                          "2024-05-01 10:00:00" args w 9999
                          eq_refl _) eq_refl)).
  intros data. discriminate.
Defined.

(** ** Listing customers *)

Lemma subseq_refl {A : Type} (l : list A) : subseq l l.
Proof. induction l; constructor; assumption. Qed.

Lemma subseq_trans {A : Type} (l1 l2 l3 : list A) :
  subseq l1 l2 -> subseq l2 l3 -> subseq l1 l3.
Proof.
  intros H12 H23. revert l1 H12.
  induction H23 as [| x l2 l3 H IH | x l2 l3 H IH]; intros l1 H12.
  - exact H12.
  - constructor. now apply IH.
  - inversion H12; subst.
    + apply subseq_skip. now apply IH.
    + apply subseq_take. now apply IH.
Qed.

Lemma subseq_filter {A : Type} (f : A -> bool) (l : list A) : subseq (filter f l) l.
Proof.
  induction l as [| x l IH]; simpl; [constructor |].
  destruct (f x); [apply subseq_take | apply subseq_skip]; assumption.
Qed.

Lemma subseq_firstn {A : Type} (n : nat) (l : list A) : subseq (firstn n l) l.
Proof.
  revert l. induction n as [| n IH]; intros [| x l]; simpl.
  - constructor.
  - apply subseq_nil_l.
  - constructor.
  - apply subseq_take, IH.
Qed.

Lemma limit_rows_subseq {A : Type} (lim : Z) (l : list A) : subseq (limit_rows lim l) l.
Proof.
  unfold limit_rows. destruct (lim <? 0); [apply subseq_refl | apply subseq_firstn].
Qed.

Lemma limit_rows_length {A : Type} (lim : Z) (l : list A) :
  0 <= lim -> Z.of_nat (List.length (limit_rows lim l)) <= lim.
Proof.
  intros H. unfold limit_rows.
  destruct (Z.ltb_spec lim 0) as [Hn | _]; [lia |].
  pose proof (firstn_le_length (Z.to_nat lim) l). lia.
Qed.

Lemma list_customers_subseq {rt : Runtime} (d : store) (status : value) (lim : Z) (l : list Customer.row) :
  list_customers d status lim = Return l ->
  subseq l (customers d) /\ (0 <= lim -> Z.of_nat (List.length l) <= lim).
Proof.
  unfold list_customers. destruct (truthy status).
  - destruct (Sqlite.bind status) as [x | e]; [| discriminate].
    destruct (Sqlite.bind (VInt lim)); [| discriminate].
    intros [= <-]. split.
    + eapply subseq_trans; [apply limit_rows_subseq | apply subseq_filter].
    + apply limit_rows_length.
  - destruct (Sqlite.bind (VInt lim)); [| discriminate].
    intros [= <-]. split; [apply limit_rows_subseq | apply limit_rows_length].
Qed.

(** X8: list_customers never returns more rows than the limit: when the
    invocation returns, its rows are rows of the customers table, in table
    order and without repetition of a row, and for a limit that is not
    negative their number is at most the limit, which is 20 when the request
    has no limit argument. *)
Theorem list_customers_is_capped {rt : Runtime}
    (now : string) (args : list (string * value)) (w : world) (r : payload) :
  fst (call_tool now (mk_invocation "list_customers" args) w) = Return r ->
  exists (l : list Customer.row) (lim : Z),
    r = Customers l /\
    int (get_default args "limit" (VInt 20)) = Return lim /\
    subseq l (customers (db w)) /\
    (0 <= lim -> Z.of_nat (List.length l) <= lim) /\
    (dict_find "limit" args = None -> (List.length l <= 20)%nat).
Proof.
  destruct (int (get_default args "limit" (VInt 20))) as [lim | e] eqn:Hi.
  - rewrite (list_customers_runs now args w lim Hi).
    destruct (list_customers (db w) (get args "status") lim) as [l | e] eqn:Hl; simpl;
      [| discriminate].
    intros [= <-]. exists l, lim.
    destruct (list_customers_subseq _ _ _ _ Hl) as [Hs Hlen].
    repeat split; try assumption.
    intros Hnone. unfold get_default in Hi. rewrite Hnone in Hi.
    injection Hi as <-. specialize (Hlen ltac:(lia)). lia.
  - rewrite (limit_not_coercible now args w e Hi). discriminate.
Qed.

Lemma list_customers_is_capped_witness :
  let w := mk_world (Seed.sample_store "2024-01-01 00:00:00") [] [] 0 in
  let args := [("limit", VStr "2")] in
  let l := [Customer.mk 1 "Ana Customer" "ana@example.com" "active" "2024-01-01 00:00:00";
            Customer.mk 2 "Brian Blocked" "brian@example.com" "delinquent"
                        "2024-01-01 00:00:00"] in
  fst (call_tool (rt := ascii_only) "2024-05-01 10:00:00"
         (mk_invocation "list_customers" args) w)
  = Return (Customers l) /\
  exists (l' : list Customer.row) (lim : Z),
    Customers l = Customers l' /\ subseq l' (customers (db w)).
Proof.
  intros w args l.
  assert (H : fst (call_tool (rt := ascii_only) "2024-05-01 10:00:00"
                     (mk_invocation "list_customers" args) w)
              = Return (Customers l)) by reflexivity.
  split; [exact H |].
  destruct (list_customers_is_capped (rt := ascii_only) "2024-05-01 10:00:00" args w _ H)
    as (l' & lim & H1 & _ & H2 & _).
  exists l', lim. split; assumption.
Defined.

Lemma in_limit_rows_all {A : Type} (lim : Z) (l : list A) (x : A) :
  lim < 0 -> In x l -> In x (limit_rows lim l).
Proof.
  intros H Hin. unfold limit_rows.
  destruct (Z.ltb_spec lim 0); [assumption | lia].
Qed.

Lemma limit_rows_forall {A : Type} (P : A -> Prop) (lim : Z) (l : list A) :
  Forall P l -> Forall P (limit_rows lim l).
Proof.
  intros H. unfold limit_rows. destruct (lim <? 0); [assumption |].
  revert l H. induction (Z.to_nat lim) as [| n IH]; intros [| x l] H; simpl;
    try constructor.
  - now inversion H.
  - apply IH. now inversion H.
Qed.

(** X9: the status filter of [list_customers].  A status that counts as
    false (None, the empty string, 0) is no filter at all: the rows are the
    first rows of the table, up to the limit; a limit SQLite cannot hold
    makes the query fail with OverflowError.  A non-empty string keeps
    exactly the rows whose status is that string: every row returned has it,
    and under a negative limit, which SQLite reads as no limit, every row of
    the table that has it is returned.  A non-zero integer is compared as
    its decimal text.  A non-empty list or object cannot be bound and makes
    the query fail. *)
Theorem list_customers_status_filter {rt : Runtime} (d : store) (lim : Z) :
  (forall status : value,
     truthy status = false ->
     list_customers d status lim
     = if in_int64 lim then Return (limit_rows lim (customers d)) else Raise OverflowError) /\
  (forall (s : string) (l : list Customer.row),
     s <> "" ->
     list_customers d (VStr s) lim = Return l ->
     Forall (fun r => Customer.status r = s) l /\
     (lim < 0 -> forall r, In r (customers d) -> Customer.status r = s -> In r l)) /\
  (forall (z : Z) (l : list Customer.row),
     z <> 0 ->
     list_customers d (VInt z) lim = Return l ->
     Forall (fun r => Customer.status r = decimal z) l) /\
  (forall status : value,
     truthy status = true ->
     (exists x, status = VList x) \/ (exists x, status = VDict x) ->
     list_customers d status lim = Raise (Sqlite3Error UnsupportedType)).
Proof.
  repeat split.
  - intros status Ht. unfold list_customers. rewrite Ht, bind_int.
    now destruct (in_int64 lim).
  - unfold list_customers in H0. simpl in H0.
    destruct (String.eqb_spec s ""); [contradiction |]. simpl in H0.
    destruct (in_int64 lim); [| discriminate].
    injection H0 as <-. apply limit_rows_forall.
    apply Forall_forall. intros r Hr. apply filter_In in Hr.
    unfold text_equals in Hr. simpl in Hr. now apply String.eqb_eq.
  - intros Hneg r Hin Hs.
    unfold list_customers in H0. simpl in H0.
    destruct (String.eqb_spec s ""); [contradiction |]. simpl in H0.
    destruct (in_int64 lim); [| discriminate].
    injection H0 as <-. apply in_limit_rows_all; [assumption |].
    apply filter_In. split; [assumption |].
    unfold text_equals. simpl. now apply String.eqb_eq.
  - intros z l Hz. unfold list_customers. simpl.
    destruct (Z.eqb_spec z 0); [contradiction |]. simpl.
    destruct (in_int64 z); [| discriminate].
    destruct (in_int64 lim); [| discriminate].
    intros [= <-]. apply limit_rows_forall.
    apply Forall_forall. intros r Hr. apply filter_In in Hr.
    unfold text_equals in Hr. simpl in Hr. now apply String.eqb_eq.
  - intros status Ht [[x ->] | [x ->]]; unfold list_customers; rewrite Ht; reflexivity.
Qed.

Lemma list_customers_status_filter_witness :
  let d := Seed.sample_store "2024-01-01 00:00:00" in
  list_customers (rt := ascii_only) d (VStr "vip") 20
  = Return [Customer.mk 3 "Cara Care" "cara@example.com" "vip" "2024-01-01 00:00:00"] /\
  Forall (fun r => Customer.status r = "vip")
         [Customer.mk 3 "Cara Care" "cara@example.com" "vip" "2024-01-01 00:00:00"].
Proof.
  intros d.
  assert (H : list_customers (rt := ascii_only) d (VStr "vip") 20
              = Return [Customer.mk 3 "Cara Care" "cara@example.com" "vip"
                                    "2024-01-01 00:00:00"]) by reflexivity.
  split; [exact H |].
  refine (proj1 (proj1 (proj2 (list_customers_status_filter (rt := ascii_only) d 20))
                       "vip" _ _ H)).
  discriminate.
Defined.

(** ** What a run of the server keeps *)

Lemma step_db_effect {rt : Runtime} (a : action) (w w1 : world) :
  step a w = Some w1 ->
  map Customer.id (customers (db w1)) = map Customer.id (customers (db w)) /\
  map Customer.created_at (customers (db w1)) = map Customer.created_at (customers (db w)) /\
  interactions (db w1) = interactions (db w) /\
  exists added : list Ticket.row,
    tickets (db w1) = (tickets (db w) ++ added)%list /\
    (List.length added <= 1)%nat /\
    Forall (fun t => Ticket.status t = "open" /\
                     has_customer (db w) (Ticket.customer_id t) = true /\
                     forall r, In r (tickets (db w)) -> Ticket.id r < Ticket.id t)
           added.
Proof.
  assert (Same : db w1 = db w ->
            map Customer.id (customers (db w1)) = map Customer.id (customers (db w)) /\
            map Customer.created_at (customers (db w1))
            = map Customer.created_at (customers (db w)) /\
            interactions (db w1) = interactions (db w) /\
            exists added : list Ticket.row,
              tickets (db w1) = (tickets (db w) ++ added)%list /\
              (List.length added <= 1)%nat /\
              Forall (fun t => Ticket.status t = "open" /\
                               has_customer (db w) (Ticket.customer_id t) = true /\
                               forall r, In r (tickets (db w)) -> Ticket.id r < Ticket.id t)
                     added).
  { intros ->. repeat split. exists []. rewrite app_nil_r. repeat split; auto. }
  destruct a as [now request | | j]; simpl.
  - intros [= <-].
    destruct (call_tool_db_effect now request w) as (H1 & H2 & H3 & H4 & _). auto.
  - intros [= <-]. now apply Same.
  - destruct (event_queue w); [discriminate |].
    destruct (_ <? _)%nat; [| discriminate].
    intros [= <-]. now apply Same.
Qed.

Lemma NoDup_ids_append (rows added : list Ticket.row) :
  NoDup (map Ticket.id rows) ->
  (List.length added <= 1)%nat ->
  Forall (fun t => forall r, In r rows -> Ticket.id r < Ticket.id t) added ->
  NoDup (map Ticket.id (rows ++ added)).
Proof.
  intros Hnd Hlen Hnew.
  destruct added as [| t [| t' added]]; simpl in Hlen; try lia.
  - now rewrite app_nil_r.
  - rewrite map_app. simpl.
    apply NoDup_app; [assumption | repeat constructor; intros [] |].
    intros x Hin [<- | []].
    apply in_map_iff in Hin. destruct Hin as (r & E & Hr).
    inversion Hnew as [| ? ? Ht _]; subst.
    specialize (Ht r Hr). lia.
Qed.

(** X10: tickets are only ever appended.  Along every run of the server the
    tickets table keeps the rows it had, unchanged and in place; each row
    added since has status open and an id larger than that of every ticket
    present before it, so ticket ids that were distinct stay distinct. *)
Theorem tickets_only_grow {rt : Runtime} (acts : list action) (w w' : world) :
  run acts w = Some w' ->
  exists added : list Ticket.row,
    tickets (db w') = (tickets (db w) ++ added)%list /\
    Forall (fun t => Ticket.status t = "open" /\
                     forall r, In r (tickets (db w)) -> Ticket.id r < Ticket.id t) added /\
    (NoDup (map Ticket.id (tickets (db w))) -> NoDup (map Ticket.id (tickets (db w')))).
Proof.
  revert w. induction acts as [| a acts IH]; intros w; simpl.
  - intros [= <-]. exists []. rewrite app_nil_r. auto.
  - destruct (step a w) as [w1 |] eqn:Hs; [| discriminate].
    intros Hr. destruct (IH w1 Hr) as (added' & Ht' & Hopen' & Hnd').
    destruct (step_db_effect a w w1 Hs) as (_ & _ & _ & added & Ht & Hlen & Hopen).
    exists (added ++ added')%list. repeat split.
    + now rewrite Ht', Ht, app_assoc.
    + apply Forall_app. split.
      * eapply Forall_impl; [| exact Hopen]. intros t (H1 & _ & H3). auto.
      * eapply Forall_impl; [| exact Hopen']. intros t [H1 H2]. split; [assumption |].
        intros r Hin. apply H2. rewrite Ht. apply in_or_app. now left.
    + intros Hnd. apply Hnd'. rewrite Ht.
      apply NoDup_ids_append; try assumption.
      eapply Forall_impl; [| exact Hopen]. intros t (_ & _ & H3). exact H3.
Qed.

Lemma tickets_only_grow_witness :
  let w := mk_world (Seed.sample_store "2024-01-01 00:00:00") [] [] 0 in
  let create n i := Call n (mk_invocation "create_ticket"
                              [("customer_id", VInt 1); ("issue", VStr i);
                               ("priority", VStr "high")]) in
  let acts := [create "2024-05-01 10:00:00" "billing"; Subscribe;
               create "2024-05-01 10:05:00" "login"] in
  exists w' : world,
    run (rt := ascii_only) acts w = Some w' /\
    map Ticket.id (tickets (db w')) = [1; 2] /\
    exists added : list Ticket.row,
      tickets (db w') = (tickets (db w) ++ added)%list /\
      Forall (fun t => Ticket.status t = "open" /\
                       forall r, In r (tickets (db w)) -> Ticket.id r < Ticket.id t) added.
Proof.
  intros w create acts.
  destruct (run (rt := ascii_only) acts w) as [w' |] eqn:Hr; [| discriminate Hr].
  exists w'. split; [reflexivity |].
  split; [injection Hr as <-; reflexivity |].
  destruct (tickets_only_grow (rt := ascii_only) acts w w' Hr) as (added & H1 & H2 & _).
  exists added. split; assumption.
Defined.

(** X11: no tool creates or deletes a customer, changes a customer's id or
    creation time, or writes an interaction.  Along every run the customers
    table has the same ids and creation times in the same order, the
    interactions table is the same, and so the history of every customer is
    the one it was at the start. *)
Theorem customers_and_interactions_are_kept {rt : Runtime} (acts : list action) (w w' : world) :
  run acts w = Some w' ->
  map Customer.id (customers (db w')) = map Customer.id (customers (db w)) /\
  map Customer.created_at (customers (db w')) = map Customer.created_at (customers (db w)) /\
  interactions (db w') = interactions (db w) /\
  forall cid : Z, customer_history (db w') cid = customer_history (db w) cid.
Proof.
  revert w. induction acts as [| a acts IH]; intros w; simpl.
  - intros [= <-]. auto.
  - destruct (step a w) as [w1 |] eqn:Hs; [| discriminate].
    intros Hr. destruct (IH w1 Hr) as (H1 & H2 & H3 & H4).
    destruct (step_db_effect a w w1 Hs) as (G1 & G2 & G3 & _).
    repeat split; try congruence.
    intros cid. rewrite H4. unfold customer_history, history_rows. now rewrite G3.
Qed.

Lemma customers_and_interactions_are_kept_witness :
  let w := mk_world (Seed.sample_store "2024-01-01 00:00:00") [] [] 0 in
  let acts := [Call "2024-05-01 10:00:00"
                 (mk_invocation "update_customer"
                    [("customer_id", VInt 2); ("data", VDict [("status", VStr "active")])]);
               Call "2024-05-01 10:05:00"
                 (mk_invocation "create_ticket"
                    [("customer_id", VInt 2); ("issue", VStr "refund");
                     ("priority", VStr "low")])] in
  exists w' : world,
    run (rt := ascii_only) acts w = Some w' /\
    map Customer.id (customers (db w')) = [1; 2; 3] /\
    interactions (db w') = interactions (db w).
Proof.
  intros w acts.
  destruct (run (rt := ascii_only) acts w) as [w' |] eqn:Hr; [| discriminate Hr].
  exists w'. split; [reflexivity |].
  destruct (customers_and_interactions_are_kept (rt := ascii_only) acts w w' Hr) as (H1 & _ & H3 & _).
  split; [rewrite H1; reflexivity | exact H3].
Defined.

(** ** Repeating an update *)

Lemma set_column_again {rt : Runtime} (params : list (string * sqlval)) (col old new : string) :
  set_column params col old = Return new ->
  set_column params col new = Return new.
Proof.
  unfold set_column. destruct (assigned col params); [auto | now intros [= <-]].
Qed.

Lemma update_row_again {rt : Runtime} (params : list (string * sqlval)) (r r' : Customer.row) :
  update_row params r = Return r' ->
  update_row params r' = Return r' /\ Customer.id r' = Customer.id r.
Proof.
  unfold update_row.
  destruct (set_column params "name" (Customer.name r)) as [n |] eqn:E1; [| discriminate].
  destruct (set_column params "email" (Customer.email r)) as [m |] eqn:E2; [| discriminate].
  destruct (set_column params "status" (Customer.status r)) as [s |] eqn:E3; [| discriminate].
  intros [= <-]. simpl.
  rewrite (set_column_again _ _ _ _ E1), (set_column_again _ _ _ _ E2),
    (set_column_again _ _ _ _ E3).
  auto.
Qed.

Lemma update_where_id_again {rt : Runtime} (params : list (string * sqlval)) (cid : Z)
    (rows rows' : list Customer.row) :
  update_where_id params cid rows = Return rows' ->
  update_where_id params cid rows' = Return rows'.
Proof.
  revert rows'. induction rows as [| r rows IH]; simpl; intros rows'.
  - intros [= <-]. reflexivity.
  - destruct (Customer.id r =? cid) eqn:E.
    + destruct (update_row params r) as [r' |] eqn:Hr; [| discriminate].
      destruct (update_where_id params cid rows) as [rest |]; [| discriminate].
      intros [= <-]. simpl.
      destruct (update_row_again params r r' Hr) as [Hagain Hid].
      now rewrite Hid, E, Hagain, (IH rest eq_refl).
    + destruct (update_where_id params cid rows) as [rest |]; [| discriminate].
      intros [= <-]. simpl. now rewrite E, (IH rest eq_refl).
Qed.

Lemma modify_customer_again {rt : Runtime} (d d1 : store) (cid : Z) (patch : value) (c : Customer.row) :
  modify_customer d cid patch = (Return (Some c), d1) ->
  modify_customer d1 cid patch = (Return (Some c), d1).
Proof.
  unfold modify_customer.
  destruct (items patch) as [its | e]; [| discriminate].
  destruct (filter (fun kv => is_allowed (fst kv)) its) as [| kv updates].
  - intros [= Hc <-]. now rewrite Hc.
  - rewrite bind_int. destruct (in_int64 cid) eqn:Hin; [| discriminate].
    destruct (existsb (fun r => Customer.id r =? cid) (customers d)) eqn:Hex; cbn [negb];
      [| discriminate].
    destruct (bind_values (kv :: updates)) as [params | e]; [| discriminate].
    destruct (update_where_id params cid (customers d)) as [rows | e] eqn:Hu;
      [| discriminate].
    cbv zeta. intros [= Hc <-].
    assert (Hex' : existsb (fun r => Customer.id r =? cid)
                           (customers (with_customers d rows)) = true).
    { change (has_customer (with_customers d rows) cid = true).
      rewrite (has_customer_ids d (with_customers d rows) cid); [exact Hex |].
      exact (update_where_id_ids params cid _ rows Hu). }
    rewrite Hex'. cbn [negb].
    cbn [customers with_customers].
    rewrite (update_where_id_again params cid _ rows Hu).
    unfold with_customers at 1 3. cbn [tickets tickets_seq interactions with_customers].
    fold (with_customers d rows). now rewrite Hc.
Qed.

(** X12: update_customer is idempotent.  When an update returns, sending
    the same arguments again returns the same record and leaves the
    database as the first update left it. *)
Theorem update_customer_is_idempotent {rt : Runtime}
    (now now' : string) (args : list (string * value)) (w : world) (r : payload) :
  fst (call_tool now (mk_invocation "update_customer" args) w) = Return r ->
  let w1 := snd (call_tool now (mk_invocation "update_customer" args) w) in
  fst (call_tool now' (mk_invocation "update_customer" args) w1) = Return r /\
  db (snd (call_tool now' (mk_invocation "update_customer" args) w1)) = db w1.
Proof.
  destruct (int (get args "customer_id")) as [cid | e] eqn:Hi.
  - rewrite (update_customer_runs now args w cid _ Hi eq_refl).
    destruct (modify_customer (db w) cid (or_else (get args "data") (VDict [])))
      as [[[c |] | e] d1] eqn:Hm; simpl; try discriminate.
    intros [= <-].
    rewrite (update_customer_runs now' args _ cid _ Hi eq_refl). simpl.
    rewrite (modify_customer_again _ _ _ _ _ Hm). split; reflexivity.
  - rewrite (customer_id_not_coercible now _ args w e
               (or_intror (or_introl eq_refl)) Hi).
    discriminate.
Qed.

Lemma update_customer_is_idempotent_witness :
  let w := mk_world (Seed.sample_store "2024-01-01 00:00:00") [] [] 0 in
  let args := [("customer_id", VInt 3);
               ("data", VDict [("email", VStr "cara@care.example"); ("status", VInt 1)])] in
  let c := Customer.mk 3 "Cara Care" "cara@care.example" "1" "2024-01-01 00:00:00" in
  let call := call_tool (rt := ascii_only) in
  let w1 := snd (call "2024-05-01 10:00:00" (mk_invocation "update_customer" args) w) in
  fst (call "2024-05-01 10:00:00" (mk_invocation "update_customer" args) w)
  = Return (OneCustomer c) /\
  fst (call "2024-05-01 11:00:00" (mk_invocation "update_customer" args) w1)
  = Return (OneCustomer c).
Proof.
  intros w args c call w1.
  assert (H : fst (call "2024-05-01 10:00:00" (mk_invocation "update_customer" args) w)
              = Return (OneCustomer c)) by reflexivity.
  split; [exact H |].
  exact (proj1 (update_customer_is_idempotent (rt := ascii_only)
                  "2024-05-01 10:00:00" "2024-05-01 11:00:00"
                  args w (OneCustomer c) H)).
Defined.

(** ** A single stream *)

(** X13: a stream that is alone receives everything, in order.  When one
    stream is open and no other is opened, the frames it has sent followed
    by the frames of the events still queued are the frames it had sent at
    the start followed by those of the events queued then and of the events
    published since, in publish order. *)
Theorem single_stream_receives_all_in_order {rt : Runtime}
    (acts : list action) (w w' : world) (s : list value) :
  streams w = [s] ->
  ~ In Subscribe acts ->
  run acts w = Some w' ->
  exists s' : list value,
    streams w' = [s'] /\
    (s' ++ map frame (event_queue w'))%list
    = (s ++ map frame (event_queue w ++ published acts w))%list.
Proof.
  revert w s. induction acts as [| a acts IH]; intros w s Hs Hno; simpl.
  - intros [= <-]. exists s. now rewrite app_nil_r.
  - destruct (step a w) as [w1 |] eqn:Hstep; [| discriminate].
    intros Hr.
    assert (Hno' : ~ In Subscribe acts) by (intros H; apply Hno; now right).
    destruct a as [now request | | j]; simpl in Hstep.
    + injection Hstep as <-.
      assert (Hs1 : streams (snd (call_tool now request w)) = [s])
        by (rewrite (proj1 (call_tool_frame now request w)); exact Hs).
      destruct (IH _ s Hs1 Hno' Hr) as (s' & H1 & H2).
      exists s'. split; [assumption |].
      rewrite H2, (proj1 (enqueued_by_call now request w)), app_assoc. reflexivity.
    + exfalso. apply Hno. now left.
    + destruct (event_queue w) as [| e q] eqn:Hq; [discriminate |].
      rewrite Hs in Hstep. simpl in Hstep.
      destruct j as [| j]; simpl in Hstep; [| discriminate].
      injection Hstep as <-.
      destruct (IH (mk_world (db w) q [(s ++ [frame e])%list] (storage_calls w))
                  (s ++ [frame e])%list eq_refl Hno' Hr) as (s' & H1 & H2).
      exists s'. split; [assumption |].
      rewrite H2. simpl. rewrite <- app_assoc. reflexivity.
Qed.

Lemma single_stream_receives_all_in_order_witness :
  let w := mk_world (Seed.sample_store "2024-01-01 00:00:00") [] [[]] 0 in
  let get n := Call "2024-05-01 10:00:00"
                    (mk_invocation "get_customer" [("customer_id", VInt n)]) in
  let acts := [get 1; get 9999; get 2; Next 0%nat; Next 0%nat] in
  let ev n := [("type", VStr "audit"); ("tool", VStr "get_customer");
               ("customer_id", VInt n)] in
  exists w' : world,
    run (rt := ascii_only) acts w = Some w' /\
    streams w' = [[frame (ev 1); frame (ev 2)]] /\
    exists s' : list value,
      streams w' = [s'] /\
      (s' ++ map frame (event_queue w'))%list
      = ([] ++ map frame (event_queue w ++ published (rt := ascii_only) acts w))%list.
Proof.
  intros w get acts ev.
  destruct (run (rt := ascii_only) acts w) as [w' |] eqn:Hr; [| discriminate Hr].
  exists w'. split; [reflexivity |].
  split; [injection Hr as <-; reflexivity |].
  refine (single_stream_receives_all_in_order (rt := ascii_only) acts w w' [] eq_refl _ Hr).
  simpl. intros [H | [H | [H | [H | [H | []]]]]]; discriminate H.
Defined.

(* ================================================================== *)
(** * The text helpers of the support agent *)

(** ** ASCII text *)

Lemma is_ascii_chars (s : string) :
  is_ascii s = true <->
  Forall (fun c => (nat_of_ascii c < 128)%nat) (list_ascii_of_string s).
Proof.
  induction s as [| c s IH]; simpl.
  - split; [constructor | reflexivity].
  - rewrite andb_true_iff, IH, Nat.ltb_lt. split.
    + intros [H1 H2]. now constructor.
    + intros H. inversion H; subst. auto.
Qed.

Lemma is_ascii_of_list (l : list ascii) :
  Forall (fun c => (nat_of_ascii c < 128)%nat) l ->
  is_ascii (string_of_list_ascii l) = true.
Proof.
  intros H. apply is_ascii_chars. now rewrite list_ascii_of_string_of_list_ascii.
Qed.

Lemma list_ascii_of_string_app (a b : string) :
  list_ascii_of_string (a ++ b) = (list_ascii_of_string a ++ list_ascii_of_string b)%list.
Proof. induction a as [| c a IH]; simpl; [reflexivity | now rewrite IH]. Qed.

Lemma is_ascii_app (a b : string) :
  is_ascii (a ++ b) = is_ascii a && is_ascii b.
Proof.
  induction a as [| c a IH]; simpl; [reflexivity |].
  now rewrite IH, andb_assoc.
Qed.

(** ** Stripping *)

Lemma lstrip_head (l : list ascii) :
  match Support.lstrip l with
  | [] => True
  | c :: _ => Support.is_space c = false
  end.
Proof.
  induction l as [| c l IH]; simpl; [exact I |].
  destruct (Support.is_space c) eqn:E; [exact IH | exact E].
Qed.

Lemma lstrip_fixed (l : list ascii) :
  match l with
  | [] => True
  | c :: _ => Support.is_space c = false
  end ->
  Support.lstrip l = l.
Proof. destruct l as [| c l]; simpl; [reflexivity | now intros ->]. Qed.

Lemma lstrip_idem (l : list ascii) : Support.lstrip (Support.lstrip l) = Support.lstrip l.
Proof. apply lstrip_fixed, lstrip_head. Qed.

Lemma lstrip_suffix (l : list ascii) : exists sp, l = (sp ++ Support.lstrip l)%list.
Proof.
  induction l as [| c l [sp IH]]; simpl; [now exists [] |].
  destruct (Support.is_space c).
  - exists (c :: sp). simpl. now rewrite <- IH.
  - now exists [].
Qed.

Lemma lstrip_forall (P : ascii -> Prop) (l : list ascii) :
  Forall P l -> Forall P (Support.lstrip l).
Proof.
  intros H. destruct (lstrip_suffix l) as [sp Hsp].
  rewrite Hsp in H. apply Forall_app in H. tauto.
Qed.

Lemma strip_list_idem (l : list ascii) :
  rev (Support.lstrip (rev (Support.lstrip (rev (Support.lstrip (rev (Support.lstrip l)))))))
  = rev (Support.lstrip (rev (Support.lstrip l))).
Proof.
  set (m := Support.lstrip l). set (k := Support.lstrip (rev m)).
  assert (Hk : Support.lstrip (rev k) = rev k).
  { apply lstrip_fixed.
    destruct (lstrip_suffix (rev m)) as [sp Hsp]. fold k in Hsp.
    apply (f_equal (@rev ascii)) in Hsp. rewrite rev_involutive, rev_app_distr in Hsp.
    pose proof (lstrip_head l) as Hm. fold m in Hm.
    destruct (rev k) as [| c t]; [exact I |].
    rewrite Hsp in Hm. exact Hm. }
  rewrite Hk, rev_involutive. unfold k at 1. now rewrite lstrip_idem.
Qed.

Lemma ascii_strip_idem (s : string) :
  Support.ascii_strip (Support.ascii_strip s) = Support.ascii_strip s.
Proof.
  unfold Support.ascii_strip, Support.of_list, Support.to_list.
  rewrite list_ascii_of_string_of_list_ascii.
  now rewrite (strip_list_idem (list_ascii_of_string s)).
Qed.

Lemma ascii_strip_is_ascii (s : string) :
  is_ascii s = true -> is_ascii (Support.ascii_strip s) = true.
Proof.
  intros H. apply is_ascii_chars in H.
  unfold Support.ascii_strip, Support.of_list, Support.to_list.
  apply is_ascii_of_list, Forall_rev, lstrip_forall, Forall_rev, lstrip_forall, H.
Qed.

(** On ASCII text [strip] is the stripping computed here, and stripping
    twice is stripping once. *)
Lemma strip_ascii {rt : Runtime} (s : string) :
  is_ascii s = true -> Support.strip s = Support.ascii_strip s.
Proof. intros H. unfold Support.strip. now rewrite H. Qed.

Lemma strip_idem {rt : Runtime} (s : string) :
  is_ascii s = true -> Support.strip (Support.strip s) = Support.strip s.
Proof.
  intros H. rewrite (strip_ascii s H).
  rewrite (strip_ascii _ (ascii_strip_is_ascii s H)).
  apply ascii_strip_idem.
Qed.

(** ** Splitting at the marker *)

Lemma startswith_drop (p s : string) :
  Support.startswith p s = true -> s = p ++ Support.drop (String.length p) s.
Proof.
  revert s. induction p as [| a p IH]; intros s; simpl; [reflexivity |].
  destruct s as [| b s]; [discriminate |].
  intros H. apply andb_true_iff in H. destruct H as [Hab Hp].
  apply Ascii.eqb_eq in Hab. subst b. simpl. now rewrite <- (IH s Hp).
Qed.

Lemma startswith_app (p s : string) : Support.startswith p (p ++ s) = true.
Proof.
  induction p as [| a p IH]; simpl; [reflexivity |].
  now rewrite Ascii.eqb_refl, IH.
Qed.

(** Where [sep] occurs, [split1] cuts at its first occurrence. *)
Lemma split1_first (sep s : string) :
  Support.contains sep s = true ->
  exists a b : string,
    Support.split1 sep s = [a; b] /\
    s = a ++ sep ++ b /\
    forall a' b' : string, s = a' ++ sep ++ b' -> (String.length a <= String.length a')%nat.
Proof.
  induction s as [| c s IH]; intros Hc.
  - simpl in Hc. rewrite orb_false_r in Hc.
    exists "", (Support.drop (String.length sep) ""). simpl. rewrite Hc.
    repeat split; [now apply startswith_drop | intros; simpl; lia].
  - cbn [Support.contains] in Hc. cbn [Support.split1].
    destruct (Support.startswith sep (String c s)) eqn:Hp.
    + exists "", (Support.drop (String.length sep) (String c s)).
      repeat split; [now apply startswith_drop | intros; simpl; lia].
    + simpl in Hc. destruct (IH Hc) as (a & b & Hs & Heq & Hmin).
      exists (String c a), b. rewrite Hs. repeat split.
      * simpl. now rewrite <- Heq.
      * intros a' b' H'. destruct a' as [| c' a'].
        -- simpl in H'. rewrite H', startswith_app in Hp. discriminate.
        -- simpl in H'. injection H' as _ H'. simpl.
           specialize (Hmin a' b' H'). lia.
Qed.

(** X14: [parse_support_prompt] never fails and never returns an empty
    request.  Without the marker the context is empty and the request is the
    stripped text, or the words your request when nothing is left.  With the
    marker the text is cut at its first occurrence: the context is what
    follows it, stripped, and the request is what precedes it, stripped, or
    the same default.  For an ASCII text, both texts returned are without
    surrounding whitespace: stripping them again changes nothing. *)
Theorem parse_support_prompt_total {rt : Runtime} (text : string) :
  exists context request : string,
    Support.parse_support_prompt text = Some (context, request) /\
    request <> "" /\
    (Support.contains "Data context:" text = false ->
     context = "" /\
     request = if Support.nonempty (Support.strip text)
               then Support.strip text else "your request") /\
    (Support.contains "Data context:" text = true ->
     exists a b : string,
       text = a ++ "Data context:" ++ b /\
       (forall a' b' : string,
          text = a' ++ "Data context:" ++ b' -> (String.length a <= String.length a')%nat) /\
       context = Support.strip b /\
       request = if Support.nonempty (Support.strip a)
                 then Support.strip a else "your request") /\
    (is_ascii text = true ->
     Support.strip context = context /\ Support.strip request = request).
Proof.
  assert (Hreq : forall s,
             (if Support.nonempty (Support.strip s) then Support.strip s else "your request")
             <> "").
  { intros s. unfold Support.nonempty.
    destruct (String.eqb_spec (Support.strip s) ""); simpl; [discriminate | assumption]. }
  assert (Hidem : forall s, is_ascii s = true ->
             Support.strip (if Support.nonempty (Support.strip s)
                            then Support.strip s else "your request")
             = (if Support.nonempty (Support.strip s) then Support.strip s else "your request")).
  { intros s Hs. destruct (Support.nonempty (Support.strip s));
      [now apply strip_idem | reflexivity]. }
  unfold Support.parse_support_prompt.
  destruct (Support.contains "Data context:" text) eqn:Hc.
  - destruct (split1_first "Data context:" text Hc) as (a & b & Hs & Heq & Hmin).
    rewrite Hs. cbn [nth_error].
    eexists _, _. split; [reflexivity |].
    split; [apply Hreq |].
    split; [discriminate |].
    split; [intros _; exists a, b; auto |].
    intros Hascii. rewrite Heq, !is_ascii_app in Hascii.
    apply andb_true_iff in Hascii. destruct Hascii as [Ha Hb].
    apply andb_true_iff in Hb. destruct Hb as [_ Hb].
    split; [now apply strip_idem | now apply Hidem].
  - eexists _, _. split; [reflexivity |].
    split; [apply Hreq |].
    split; [intros _; split; reflexivity |].
    split; [discriminate |].
    intros Hascii. split; [reflexivity | now apply Hidem].
Qed.

Lemma parse_support_prompt_total_witness :
  let text := "  Reset my password  Data context: 2 open tickets " in
  Support.parse_support_prompt (rt := ascii_only) text
  = Some ("2 open tickets", "Reset my password") /\
  exists a b : string,
    text = a ++ "Data context:" ++ b /\
    "2 open tickets" = Support.strip (rt := ascii_only) b.
Proof.
  intros text.
  assert (E : Support.parse_support_prompt (rt := ascii_only) text
              = Some ("2 open tickets", "Reset my password")) by reflexivity.
  split; [exact E |].
  destruct (parse_support_prompt_total (rt := ascii_only) text)
    as (context & request & Hp & _ & _ & Hm & _).
  destruct (Hm eq_refl) as (a & b & H1 & _ & H2 & _).
  exists a, b. split; [exact H1 |].
  rewrite E in Hp. injection Hp as <- _. exact H2.
Defined.

Example parse_support_prompt_examples :
  let parse := Support.parse_support_prompt (rt := ascii_only) in
  parse "  Reset my password  Data context: 2 open tickets "
  = Some ("2 open tickets", "Reset my password") /\
  parse "Data context: vip customer" = Some ("vip customer", "your request") /\
  parse "   " = Some ("", "your request") /\
  parse (String (ascii_of_nat 28) "a" ++ String (ascii_of_nat 31) "") = Some ("", "a") /\
  parse "a Data context: b Data context: c" = Some ("b Data context: c", "a").
Proof. repeat split; reflexivity. Qed.

(** ** Lower case *)

Lemma lower_char_idem (c : ascii) :
  Support.lower_char (Support.lower_char c) = Support.lower_char c.
Proof.
  unfold Support.lower_char.
  destruct (((65 <=? nat_of_ascii c) && (nat_of_ascii c <=? 90))%nat) eqn:E.
  - apply andb_true_iff in E. destruct E as [E1 E2].
    apply Nat.leb_le in E1, E2.
    rewrite nat_ascii_embedding by lia.
    replace ((65 <=? nat_of_ascii c + 32) && (nat_of_ascii c + 32 <=? 90))%nat with false;
      [reflexivity |].
    symmetry. apply andb_false_iff. right. apply Nat.leb_gt. lia.
  - now rewrite E.
Qed.

Lemma lower_char_is_ascii (c : ascii) :
  (nat_of_ascii c < 128)%nat -> (nat_of_ascii (Support.lower_char c) < 128)%nat.
Proof.
  intros H. unfold Support.lower_char.
  destruct (((65 <=? nat_of_ascii c) && (nat_of_ascii c <=? 90))%nat) eqn:E; [| exact H].
  apply andb_true_iff in E. destruct E as [E1 E2].
  apply Nat.leb_le in E1, E2.
  rewrite nat_ascii_embedding by lia. lia.
Qed.

Lemma ascii_lower_idem (s : string) :
  Support.ascii_lower (Support.ascii_lower s) = Support.ascii_lower s.
Proof.
  induction s as [| c s IH]; simpl; [reflexivity |].
  now rewrite IH, lower_char_idem.
Qed.

Lemma ascii_lower_is_ascii (s : string) :
  is_ascii s = true -> is_ascii (Support.ascii_lower s) = true.
Proof.
  induction s as [| c s IH]; simpl; [reflexivity |].
  rewrite !andb_true_iff, !Nat.ltb_lt. intros [H1 H2].
  split; [now apply lower_char_is_ascii | now apply IH].
Qed.

Lemma lower_idem {rt : Runtime} (s : string) :
  is_ascii s = true -> Support.lower (Support.lower s) = Support.lower s.
Proof.
  intros H. unfold Support.lower. rewrite H, (ascii_lower_is_ascii s H).
  apply ascii_lower_idem.
Qed.

(** X15: [generate_suggestions] always gives three suggestions, none empty,
    the last being the line about urgency, so the three bullets the reply
    keeps are all of them.  The choice looks at the prompt through its lower
    case only: two prompts with the same lower case get the same
    suggestions, and an ASCII prompt gets the suggestions of its lower
    case. *)
Theorem generate_suggestions_three {rt : Runtime} (user_prompt : string) :
  List.length (Support.generate_suggestions user_prompt) = 3%nat /\
  firstn 3 (Support.generate_suggestions user_prompt)
  = Support.generate_suggestions user_prompt /\
  nth_error (Support.generate_suggestions user_prompt) 2
  = Some "If this is urgent, reply here and I’ll jump on it immediately." /\
  Forall (fun s => s <> "") (Support.generate_suggestions user_prompt) /\
  (forall other : string,
     Support.lower other = Support.lower user_prompt ->
     Support.generate_suggestions other = Support.generate_suggestions user_prompt) /\
  (is_ascii user_prompt = true ->
   Support.generate_suggestions (Support.lower user_prompt)
   = Support.generate_suggestions user_prompt).
Proof.
  assert (Hsame : forall other : string,
            Support.lower other = Support.lower user_prompt ->
            Support.generate_suggestions other = Support.generate_suggestions user_prompt).
  { intros other H. unfold Support.generate_suggestions. now rewrite H. }
  split; [| split; [| split; [| split; [| split]]]];
    try exact Hsame;
    try (intros Hascii; apply Hsame; now apply lower_idem);
    unfold Support.generate_suggestions;
    (destruct (Support.any_in ["login"; "password"] _);
     [| destruct (Support.any_in ["ticket"; "issue"; "problem"] _);
        [| destruct (Support.any_in ["history"; "follow"; "activity"] _)]]);
    try reflexivity; repeat constructor; discriminate.
Qed.

Lemma generate_suggestions_three_witness :
  Support.generate_suggestions (rt := ascii_only) "I forgot my PASSWORD"
  = Support.generate_suggestions (rt := ascii_only) "i forgot my password" /\
  nth_error (Support.generate_suggestions (rt := ascii_only) "I forgot my PASSWORD") 0
  = Some "Try resetting your password and confirm you can sign in from a trusted browser.".
Proof.
  split; [| reflexivity].
  symmetry.
  exact (proj2 (proj2 (proj2 (proj2 (proj2
           (generate_suggestions_three (rt := ascii_only) "I forgot my PASSWORD")))))
           eq_refl).
Defined.

(* ================================================================== *)
(** * Integers sent as text *)

Lemma digits_step (c : ascii) (acc : Z) (b : bool) (l : list ascii) :
  is_digit c = true ->
  digits acc b (c :: l) = digits (10 * acc + digit_value c) true l.
Proof. intros H. simpl. now rewrite H. Qed.

Lemma digits_uint_acc (d : Decimal.uint) (p : positive) :
  digits (Z.pos p) true (uint_chars d) = Some (Z.pos (Pos.of_uint_acc d p)).
Proof.
  revert p. unfold uint_chars.
  induction d as [| d IH | d IH | d IH | d IH | d IH | d IH | d IH | d IH | d IH | d IH];
    intros p; cbn [NilEmpty.string_of_uint list_ascii_of_string Pos.of_uint_acc];
    [reflexivity | ..];
    rewrite digits_step by reflexivity;
    match goal with
    | |- context [digit_value ?c] =>
        let v := eval vm_compute in (digit_value c) in
        change (digit_value c) with v
    end;
    match goal with
    | |- digits ?a true _ = Some (Z.pos (Pos.of_uint_acc _ ?q)) =>
        replace a with (Z.pos q) by lia
    end;
    apply IH.
Qed.

Lemma digits_uint (d : Decimal.uint) :
  digits 0 true (uint_chars d) = Some (Z.of_N (Pos.of_uint d)).
Proof.
  unfold uint_chars.
  induction d as [| d IH | d IH | d IH | d IH | d IH | d IH | d IH | d IH | d IH | d IH];
    cbn [NilEmpty.string_of_uint list_ascii_of_string Pos.of_uint];
    [reflexivity | ..];
    rewrite digits_step by reflexivity;
    [ exact IH | .. ];
    match goal with
    | |- context [digit_value ?c] =>
        let v := eval vm_compute in (digit_value c) in
        change (digit_value c) with v
    end;
    match goal with
    | |- digits ?a true _ = Some (Z.of_N (N.pos (Pos.of_uint_acc _ ?q))) =>
        change a with (Z.pos q)
    end;
    apply digits_uint_acc.
Qed.

Lemma digits_uint_start (d : Decimal.uint) :
  d <> Decimal.Nil ->
  digits 0 false (uint_chars d) = Some (Z.of_N (Pos.of_uint d)) /\
  exists c l, uint_chars d = c :: l /\ is_digit c = true.
Proof.
  intros Hd. pose proof (digits_uint d) as H.
  unfold uint_chars in *.
  destruct d; try contradiction;
    cbn [NilEmpty.string_of_uint list_ascii_of_string] in *;
    (split; [rewrite digits_step in * by reflexivity; exact H
            | eexists _, _; split; reflexivity]).
Qed.

Lemma digit_is_not_space (c : ascii) : is_digit c = true -> is_space c = false.
Proof.
  unfold is_digit, is_space. intros H.
  apply andb_true_iff in H. destruct H as [H1 H2].
  apply Nat.leb_le in H1, H2.
  apply orb_false_iff. split.
  - apply andb_false_iff. right. apply Nat.leb_gt. lia.
  - apply Nat.eqb_neq. lia.
Qed.

Lemma digit_is_ascii (c : ascii) : is_digit c = true -> (nat_of_ascii c < 128)%nat.
Proof.
  unfold is_digit. intros H.
  apply andb_true_iff in H. destruct H as [_ H2].
  apply Nat.leb_le in H2. lia.
Qed.

Lemma uint_chars_digits (d : Decimal.uint) : Forall (fun c => is_digit c = true) (uint_chars d).
Proof.
  unfold uint_chars.
  induction d; cbn [NilEmpty.string_of_uint list_ascii_of_string]; constructor;
    solve [reflexivity | assumption].
Qed.

Lemma int_lstrip_fixed (l : list ascii) :
  match l with
  | [] => True
  | c :: _ => is_space c = false
  end ->
  Py.lstrip l = l.
Proof. destruct l as [| c l]; simpl; [reflexivity | now intros ->]. Qed.

Lemma lstrip_no_space (l : list ascii) :
  Forall (fun c => is_space c = false) l -> Py.lstrip l = l.
Proof. intros H. apply int_lstrip_fixed. destruct H; [exact I | assumption]. Qed.

Lemma strip_no_space (l : list ascii) :
  Forall (fun c => is_space c = false) l -> Py.strip l = l.
Proof.
  intros H. unfold Py.strip.
  rewrite (lstrip_no_space l H).
  rewrite lstrip_no_space by (apply Forall_rev; exact H).
  apply rev_involutive.
Qed.

(** The text [str()] writes for an integer is ASCII. *)
Lemma decimal_is_ascii (z : Z) : is_ascii (decimal z) = true.
Proof.
  assert (Hu : forall d, is_ascii (NilEmpty.string_of_uint d) = true).
  { intros d. apply is_ascii_chars. fold (uint_chars d).
    eapply Forall_impl; [| apply uint_chars_digits].
    intros c. apply digit_is_ascii. }
  assert (Hz : forall d, is_ascii (NilZero.string_of_uint d) = true).
  { intros d. unfold NilZero.string_of_uint. destruct d; try apply Hu. reflexivity. }
  unfold decimal. destruct (Z.to_int z) as [d | d]; cbn [NilZero.string_of_int].
  - apply Hz.
  - cbn [is_ascii]. rewrite Hz. reflexivity.
Qed.

(** [int()] reads back what [str()] writes for an integer. *)
Lemma ascii_int_of_decimal (z : Z) : ascii_int_literal (decimal z) = Some z.
Proof.
  assert (Hns : forall d, Forall (fun c => is_space c = false) (uint_chars d)).
  { intros d. eapply Forall_impl; [| apply uint_chars_digits].
    intros c. apply digit_is_not_space. }
  assert (Hpos : forall p, ascii_int_literal (NilEmpty.string_of_uint (Pos.to_uint p))
                           = Some (Z.pos p)).
  { intros p. unfold ascii_int_literal.
    fold (uint_chars (Pos.to_uint p)). rewrite (strip_no_space _ (Hns _)).
    destruct (digits_uint_start _ (DecimalPos.Unsigned.to_uint_nonnil p))
      as (Hd & c & l & Hcl & Hc).
    rewrite Hcl in *.
    assert (Ascii.eqb c "-" = false /\ Ascii.eqb c "+" = false) as [-> ->].
    { split; apply Ascii.eqb_neq; intros ->; discriminate Hc. }
    rewrite Hd, DecimalPos.Unsigned.of_to. reflexivity. }
  unfold decimal. destruct z as [| p | p]; cbn [Z.to_int NilZero.string_of_int].
  - reflexivity.
  - unfold NilZero.string_of_uint.
    destruct (Pos.to_uint p) eqn:E;
      try (rewrite <- E; now rewrite Hpos).
    exfalso. exact (DecimalPos.Unsigned.to_uint_nonnil p E).
  - unfold NilZero.string_of_uint.
    assert (Hneg : ascii_int_literal (String "-" (NilEmpty.string_of_uint (Pos.to_uint p)))
                   = Some (Z.neg p)).
    { unfold ascii_int_literal. cbn [list_ascii_of_string].
      fold (uint_chars (Pos.to_uint p)).
      rewrite strip_no_space by (constructor; [reflexivity | apply Hns]).
      cbn [Ascii.eqb]. simpl Ascii.eqb.
      destruct (digits_uint_start _ (DecimalPos.Unsigned.to_uint_nonnil p)) as (Hd & _).
      change (Ascii.eqb "-" "-") with true. cbv iota.
      rewrite Hd, DecimalPos.Unsigned.of_to. reflexivity. }
    destruct (Pos.to_uint p) eqn:E; try (now rewrite Hneg).
    exfalso. exact (DecimalPos.Unsigned.to_uint_nonnil p E).
Qed.

Lemma int_of_decimal {rt : Runtime} (z : Z) : int (VStr (decimal z)) = Return z.
Proof.
  unfold int, int_literal. now rewrite decimal_is_ascii, ascii_int_of_decimal.
Qed.

Lemma get_head (k : string) (v : value) (rest : list (string * value)) :
  get ((k, v) :: rest) k = v.
Proof. unfold get. simpl. now rewrite String.eqb_refl. Qed.

Lemma get_other (k k' : string) (v : value) (rest : list (string * value)) :
  k <> k' -> get ((k', v) :: rest) k = get rest k.
Proof. intros H. unfold get. now rewrite dict_find_other. Qed.

Lemma get_default_head (k : string) (v dflt : value) (rest : list (string * value)) :
  get_default ((k, v) :: rest) k dflt = v.
Proof. unfold get_default. simpl. now rewrite String.eqb_refl. Qed.

Lemma get_default_other (k k' : string) (v dflt : value) (rest : list (string * value)) :
  k <> k' -> get_default ((k', v) :: rest) k dflt = get_default rest k dflt.
Proof. intros H. unfold get_default. now rewrite dict_find_other. Qed.

(** X16: an integer argument may be sent as its decimal text.  [int()]
    reads back the text [str()] writes for any integer, so an invocation
    whose customer_id, or whose limit, is the decimal text of a number has
    the outcome of the invocation that carries the number itself, for every
    tool. *)
Theorem decimal_text_is_read_as_the_integer {rt : Runtime}
    (now : string) (tool : string) (rest : list (string * value)) (w : world) (z : Z) :
  int (VStr (str (VInt z))) = Return z /\
  call_tool now (mk_invocation tool (("customer_id", VStr (str (VInt z))) :: rest)) w
  = call_tool now (mk_invocation tool (("customer_id", VInt z) :: rest)) w /\
  call_tool now (mk_invocation tool (("limit", VStr (str (VInt z))) :: rest)) w
  = call_tool now (mk_invocation tool (("limit", VInt z) :: rest)) w.
Proof.
  change (str (VInt z)) with (decimal z).
  split; [apply int_of_decimal |].
  split; unfold call_tool; cbn [name arguments];
    repeat match goal with
           | |- context [String.eqb tool ?s] => destruct (String.eqb tool s)
           end;
    rewrite ?get_head, ?get_default_head;
    rewrite ?get_other, ?get_default_other by discriminate;
    rewrite ?int_of_decimal; reflexivity.
Qed.

Example decimal_text_examples :
  str (rt := ascii_only) (VInt (-305)) = "-305" /\
  int (rt := ascii_only) (VStr "-305") = Return (-305) /\
  fst (call_tool (rt := ascii_only) "2024-05-01 10:00:00"
         (mk_invocation "get_customer" [("customer_id", VStr "3")])
         (mk_world (Seed.sample_store "2024-01-01 00:00:00") [] [] 0))
  = Return (OneCustomer
              (Customer.mk 3 "Cara Care" "cara@example.com" "vip" "2024-01-01 00:00:00")).
Proof. repeat split; reflexivity. Qed.

(* ================================================================== *)
(** * Updates of different customers *)

Lemma set_column_any_row {rt : Runtime}
    (params : list (string * sqlval)) (col old new old' : string) :
  set_column params col old = Return new ->
  exists new', set_column params col old' = Return new'.
Proof.
  unfold set_column. destruct (assigned col params); eauto.
Qed.

Lemma update_row_any_row {rt : Runtime}
    (params : list (string * sqlval)) (r r' x : Customer.row) :
  update_row params r = Return r' ->
  exists x', update_row params x = Return x' /\ Customer.id x' = Customer.id x.
Proof.
  unfold update_row.
  destruct (set_column params "name" (Customer.name r)) as [n |] eqn:E1; [| discriminate].
  destruct (set_column params "email" (Customer.email r)) as [m |] eqn:E2; [| discriminate].
  destruct (set_column params "status" (Customer.status r)) as [s |] eqn:E3; [| discriminate].
  intros _.
  destruct (set_column_any_row _ _ _ _ (Customer.name x) E1) as [n' ->].
  destruct (set_column_any_row _ _ _ _ (Customer.email x) E2) as [m' ->].
  destruct (set_column_any_row _ _ _ _ (Customer.status x) E3) as [s' ->].
  eexists. split; reflexivity.
Qed.

Lemma update_where_id_map {rt : Runtime} (params : list (string * sqlval)) (cid : Z)
    (g : Customer.row -> Customer.row) (rows : list Customer.row) :
  (forall x, Customer.id x = cid -> update_row params x = Return (g x)) ->
  (forall x, Customer.id x <> cid -> g x = x) ->
  update_where_id params cid rows = Return (map g rows).
Proof.
  intros Hg Hother. induction rows as [| r rows IH]; simpl; [reflexivity |].
  destruct (Z.eqb_spec (Customer.id r) cid) as [E | N].
  - now rewrite (Hg r E), IH.
  - now rewrite IH, (Hother r N).
Qed.

Lemma find_in_map (g : Customer.row -> Customer.row) (cid : Z) (rows : list Customer.row) :
  (forall x, Customer.id (g x) = Customer.id x) ->
  find (fun r => Customer.id r =? cid) (map g rows)
  = option_map g (find (fun r => Customer.id r =? cid) rows).
Proof.
  intros Hid. induction rows as [| r rows IH]; simpl; [reflexivity |].
  rewrite Hid. destruct (Customer.id r =? cid); [reflexivity | exact IH].
Qed.

Lemma with_customers_same (d : store) : with_customers d (customers d) = d.
Proof. now destruct d. Qed.

(** A successful [modify_customer] is a fixed change of the rows with the
    given id, the same on every table with the same answer to the
    existence test. *)
Lemma modify_customer_as_map {rt : Runtime} (d d' : store) (cid : Z) (patch : value)
    (r : option Customer.row) :
  modify_customer d cid patch = (Return r, d') ->
  exists g : Customer.row -> Customer.row,
    (forall x, Customer.id (g x) = Customer.id x) /\
    (forall x, Customer.id x <> cid -> g x = x) /\
    forall d2 : store,
      has_customer d2 cid = has_customer d cid ->
      modify_customer d2 cid patch
      = (get_customer (with_customers d2 (map g (customers d2))) cid,
         with_customers d2 (map g (customers d2))).
Proof.
  unfold modify_customer.
  destruct (items patch) as [its | e]; [| discriminate].
  destruct (filter (fun kv => is_allowed (fst kv)) its) as [| kv updates].
  - intros _. exists (fun x => x). repeat split.
    intros d2 _. now rewrite map_id, with_customers_same.
  - rewrite bind_int. destruct (in_int64 cid) eqn:Hin; [| discriminate].
    destruct (existsb (fun x => Customer.id x =? cid) (customers d)) eqn:Hex; cbn [negb].
    + destruct (bind_values (kv :: updates)) as [params | e]; [| discriminate].
      destruct (update_where_id params cid (customers d)) as [rows | e] eqn:Hu;
        [| discriminate].
      intros _.
      assert (Hsome : exists r0 r0', update_row params r0 = Return r0').
      { clear -Hex Hu. revert rows Hu.
        induction (customers d) as [| x l IH]; simpl in *; [discriminate |].
        intros rows. destruct (Customer.id x =? cid).
        - destruct (update_row params x) as [x' |] eqn:Hx; [eauto | discriminate].
        - simpl in Hex.
          destruct (update_where_id params cid l) as [rest |] eqn:Hl; [| discriminate].
          intros _. exact (IH Hex rest eq_refl). }
      destruct Hsome as (r0 & r0' & Hr0).
      set (f := fun x => match update_row params x with Return x' => x' | Raise _ => x end).
      assert (Hf : forall x, update_row params x = Return (f x) /\
                             Customer.id (f x) = Customer.id x).
      { intros x. destruct (update_row_any_row params r0 r0' x Hr0) as (x' & Hx & Hid).
        unfold f. rewrite Hx. auto. }
      exists (fun x => if Customer.id x =? cid then f x else x). repeat split.
      * intros x. destruct (Customer.id x =? cid); [apply Hf | reflexivity].
      * intros x Hx. now rewrite (proj2 (Z.eqb_neq _ _) Hx).
      * intros d2 H2. unfold has_customer in H2. rewrite H2, Hex. cbn [negb].
        rewrite (update_where_id_map params cid
                   (fun x => if Customer.id x =? cid then f x else x)).
        -- reflexivity.
        -- intros x Hx. rewrite (proj2 (Z.eqb_eq _ _) Hx). apply Hf.
        -- intros x Hx. now rewrite (proj2 (Z.eqb_neq _ _) Hx).
    + intros _. exists (fun x => x). repeat split.
      intros d2 H2. unfold has_customer in H2. rewrite H2, Hex. cbn [negb].
      rewrite map_id, with_customers_same.
      rewrite (has_customer_find d2 cid Hin); [reflexivity |].
      unfold has_customer. now rewrite H2.
Qed.

(** X17: updates of two different customers do not interfere.  When an
    update of one customer and then an update of another both return, the
    two updates made in the other order return the same two results and
    leave the same database. *)
Theorem updates_of_different_customers_commute {rt : Runtime}
    (d d1 d12 : store) (c1 c2 : Z) (p1 p2 : value) (r1 r2 : option Customer.row) :
  c1 <> c2 ->
  modify_customer d c1 p1 = (Return r1, d1) ->
  modify_customer d1 c2 p2 = (Return r2, d12) ->
  exists d2 : store,
    modify_customer d c2 p2 = (Return r2, d2) /\
    modify_customer d2 c1 p1 = (Return r1, d12).
Proof.
  intros Hne H1 H2.
  destruct (modify_customer_as_map d d1 c1 p1 r1 H1) as (g1 & Hid1 & Ho1 & Hg1).
  destruct (modify_customer_as_map d1 d12 c2 p2 r2 H2) as (g2 & Hid2 & Ho2 & Hg2).
  rewrite (Hg1 d eq_refl) in H1. injection H1 as Hr1 Hd1. subst d1.
  rewrite (Hg2 _ eq_refl) in H2. injection H2 as Hr2 Hd12. subst d12.
  cbn [customers with_customers] in *.
  assert (Hcomm : map g1 (map g2 (customers d)) = map g2 (map g1 (customers d))).
  { rewrite !map_map. apply map_ext. intros x.
    destruct (Z.eq_dec (Customer.id x) c1) as [E1 | N1].
    - rewrite (Ho2 x) by congruence.
      rewrite (Ho2 (g1 x)) by (rewrite Hid1; congruence). reflexivity.
    - rewrite (Ho1 x N1).
      rewrite (Ho1 (g2 x)) by (rewrite Hid2; exact N1). reflexivity. }
  exists (with_customers d (map g2 (customers d))).
  split.
  - rewrite (Hg2 d).
    + f_equal. rewrite <- Hr2.
      unfold get_customer. destruct (Sqlite.bind (VInt c2)); [| reflexivity]. f_equal.
      cbn [customers with_customers].
      rewrite !(find_in_map g2 c2) by exact Hid2.
      rewrite (find_in_map g1 c2) by exact Hid1.
      destruct (find (fun r => Customer.id r =? c2) (customers d)) as [x |] eqn:Hx;
        [| reflexivity].
      simpl. apply find_some in Hx. destruct Hx as [_ Hx]. apply Z.eqb_eq in Hx.
      rewrite (Ho1 x) by congruence. reflexivity.
    + symmetry. apply has_customer_ids. cbn [customers with_customers].
      rewrite map_map. apply map_ext. exact Hid1.
  - rewrite (Hg1 (with_customers d (map g2 (customers d)))).
    + cbn [customers with_customers]. rewrite Hcomm.
      unfold with_customers. cbn [customers tickets tickets_seq interactions].
      f_equal. rewrite <- Hr1.
      unfold get_customer. destruct (Sqlite.bind (VInt c1)); [| reflexivity]. f_equal.
      cbn [customers with_customers].
      rewrite (find_in_map g2 c1) by exact Hid2.
      rewrite !(find_in_map g1 c1) by exact Hid1.
      destruct (find (fun r => Customer.id r =? c1) (customers d)) as [x |] eqn:Hx;
        [| reflexivity].
      simpl. apply find_some in Hx. destruct Hx as [_ Hx]. apply Z.eqb_eq in Hx.
      rewrite (Ho2 (g1 x)) by (rewrite Hid1; congruence). reflexivity.
    + apply has_customer_ids. cbn [customers with_customers]. rewrite map_map.
      apply map_ext. exact Hid2.
Qed.

Lemma updates_of_different_customers_commute_witness :
  let modify := modify_customer (rt := ascii_only) in
  let d := Seed.sample_store "2024-01-01 00:00:00" in
  let p1 := VDict [("status", VStr "vip")] in
  let p2 := VDict [("name", VStr "Brian Unblocked"); ("status", VStr "active")] in
  let a := Customer.mk 1 "Ana Customer" "ana@example.com" "vip" "2024-01-01 00:00:00" in
  let b := Customer.mk 2 "Brian Unblocked" "brian@example.com" "active"
                       "2024-01-01 00:00:00" in
  exists d1 d12 : store,
    modify d 1 p1 = (Return (Some a), d1) /\
    modify d1 2 p2 = (Return (Some b), d12) /\
    exists d2 : store,
      modify d 2 p2 = (Return (Some b), d2) /\
      modify d2 1 p1 = (Return (Some a), d12).
Proof.
  intros modify d p1 p2 a b.
  exists (snd (modify d 1 p1)).
  exists (snd (modify (snd (modify d 1 p1)) 2 p2)).
  assert (H1 : modify d 1 p1 = (Return (Some a), snd (modify d 1 p1)))
    by reflexivity.
  assert (H2 : modify (snd (modify d 1 p1)) 2 p2
               = (Return (Some b),
                  snd (modify (snd (modify d 1 p1)) 2 p2)))
    by reflexivity.
  split; [exact H1 |]. split; [exact H2 |].
  refine (updates_of_different_customers_commute (rt := ascii_only)
            d _ _ 1 2 p1 p2 _ _ _ H1 H2).
  discriminate.
Defined.

(* ================================================================== *)
(** * References to customers *)

Lemma has_customer_get (d : store) (cid : Z) :
  in_int64 cid = true ->
  has_customer d cid = true ->
  exists c, get_customer d cid = Return (Some c) /\ Customer.id c = cid.
Proof.
  intros Hr H.
  destruct (find (fun r => Customer.id r =? cid) (customers d)) as [c |] eqn:E.
  - assert (G : get_customer d cid = Return (Some c))
      by (rewrite (get_customer_in_range _ _ Hr); now rewrite E).
    exists c. split; [exact G |]. exact (proj2 (find_some_has_customer d cid c G)).
  - assert (G : get_customer d cid = Return None)
      by (rewrite (get_customer_in_range _ _ Hr); now rewrite E).
    apply find_none_has_customer in G. congruence.
Qed.

Lemma has_customer_in_range (d : store) (cid : Z) :
  rowids_in_range d = true -> has_customer d cid = true -> in_int64 cid = true.
Proof.
  unfold rowids_in_range, has_customer. intros Hall Hex.
  apply existsb_exists in Hex. destruct Hex as (c & Hin & Hc).
  apply Z.eqb_eq in Hc. subst cid.
  rewrite forallb_forall in Hall. now apply Hall.
Qed.

Lemma rowids_same_ids (d d' : store) :
  map Customer.id (customers d') = map Customer.id (customers d) ->
  rowids_in_range d' = rowids_in_range d.
Proof.
  unfold rowids_in_range. intros H.
  assert (G : forall rows, forallb (fun r => in_int64 (Customer.id r)) rows
                           = forallb in_int64 (map Customer.id rows)).
  { induction rows as [| r rows IH]; simpl; [reflexivity | now rewrite IH]. }
  now rewrite !G, H.
Qed.

Lemma run_keeps_customer_ids {rt : Runtime} (acts : list action) (w w' : world) :
  run acts w = Some w' ->
  map Customer.id (customers (db w')) = map Customer.id (customers (db w)).
Proof.
  revert w. induction acts as [| a acts IH]; intros w; simpl.
  - now intros [= <-].
  - destruct (step a w) as [w1 |] eqn:Hs; [| discriminate].
    intros Hr. rewrite (IH w1 Hr). exact (proj1 (step_db_effect a w w1 Hs)).
Qed.

(** X18: the references to customers stay valid.  In a database where every
    ticket and every interaction names an existing customer, they still do
    after any run of the server: each of them names a customer that
    [get_customer] finds. *)
Theorem references_stay_valid {rt : Runtime} (acts : list action) (w w' : world) :
  foreign_keys_hold (db w) = true ->
  rowids_in_range (db w) = true ->
  run acts w = Some w' ->
  foreign_keys_hold (db w') = true /\
  (forall t, In t (tickets (db w')) ->
             exists c, get_customer (db w') (Ticket.customer_id t) = Return (Some c) /\
                       Customer.id c = Ticket.customer_id t) /\
  (forall i, In i (interactions (db w')) ->
             exists c, get_customer (db w') (Interaction.customer_id i) = Return (Some c) /\
                       Customer.id c = Interaction.customer_id i).
Proof.
  intros Hfk Hids Hr.
  pose proof (run_keeps_foreign_keys acts w w' Hfk Hr) as H.
  assert (Hids' : rowids_in_range (db w') = true)
    by (rewrite (rowids_same_ids _ _ (run_keeps_customer_ids acts w w' Hr)); exact Hids).
  split; [exact H |].
  unfold foreign_keys_hold in H. apply andb_true_iff in H. destruct H as [Hi Ht].
  rewrite forallb_forall in Hi, Ht.
  split; intros x Hx; apply has_customer_get; eauto using has_customer_in_range.
Qed.

Lemma references_stay_valid_witness :
  let w := mk_world (Seed.sample_store "2024-01-01 00:00:00") [] [] 0 in
  let acts := [Call "2024-05-01 10:00:00"
                 (mk_invocation "create_ticket"
                    [("customer_id", VInt 3); ("issue", VStr "roadmap");
                     ("priority", VStr "low")]);
               Call "2024-05-01 10:01:00"
                 (mk_invocation "create_ticket"
                    [("customer_id", VInt 4); ("issue", VStr "ghost");
                     ("priority", VStr "low")])] in
  exists w' : world,
    run (rt := ascii_only) acts w = Some w' /\
    map Ticket.customer_id (tickets (db w')) = [3] /\
    foreign_keys_hold (db w') = true.
Proof.
  intros w acts.
  destruct (run (rt := ascii_only) acts w) as [w' |] eqn:Hr; [| discriminate Hr].
  exists w'. split; [reflexivity |].
  split; [injection Hr as <-; reflexivity |].
  exact (proj1 (references_stay_valid (rt := ascii_only) acts w w' eq_refl eq_refl Hr)).
Defined.
